(** * ioeye: storage I/O latency attribution and analysis

    A shallow embedding of the analysis engine of ioeye:
    - [pkg/ebpf]     : the statistics record and the rate computations of
                       [GetIOPS] and [GetThroughput];
    - [pkg/monitor]  : the per-pod metrics record, the collector
                       ([collectMetrics]), the monitor's read operations
                       ([GetPodMetrics], [GetAllMetrics] and the per-pod
                       accessors) and its two rankings;
    - [pkg/analyzer] : the bounded history store, the bottleneck classifier,
                       the anomaly detector, the latency trend and the
                       slow-pod ranking;
    - [cmd/main]     : the collector loop and the analysis loop running side
                       by side;
    - [bpf/io_tracer]: the block-layer and VFS probes that pair a start
                       event with its completion.

    Conventions.
    - A Go [uint64] (or C [u64]) is a [Z] in [0, 2^64); every addition and
      subtraction of the source is followed by [wrap64].
    - A Go [float64] is a primitive binary64 [float]; arithmetic is the IEEE
      754 round-to-nearest-even arithmetic of [PrimFloat], one rounding per
      source operation.
    - A [*PodStorageMetrics] is an address into an explicit [Heap]; [&x] of a
      fresh local allocates a new cell.
    - [time.Time] is an instant in nanoseconds on one time line, and
      [time.Now()] is an explicit argument. *)

From Stdlib Require Import ZArith Bool Floats Sorting.Permutation Sorting.Sorted Lia.
From stdpp Require Import gmap strings list sorting.

Local Open Scope Z_scope.

(* ===================================================================== *)
(** * Machine integers and float64 *)
(* ===================================================================== *)

Definition wrap64 (x : Z) : Z := x mod 2 ^ 64.

(** Go negation of an [int64] (two's complement). *)
Definition wrap_int64 (x : Z) : Z := (x + 2 ^ 63) mod 2 ^ 64 - 2 ^ 63.

Module Float64.

(** Integer to [float64] conversion: the integer rounded to nearest, ties
    to even.  This is the rounding [PrimFloat.of_uint63] is specified by
    ([of_uint63_spec]), taken at any integer so that it also covers the
    upper half of [uint64]. *)
Definition of_Z (z : Z) : float :=
  SF2Prim (binary_normalize prec emax z 0 false).

(** [float64(len(s))]: a slice length is a non-negative [int]. *)
Definition of_len (n : nat) : float :=
  PrimFloat.of_uint63 (Uint63.of_Z (Z.of_nat n)).

(** [x > y] on floats. *)
Definition gtb (x y : float) : bool := PrimFloat.ltb y x.




(** The binary64 representation of a positive integer below [2^53]: the
    mantissa shifted to 53 bits, with the matching exponent. *)
Definition canon (p : positive) : spec_float :=
  S754_finite false (Z.to_pos (Zpos p * 2 ^ (53 - Zpos (digits2_pos p))))
    (Zpos (digits2_pos p) - 53).

(** [uint64(x)]: the fraction is discarded.  What the conversion gives
    for a value that does not fit (NaN, an infinity, a negative number
    below -1, [2^64] and above) is left to the implementation by the
    language; it is [None] here. *)
Definition to_uint64 (x : float) : option Z :=
  match Prim2SF x with
  | S754_zero _ => Some 0
  | S754_finite s m e =>
      let truncated := if 0 <=? e then Zpos m * 2 ^ e else Zpos m / 2 ^ (- e) in
      if s then (if truncated =? 0 then Some 0 else None)
      else if truncated <? 2 ^ 64 then Some truncated else None
  | S754_infinity _ | S754_nan => None
  end.

End Float64.

(* ===================================================================== *)
(** * pkg/ebpf: the statistics the collector reads *)
(* ===================================================================== *)

Module Ebpf.

(** [type IOStatsData struct]. *)
Record IOStatsData := mkIOStats {
  ReadLatencyNs    : Z;
  WriteLatencyNs   : Z;
  ReadOps          : Z;
  WriteOps         : Z;
  ReadBytes        : Z;
  WriteBytes       : Z;
  QueueLatencyNs   : Z;
  DiskLatencyNs    : Z;
  NetworkLatencyNs : Z;
  LastUpdateTime   : Z
}.

(** [elapsedTime] after [if elapsedTime < 0.001 { elapsedTime = 1.0 }];
    the literal is the [float64] nearest to 0.001. *)
Definition guarded (elapsedTime : float) : float :=
  if PrimFloat.ltb elapsedTime 0x1.0624dd2f1a9fcp-10%float then 1%float else elapsedTime.

(** [uint64(float64(count) / elapsedTime)]. *)
Definition perSecond (count : Z) (elapsedTime : float) : option Z :=
  Float64.to_uint64 (Float64.of_Z count / elapsedTime)%float.

(** The body of the loop of [GetIOPS] for one pod; [None] when one of the
    conversions is left to the implementation. *)
Definition iopsOf (elapsedTime : float) (stats : IOStatsData) : option (gmap string Z) :=
  match perSecond (ReadOps stats) elapsedTime, perSecond (WriteOps stats) elapsedTime with
  | Some readIOPS, Some writeIOPS =>
      Some (<["read_iops" := readIOPS]>
              (<["write_iops" := writeIOPS]>
                 (<["total_iops" := wrap64 (readIOPS + writeIOPS)]> ∅)))
  | _, _ => None
  end.

(** [GetIOPS], on the statistics it fetched and the value of
    [time.Since(m.lastCollectTime).Seconds()]. *)
Definition GetIOPS (ioStats : gmap string IOStatsData) (elapsedTime : float)
  : gmap string (option (gmap string Z)) :=
  iopsOf (guarded elapsedTime) <$> ioStats.

(** The body of the loop of [GetThroughput] for one pod. *)
Definition throughputOf (elapsedTime : float) (stats : IOStatsData)
  : option (gmap string Z) :=
  match perSecond (ReadBytes stats) elapsedTime, perSecond (WriteBytes stats) elapsedTime with
  | Some readThroughput, Some writeThroughput =>
      Some (<["read_throughput_bps" := readThroughput]>
              (<["write_throughput_bps" := writeThroughput]>
                 (<["total_throughput_bps" := wrap64 (readThroughput + writeThroughput)]> ∅)))
  | _, _ => None
  end.

(** [GetThroughput]. *)
Definition GetThroughput (ioStats : gmap string IOStatsData) (elapsedTime : float)
  : gmap string (option (gmap string Z)) :=
  throughputOf (guarded elapsedTime) <$> ioStats.

End Ebpf.

(* ===================================================================== *)
(** * pkg/monitor: metrics records and the heap they live in *)
(* ===================================================================== *)

Module Monitor.

(** [type PodStorageMetrics struct]. *)
Record PodStorageMetrics := mkMetrics {
  PodName         : string;
  Namespace       : string;
  ReadLatency     : Z;
  WriteLatency    : Z;
  ReadIOPS        : Z;
  WriteIOPS       : Z;
  ReadThroughput  : Z;
  WriteThroughput : Z;
  QueueLatency    : Z;
  DiskLatency     : Z;
  NetworkLatency  : Z;
  Timestamp       : Z
}.

Definition zeroMetrics : PodStorageMetrics :=
  mkMetrics "" "" 0 0 0 0 0 0 0 0 0 0.

Definition setReadLatency (v : Z) (m : PodStorageMetrics) : PodStorageMetrics :=
  mkMetrics (PodName m) (Namespace m) v (WriteLatency m) (ReadIOPS m)
    (WriteIOPS m) (ReadThroughput m) (WriteThroughput m) (QueueLatency m)
    (DiskLatency m) (NetworkLatency m) (Timestamp m).

(** Addresses of [PodStorageMetrics] objects.  The heap is the list of
    all objects allocated so far; an address is an index into it. *)
Abbreviation ptr := nat.
Abbreviation Heap := (list PodStorageMetrics).

(** [&metricsCopy]: a fresh cell holding [v]. *)
Definition new (hp : Heap) (v : PodStorageMetrics) : ptr * Heap :=
  (length hp, hp ++ [v]).

(** [*p].  Every pointer the program holds comes from [new], so the
    default is never used on a reachable state. *)
Definition load (hp : Heap) (p : ptr) : PodStorageMetrics :=
  default zeroMetrics (hp !! p).

(** [*p = v], as a caller holding [p] may do. *)
Definition store (hp : Heap) (p : ptr) (v : PodStorageMetrics) : Heap :=
  <[p := v]> hp.

(** [type StorageMonitor struct], the fields the read operations use. *)
Record StorageMonitor := mkMonitor {
  namespace : string;
  interval  : Z;
  metrics   : gmap string ptr
}.

(** [GetPodMetrics]: [None] is the "no metrics found" error. *)
Definition GetPodMetrics (hp : Heap) (sm : StorageMonitor) (podName : string)
  : option ptr * Heap :=
  match metrics sm !! podName with
  | None => (None, hp)
  | Some p =>
      let metricsCopy := load hp p in
      let '(q, hp') := new hp metricsCopy in
      (Some q, hp')
  end.

(** One iteration of the loop of [GetAllMetrics]. *)
Definition copyEntry (acc : gmap string ptr * Heap) (kv : string * ptr)
  : gmap string ptr * Heap :=
  let '(result, hp) := acc in
  let metricsCopy := load hp (snd kv) in
  let '(q, hp') := new hp metricsCopy in
  (<[fst kv := q]> result, hp').

(** [GetAllMetrics].  [entries] is the order in which [range sm.metrics]
    visits the map; Go leaves it unspecified, so it is an argument: any
    permutation of [map_to_list (metrics sm)]. *)
Definition GetAllMetrics_in (entries : list (string * ptr)) (hp : Heap)
  : gmap string ptr * Heap :=
  fold_left copyEntry entries (∅, hp).

Definition GetAllMetrics (hp : Heap) (sm : StorageMonitor)
  : gmap string ptr * Heap :=
  GetAllMetrics_in (map_to_list (metrics sm)) hp.

(** ** The remaining operations of the monitor *)

(** [WithNamespace], [WithInterval], [NewStorageMonitor]. *)
Definition WithNamespace (ns : string) (sm : StorageMonitor) : StorageMonitor :=
  mkMonitor ns (interval sm) (metrics sm).

Definition WithInterval (seconds : Z) (sm : StorageMonitor) : StorageMonitor :=
  mkMonitor (namespace sm) seconds (metrics sm).

Definition NewStorageMonitor (opts : list (StorageMonitor -> StorageMonitor))
  : StorageMonitor :=
  fold_left (fun sm opt => opt sm) opts (mkMonitor "" 10 ∅).

(** The error of [GetPodMetrics]. *)
Definition noMetricsFound (podName : string) : string :=
  "no metrics found for pod " +:+ podName.

(** [GetPodIOPS], [GetPodThroughput], [GetPodLatency]: the values read
    through the copy [GetPodMetrics] returns, or zeros with its error. *)
Definition GetPodIOPS (hp : Heap) (sm : StorageMonitor) (podName : string)
  : (Z * Z * option string) * Heap :=
  match GetPodMetrics hp sm podName with
  | (None, hp') => ((0, 0, Some (noMetricsFound podName)), hp')
  | (Some q, hp') => ((ReadIOPS (load hp' q), WriteIOPS (load hp' q), None), hp')
  end.

Definition GetPodThroughput (hp : Heap) (sm : StorageMonitor) (podName : string)
  : (Z * Z * option string) * Heap :=
  match GetPodMetrics hp sm podName with
  | (None, hp') => ((0, 0, Some (noMetricsFound podName)), hp')
  | (Some q, hp') =>
      ((ReadThroughput (load hp' q), WriteThroughput (load hp' q), None), hp')
  end.

Definition GetPodLatency (hp : Heap) (sm : StorageMonitor) (podName : string)
  : (Z * Z * Z * Z * option string) * Heap :=
  match GetPodMetrics hp sm podName with
  | (None, hp') => ((0, 0, 0, 0, Some (noMetricsFound podName)), hp')
  | (Some q, hp') =>
      ((ReadLatency (load hp' q), WriteLatency (load hp' q),
        QueueLatency (load hp' q), DiskLatency (load hp' q), None), hp')
  end.

(** *** collectMetrics *)

Definition setWriteLatency (v : Z) (m : PodStorageMetrics) : PodStorageMetrics :=
  mkMetrics (PodName m) (Namespace m) (ReadLatency m) v (ReadIOPS m)
    (WriteIOPS m) (ReadThroughput m) (WriteThroughput m) (QueueLatency m)
    (DiskLatency m) (NetworkLatency m) (Timestamp m).

Definition setReadIOPS (v : Z) (m : PodStorageMetrics) : PodStorageMetrics :=
  mkMetrics (PodName m) (Namespace m) (ReadLatency m) (WriteLatency m) v
    (WriteIOPS m) (ReadThroughput m) (WriteThroughput m) (QueueLatency m)
    (DiskLatency m) (NetworkLatency m) (Timestamp m).

Definition setWriteIOPS (v : Z) (m : PodStorageMetrics) : PodStorageMetrics :=
  mkMetrics (PodName m) (Namespace m) (ReadLatency m) (WriteLatency m) (ReadIOPS m)
    v (ReadThroughput m) (WriteThroughput m) (QueueLatency m)
    (DiskLatency m) (NetworkLatency m) (Timestamp m).

Definition setReadThroughput (v : Z) (m : PodStorageMetrics) : PodStorageMetrics :=
  mkMetrics (PodName m) (Namespace m) (ReadLatency m) (WriteLatency m) (ReadIOPS m)
    (WriteIOPS m) v (WriteThroughput m) (QueueLatency m)
    (DiskLatency m) (NetworkLatency m) (Timestamp m).

Definition setWriteThroughput (v : Z) (m : PodStorageMetrics) : PodStorageMetrics :=
  mkMetrics (PodName m) (Namespace m) (ReadLatency m) (WriteLatency m) (ReadIOPS m)
    (WriteIOPS m) (ReadThroughput m) v (QueueLatency m)
    (DiskLatency m) (NetworkLatency m) (Timestamp m).

Definition setQueueLatency (v : Z) (m : PodStorageMetrics) : PodStorageMetrics :=
  mkMetrics (PodName m) (Namespace m) (ReadLatency m) (WriteLatency m) (ReadIOPS m)
    (WriteIOPS m) (ReadThroughput m) (WriteThroughput m) v
    (DiskLatency m) (NetworkLatency m) (Timestamp m).

Definition setDiskLatency (v : Z) (m : PodStorageMetrics) : PodStorageMetrics :=
  mkMetrics (PodName m) (Namespace m) (ReadLatency m) (WriteLatency m) (ReadIOPS m)
    (WriteIOPS m) (ReadThroughput m) (WriteThroughput m) (QueueLatency m)
    v (NetworkLatency m) (Timestamp m).

Definition setTimestamp (v : Z) (m : PodStorageMetrics) : PodStorageMetrics :=
  mkMetrics (PodName m) (Namespace m) (ReadLatency m) (WriteLatency m) (ReadIOPS m)
    (WriteIOPS m) (ReadThroughput m) (WriteThroughput m) (QueueLatency m)
    (DiskLatency m) (NetworkLatency m) v.

(** [metrics.Field = v]: a write of one field through the pointer [p]. *)
Definition assign (set : PodStorageMetrics -> PodStorageMetrics) (p : ptr) (hp : Heap)
  : Heap :=
  store hp p (set (load hp p)).

(** [m[key]] of a [map[string]uint64]: zero for a missing key. *)
Definition index (m : gmap string Z) (key : string) : Z := default 0 (m !! key).

(** What the six calls at the head of [collectMetrics] return when none
    of them fails. *)
Record collected := mkCollected {
  pods             : list string;
  ioStatsData      : gmap string Ebpf.IOStatsData;
  iopsData         : gmap string (gmap string Z);
  throughputData   : gmap string (gmap string Z);
  diskLatencyData  : gmap string Z;
  queueLatencyData : gmap string Z
}.

(** The body of the loop over the pods. *)
Definition collectPod (now : Z) (data : collected) (st : Heap * StorageMonitor)
    (podName : string) : Heap * StorageMonitor :=
  let '(hp, sm) := st in
  let '(p, hp, sm) :=
    match metrics sm !! podName with
    | Some p => (p, hp, sm)
    | None =>
        let '(q, hp') := new hp (mkMetrics podName (namespace sm) 0 0 0 0 0 0 0 0 0 0) in
        (q, hp', mkMonitor (namespace sm) (interval sm) (<[podName := q]> (metrics sm)))
    end in
  let hp := assign (setTimestamp now) p hp in
  let hp :=
    match ioStatsData data !! podName with
    | Some ioStats =>
        assign (setWriteLatency (Ebpf.WriteLatencyNs ioStats)) p
          (assign (setReadLatency (Ebpf.ReadLatencyNs ioStats)) p hp)
    | None => hp
    end in
  let hp :=
    match iopsData data !! podName with
    | Some iops =>
        assign (setWriteIOPS (index iops "write_iops")) p
          (assign (setReadIOPS (index iops "read_iops")) p hp)
    | None => hp
    end in
  let hp :=
    match throughputData data !! podName with
    | Some throughput =>
        assign (setWriteThroughput (index throughput "write_throughput_bps")) p
          (assign (setReadThroughput (index throughput "read_throughput_bps")) p hp)
    | None => hp
    end in
  let hp :=
    match diskLatencyData data !! podName with
    | Some diskLatency => assign (setDiskLatency diskLatency) p hp
    | None => hp
    end in
  let hp :=
    match queueLatencyData data !! podName with
    | Some queueLatency => assign (setQueueLatency queueLatency) p hp
    | None => hp
    end in
  (hp, sm).

(** [collectMetrics].  Each argument is what the corresponding call
    returned: a value, or the error it failed with; [now] is [time.Now()]
    read under the lock. *)
Definition collectMetrics
    (listPods : list string + string)
    (getIOStatsData : gmap string Ebpf.IOStatsData + string)
    (getIOPS getThroughput : gmap string (gmap string Z) + string)
    (getDiskLatencyData getQueueLatencyData : gmap string Z + string)
    (now : Z) (st : Heap * StorageMonitor)
  : option string * (Heap * StorageMonitor) :=
  match listPods with
  | inr err => (Some ("failed to list pods: " +:+ err), st)
  | inl pods =>
  match getIOStatsData with
  | inr err => (Some ("failed to get I/O stats data: " +:+ err), st)
  | inl ioStatsData =>
  match getIOPS with
  | inr err => (Some ("failed to get IOPS data: " +:+ err), st)
  | inl iopsData =>
  match getThroughput with
  | inr err => (Some ("failed to get throughput data: " +:+ err), st)
  | inl throughputData =>
  match getDiskLatencyData with
  | inr err => (Some ("failed to get disk latency data: " +:+ err), st)
  | inl diskLatencyData =>
  match getQueueLatencyData with
  | inr err => (Some ("failed to get queue latency data: " +:+ err), st)
  | inl queueLatencyData =>
      (None,
       fold_left
         (collectPod now
            (mkCollected pods ioStatsData iopsData throughputData diskLatencyData
               queueLatencyData))
         pods st)
  end end end end end end.

(** One firing of the ticker of [Start]: the results of the six calls
    and the time. *)
Record cycle := mkCycle {
  at_time        : Z;
  listed         : list string + string;
  ioStats        : gmap string Ebpf.IOStatsData + string;
  iops           : gmap string (gmap string Z) + string;
  throughput     : gmap string (gmap string Z) + string;
  diskLatency    : gmap string Z + string;
  queueLatency   : gmap string Z + string
}.

Definition collectCycle (st : Heap * StorageMonitor) (c : cycle) : Heap * StorageMonitor :=
  snd (collectMetrics (listed c) (ioStats c) (iops c) (throughput c) (diskLatency c)
         (queueLatency c) (at_time c) st).

(** The collector goroutine: one [collectMetrics] per tick; an error is
    printed and the loop goes on. *)
Definition collectLoop (cycles : list cycle) (st : Heap * StorageMonitor)
  : Heap * StorageMonitor :=
  fold_left collectCycle cycles st.

(** *** GetTopIOPSPods, GetTopThroughputPods *)

(** One iteration of the copying loop: [podCopy := *metrics;
    pods = append(pods, &podCopy)]. *)
Definition copyPod (acc : list ptr * Heap) (p : ptr) : list ptr * Heap :=
  let '(pods, hp) := acc in
  let '(q, hp') := new hp (load hp p) in
  (pods ++ [q], hp').

(** [if key(pods[i]) < key(pods[j]) { pods[i], pods[j] = pods[j], pods[i] }].
    The loops keep [i] and [j] within the slice. *)
Definition swapIfLess (key : ptr -> Z) (i j : nat) (pods : list ptr) : list ptr :=
  match pods !! i, pods !! j with
  | Some a, Some b => if key a <? key b then <[j := a]> (<[i := b]> pods) else pods
  | _, _ => pods
  end.

(** [for j := i + 1; j < len(pods); j++]. *)
Definition innerLoop (key : ptr -> Z) (pods : list ptr) (i : nat) : list ptr :=
  fold_left (fun pods j => swapIfLess key i j pods)
    (seq (i + 1) (length pods - (i + 1))) pods.

(** [for i := 0; i < len(pods)-1; i++]. *)
Definition sortDescending (key : ptr -> Z) (pods : list ptr) : list ptr :=
  fold_left (innerLoop key) (seq 0 (length pods - 1)) pods.

(** The two functions differ in the sort key only.  [values] lists the
    values of [sm.metrics] in the order [range] visits them; [None] is
    the panic of [pods[:n]] for a negative [n]. *)
Definition topPodsBy (key : PodStorageMetrics -> Z) (values : list ptr) (hp : Heap)
    (n : Z) : option (list ptr) * Heap :=
  let '(pods, hp1) := fold_left copyPod values ([], hp) in
  let pods := sortDescending (fun p => key (load hp1 p)) pods in
  let n := if n >? Z.of_nat (length pods) then Z.of_nat (length pods) else n in
  if n <? 0 then (None, hp1) else (Some (take (Z.to_nat n) pods), hp1).

Definition totalIOPS (m : PodStorageMetrics) : Z := wrap64 (ReadIOPS m + WriteIOPS m).

Definition totalThroughput (m : PodStorageMetrics) : Z :=
  wrap64 (ReadThroughput m + WriteThroughput m).

(** [GetTopIOPSPods]; [values] is the order in which [range sm.metrics]
    visits the objects, any permutation of the map's values. *)
Definition GetTopIOPSPods_in (values : list ptr) (hp : Heap) (n : Z)
  : option (list ptr) * Heap :=
  topPodsBy totalIOPS values hp n.

Definition GetTopIOPSPods (hp : Heap) (sm : StorageMonitor) (n : Z)
  : option (list ptr) * Heap :=
  GetTopIOPSPods_in (snd <$> map_to_list (metrics sm)) hp n.

Definition GetTopThroughputPods_in (values : list ptr) (hp : Heap) (n : Z)
  : option (list ptr) * Heap :=
  topPodsBy totalThroughput values hp n.

Definition GetTopThroughputPods (hp : Heap) (sm : StorageMonitor) (n : Z)
  : option (list ptr) * Heap :=
  GetTopThroughputPods_in (snd <$> map_to_list (metrics sm)) hp n.

(** The object [collectMetrics] creates for a pod it has not seen. *)
Definition freshMetrics (podName ns : string) : PodStorageMetrics :=
  mkMetrics podName ns 0 0 0 0 0 0 0 0 0 0.

(** The metrics of a pod as they were before a collection: the stored
    object, or the fresh one. *)
Definition previous (hp : Heap) (sm : StorageMonitor) (podName : string)
  : PodStorageMetrics :=
  match metrics sm !! podName with
  | Some p => load hp p
  | None => freshMetrics podName (namespace sm)
  end.

(** Field by field, what a collection at [now] with the data [data] makes
    of the metrics [m] of [podName]: a field is replaced when [data] has
    an entry for the pod in the corresponding table, and kept otherwise. *)
Definition refreshed (now : Z) (data : collected) (podName : string)
    (m : PodStorageMetrics) : PodStorageMetrics :=
  mkMetrics (PodName m) (Namespace m)
    (match ioStatsData data !! podName with
     | Some ioStats => Ebpf.ReadLatencyNs ioStats | None => ReadLatency m end)
    (match ioStatsData data !! podName with
     | Some ioStats => Ebpf.WriteLatencyNs ioStats | None => WriteLatency m end)
    (match iopsData data !! podName with
     | Some iops => index iops "read_iops" | None => ReadIOPS m end)
    (match iopsData data !! podName with
     | Some iops => index iops "write_iops" | None => WriteIOPS m end)
    (match throughputData data !! podName with
     | Some throughput => index throughput "read_throughput_bps"
     | None => ReadThroughput m end)
    (match throughputData data !! podName with
     | Some throughput => index throughput "write_throughput_bps"
     | None => WriteThroughput m end)
    (match queueLatencyData data !! podName with
     | Some queueLatency => queueLatency | None => QueueLatency m end)
    (match diskLatencyData data !! podName with
     | Some diskLatency => diskLatency | None => DiskLatency m end)
    (NetworkLatency m)
    now.

(** [hp'] differs from [hp] at most in the object [p], which holds [v]. *)
Definition modifiedAt (hp : Heap) (p : ptr) (v : PodStorageMetrics) (hp' : Heap) : Prop :=
  length hp' = length hp /\
  load hp' p = v /\
  forall x, x <> p -> load hp' x = load hp x.

(** The options of the package: the fields are unexported, so
    [WithNamespace] and [WithInterval] are the only ones. *)
Definition is_monitor_option (opt : StorageMonitor -> StorageMonitor) : Prop :=
  (exists ns, opt = WithNamespace ns) \/ (exists seconds, opt = WithInterval seconds).

(** What the collector keeps of every object it owns: it is allocated,
    it carries the name it is filed under and the monitor's namespace, and
    its network latency is zero. *)
Definition owned (hp : Heap) (sm : StorageMonitor) : Prop :=
  forall podName p, metrics sm !! podName = Some p ->
    (p < length hp)%nat /\
    PodName (load hp p) = podName /\
    Namespace (load hp p) = namespace sm /\
    NetworkLatency (load hp p) = 0.

End Monitor.

(* ===================================================================== *)
(** * pkg/analyzer *)
(* ===================================================================== *)

Module Analyzer.
Import Monitor.

Definition ReadLatencyThreshold  : Z := 10 * 1000 * 1000.
Definition WriteLatencyThreshold : Z := 20 * 1000 * 1000.
Definition QueueLatencyThreshold : Z := 5 * 1000 * 1000.

Inductive BottleneckType :=
| BottleneckTypeNone
| BottleneckTypeQueue
| BottleneckTypeDisk
| BottleneckTypeNetwork
| BottleneckTypeUnknown.

(** The string value of each constant. *)
Definition BottleneckType_string (b : BottleneckType) : string :=
  match b with
  | BottleneckTypeNone => "none"
  | BottleneckTypeQueue => "queue"
  | BottleneckTypeDisk => "disk"
  | BottleneckTypeNetwork => "network"
  | BottleneckTypeUnknown => "unknown"
  end.

(** [type StorageAnalyzer struct] (the mutex is not modelled: every
    method runs under it, so methods are atomic steps). *)
Record StorageAnalyzer := mkAnalyzer {
  metricsHistory   : gmap string (list ptr);
  maxHistoryPerPod : Z;
  podBottlenecks   : gmap string BottleneckType;
  anomalyDetected  : gmap string bool;
  anomalyThreshold : float
}.

Definition WithMaxHistoryPerPod (max : Z) (sa : StorageAnalyzer) : StorageAnalyzer :=
  if 0 <? max
  then mkAnalyzer (metricsHistory sa) max (podBottlenecks sa)
         (anomalyDetected sa) (anomalyThreshold sa)
  else sa.

Definition WithAnomalyThreshold (threshold : float) (sa : StorageAnalyzer) : StorageAnalyzer :=
  if Float64.gtb threshold 0
  then mkAnalyzer (metricsHistory sa) (maxHistoryPerPod sa) (podBottlenecks sa)
         (anomalyDetected sa) threshold
  else sa.

Definition NewStorageAnalyzer (options : list (StorageAnalyzer -> StorageAnalyzer))
  : StorageAnalyzer :=
  fold_left (fun sa option => option sa) options
    (mkAnalyzer ∅ 100 ∅ ∅ 2%float).

(** [analyzeBottleneck]. *)
Definition analyzeBottleneck (metrics : PodStorageMetrics) : BottleneckType :=
  if (QueueLatency metrics >? QueueLatencyThreshold) &&
     (QueueLatency metrics >? DiskLatency metrics) &&
     (QueueLatency metrics >? NetworkLatency metrics)
  then BottleneckTypeQueue
  else if (DiskLatency metrics >? QueueLatency metrics) &&
          (DiskLatency metrics >? NetworkLatency metrics)
  then BottleneckTypeDisk
  else if (NetworkLatency metrics >? QueueLatency metrics) &&
          (NetworkLatency metrics >? DiskLatency metrics)
  then BottleneckTypeNetwork
  else if (ReadLatency metrics >? ReadLatencyThreshold) ||
          (WriteLatency metrics >? WriteLatencyThreshold)
  then BottleneckTypeUnknown
  else BottleneckTypeNone.


(** ** AddMetrics *)

(** The history of a pod as the slice stored in the map; a missing key
    reads as the nil slice. *)
Definition historyOf (sa : StorageAnalyzer) (podName : string) : list ptr :=
  default [] (metricsHistory sa !! podName).

(** [history[len(history)-1]] of a non-empty slice. *)
Definition latestOf (history : list ptr) : ptr :=
  default 0%nat (last history).

(** First loop of [detectAnomaly]: 64-bit sums of the two latencies. *)
Definition sumLatencies (vals : list PodStorageMetrics) : Z * Z :=
  fold_left (fun '(sumRead, sumWrite) metrics =>
               (wrap64 (sumRead + ReadLatency metrics),
                wrap64 (sumWrite + WriteLatency metrics)))
    vals (0, 0).

(** Second loop of [detectAnomaly]: sums of squared differences. *)
Definition sumSqDiffs (avgRead avgWrite : float) (vals : list PodStorageMetrics)
  : float * float :=
  fold_left (fun '(sumSqDiffRead, sumSqDiffWrite) metrics =>
               let diffRead := (Float64.of_Z (ReadLatency metrics) - avgRead)%float in
               let diffWrite := (Float64.of_Z (WriteLatency metrics) - avgWrite)%float in
               ((sumSqDiffRead + diffRead * diffRead)%float,
                (sumSqDiffWrite + diffWrite * diffWrite)%float))
    vals (0%float, 0%float).

(** [detectAnomaly]. *)
Definition detectAnomaly (hp : Heap) (sa : StorageAnalyzer) (podName : string) : bool :=
  match metricsHistory sa !! podName with
  | None => false
  | Some history =>
      if (length history <? 10)%nat then false
      else
        let vals := load hp <$> history in
        let '(sumRead, sumWrite) := sumLatencies vals in
        let avgRead := (Float64.of_Z sumRead / Float64.of_len (length history))%float in
        let avgWrite := (Float64.of_Z sumWrite / Float64.of_len (length history))%float in
        let '(sumSqDiffRead, sumSqDiffWrite) := sumSqDiffs avgRead avgWrite vals in
        let stdDevRead := (sumSqDiffRead / Float64.of_len (length history))%float in
        let stdDevWrite := (sumSqDiffWrite / Float64.of_len (length history))%float in
        let latest := load hp (latestOf history) in
        let readZScore :=
          ((Float64.of_Z (ReadLatency latest) - avgRead) / stdDevRead)%float in
        let writeZScore :=
          ((Float64.of_Z (WriteLatency latest) - avgWrite) / stdDevWrite)%float in
        if Float64.gtb readZScore (anomalyThreshold sa) ||
           Float64.gtb writeZScore (anomalyThreshold sa)
        then true
        else false
  end.

(** The slice stored for a pod after appending [p]:
    [append(history, p)], then [[1:]] when over the limit. *)
Definition appendBounded (max : Z) (history : list ptr) (p : ptr) : list ptr :=
  let appended := history ++ [p] in
  if Z.of_nat (length appended) >? max then drop 1 appended else appended.

(** Body of the loop of [AddMetrics] for one map entry. *)
Definition addOne (st : Heap * StorageAnalyzer) (kv : string * ptr)
  : Heap * StorageAnalyzer :=
  let '(hp, sa) := st in
  let '(podName, podMetrics) := kv in
  let metricsCopy := load hp podMetrics in
  let '(q, hp1) := new hp metricsCopy in
  let sa1 := mkAnalyzer
               (<[podName := appendBounded (maxHistoryPerPod sa) (historyOf sa podName) q]>
                  (metricsHistory sa))
               (maxHistoryPerPod sa) (podBottlenecks sa) (anomalyDetected sa)
               (anomalyThreshold sa) in
  let sa2 := mkAnalyzer (metricsHistory sa1) (maxHistoryPerPod sa1)
               (<[podName := analyzeBottleneck (load hp1 podMetrics)]> (podBottlenecks sa1))
               (anomalyDetected sa1) (anomalyThreshold sa1) in
  let sa3 := mkAnalyzer (metricsHistory sa2) (maxHistoryPerPod sa2) (podBottlenecks sa2)
               (<[podName := detectAnomaly hp1 sa2 podName]> (anomalyDetected sa2))
               (anomalyThreshold sa2) in
  (hp1, sa3).

(** [AddMetrics].  [metrics] lists the entries of the argument map in the
    order [range] visits them. *)
Definition AddMetrics (metrics : list (string * ptr)) (st : Heap * StorageAnalyzer)
  : Heap * StorageAnalyzer :=
  fold_left addOne metrics st.

(** ** GetBottleneckType, HasAnomalyDetected *)

Definition GetBottleneckType (sa : StorageAnalyzer) (podName : string) : BottleneckType :=
  match podBottlenecks sa !! podName with
  | None => BottleneckTypeUnknown
  | Some bottleneck => bottleneck
  end.

Definition HasAnomalyDetected (sa : StorageAnalyzer) (podName : string) : bool :=
  match anomalyDetected sa !! podName with
  | None => false
  | Some anomaly => anomaly
  end.

(** ** GetTopNSlowPods *)

(** The local [type podLatency struct]. *)
Record podLatency := mkPodLatency {
  pl_podName : string;
  pl_latency : Z;
  pl_metrics : ptr
}.

(** The first loop: the latest snapshot of every pod with a non-empty
    history, in the order [range sa.metricsHistory] visits the map. *)
Definition collectLatencies (hp : Heap) (entries : list (string * list ptr))
  : list podLatency :=
  fold_left (fun latencies '(podName, history) =>
               if (length history =? 0)%nat then latencies
               else
                 let latestMetrics := latestOf history in
                 let totalLatency :=
                   wrap64 (ReadLatency (load hp latestMetrics) +
                           WriteLatency (load hp latestMetrics)) in
                 latencies ++ [mkPodLatency podName totalLatency latestMetrics])
    entries [].

(** The size of a pointer and the largest allocation the run-time
    serves ([maxAlloc] of the Go run-time) on the 64-bit Linux targets
    the program is built for. *)
Definition ptrSize : Z := 8.
Definition maxAlloc : Z := 2 ^ 48.

(** [make([]T, 0, cap)] for elements of [size] bytes ([makeslice] of the
    Go run-time): it panics when the capacity is negative and when
    [size * cap] bytes are more than the run-time allocates at all.  As
    everywhere in this model, memory the run-time is willing to allocate
    is there: the machine running out of it is not modelled. *)
Definition makeslice_panics (size cap : Z) : bool :=
  (cap <? 0) || (maxAlloc <? size * cap).

(** The [less] passed to [sort.Slice]. *)
Definition latencyLess (a b : podLatency) : bool := pl_latency a >? pl_latency b.

Section TopN.
(** [sort.Slice] of the Go library, applied to the slice [latencies]
    with [latencyLess]; it is not part of the repository and is taken
    as given. *)
Variable sort_Slice : (podLatency -> podLatency -> bool) -> list podLatency -> list podLatency.

(** [GetTopNSlowPods] for the visiting order [entries].  [None] is the
    run-time panic of [make([]*monitor.PodStorageMetrics, 0, n)], which
    comes after the sort and before the first element is appended. *)
Definition GetTopNSlowPods_in (entries : list (string * list ptr))
    (hp : Heap) (n : Z) : option (list ptr) :=
  let latencies := sort_Slice latencyLess (collectLatencies hp entries) in
  if makeslice_panics ptrSize n then None
  else Some (pl_metrics <$> take (Z.to_nat n) latencies).

Definition GetTopNSlowPods (hp : Heap) (sa : StorageAnalyzer) (n : Z)
  : option (list ptr) :=
  GetTopNSlowPods_in (map_to_list (metricsHistory sa)) hp n.
End TopN.

(** Insertion sort, the sorting function the examples run: each element
    moves left while it is [less] than its left neighbour, so equal
    elements keep their order. *)
Fixpoint insertLeft {A} (less : A -> A -> bool) (x : A) (sortedRev : list A) : list A :=
  match sortedRev with
  | [] => [x]
  | y :: rest => if less x y then y :: insertLeft less x rest else x :: sortedRev
  end.

Definition insertionSort {A} (less : A -> A -> bool) (l : list A) : list A :=
  rev (fold_left (fun sortedRev x => insertLeft less x sortedRev) l []).

(** What the first loop of [GetTopNSlowPods] appends for one map entry. *)
Definition latestEntry (hp : Heap) (kv : string * list ptr) : option podLatency :=
  if (length (snd kv) =? 0)%nat then None
  else Some (mkPodLatency (fst kv)
               (wrap64 (ReadLatency (load hp (latestOf (snd kv))) +
                        WriteLatency (load hp (latestOf (snd kv)))))
               (latestOf (snd kv))).

(** What the documentation of [sort.Slice] promises: the slice is
    rearranged, and afterwards no element is [less] than an earlier one.
    Nothing is promised about elements that compare equal ("the sort is
    not guaranteed to be stable"). *)
Definition sortSliceContract
    (sort : (podLatency -> podLatency -> bool) -> list podLatency -> list podLatency) : Prop :=
  forall l, Permutation (sort latencyLess l) l /\
            StronglySorted (fun a b => latencyLess b a = false) (sort latencyLess l).

(** A sorting function that reverses the slice before sorting it: equal
    elements come out in the opposite order. *)
Definition reverseTies {A} (less : A -> A -> bool) (l : list A) : list A :=
  insertionSort less (rev l).

(** ** GetLatencyTrend *)

Record TrendResult := mkTrend {
  trend  : string;
  change : float;
  err    : option string
}.

(** The loop [for i := len(history)-1; i >= 0; i--] with [k = i+1]. *)
Fixpoint findBefore (history : list PodStorageMetrics) (startTime : Z) (k : nat)
  : option PodStorageMetrics :=
  match k with
  | O => None
  | S i =>
      match history !! i with
      | Some m => if Timestamp m <? startTime then Some m
                  else findBefore history startTime i
      | None => None
      end
  end.

Definition totalLatencyOf (m : PodStorageMetrics) : Z :=
  wrap64 (ReadLatency m + WriteLatency m).

(** The part of [GetLatencyTrend] after the two snapshots are chosen. *)
Definition trendBetween (oldestInRange latest : PodStorageMetrics) : TrendResult :=
  let oldTotalLatency := totalLatencyOf oldestInRange in
  let newTotalLatency := totalLatencyOf latest in
  if oldTotalLatency =? 0 then
    if newTotalLatency >? 0 then mkTrend "increased" 100%float None
    else mkTrend "stable" 0%float None
  else
    let changePercent :=
      ((Float64.of_Z newTotalLatency - Float64.of_Z oldTotalLatency)
         / Float64.of_Z oldTotalLatency * 100)%float in
    if Float64.gtb changePercent 10%float then mkTrend "increased" changePercent None
    else if PrimFloat.ltb changePercent (-10)%float then mkTrend "decreased" changePercent None
    else mkTrend "stable" changePercent None.

(** [GetLatencyTrend]; [now] is the value of [time.Now()]. *)
Definition GetLatencyTrend (hp : Heap) (sa : StorageAnalyzer) (now : Z)
    (podName : string) (duration : Z) : TrendResult :=
  match metricsHistory sa !! podName with
  | None => mkTrend "unknown" 0%float (Some ("insufficient data for pod " +:+ podName))
  | Some ptrs =>
      if (length ptrs <? 2)%nat
      then mkTrend "unknown" 0%float (Some ("insufficient data for pod " +:+ podName))
      else
        let history := load hp <$> ptrs in
        let startTime := now + wrap_int64 (- duration) in
        let latest := load hp (latestOf ptrs) in
        let oldestInRange :=
          match findBefore history startTime (length history) with
          | Some m => m
          | None => load hp (default 0%nat (head ptrs))
          end in
        trendBetween oldestInRange latest
  end.

(** ** Runs of the analyzer *)

(** The options the package provides, [WithMaxHistoryPerPod] and
    [WithAnomalyThreshold] with any argument.  The parameter of
    [NewStorageAnalyzer] has the type [...func(sa *StorageAnalyzer)], so a
    caller can also pass a function of its own, which reaches the analyzer
    through the exported methods; such functions are outside what the
    results about newly constructed analyzers cover. *)
Definition is_option (option : StorageAnalyzer -> StorageAnalyzer) : Prop :=
  (exists max, option = WithMaxHistoryPerPod max) \/
  (exists threshold, option = WithAnomalyThreshold threshold).

(** A sequence of [AddMetrics] calls, one argument map per call. *)
Definition runAddMetrics (calls : list (list (string * ptr)))
    (st : Heap * StorageAnalyzer) : Heap * StorageAnalyzer :=
  fold_left (fun st metrics => AddMetrics metrics st) calls st.

(** What an analyzer keeps from construction on: a capacity of at least
    one and a positive threshold. *)
Definition configured (sa : StorageAnalyzer) : Prop :=
  1 <= maxHistoryPerPod sa /\ Float64.gtb (anomalyThreshold sa) 0 = true.

(** Every stored history is within the capacity. *)
Definition bounded (sa : StorageAnalyzer) : Prop :=
  forall podName,
    Z.of_nat (length (historyOf sa podName)) <= maxHistoryPerPod sa.

(** The error of [GetLatencyTrend]. *)
Definition insufficientData (podName : string) : TrendResult :=
  mkTrend "unknown" 0%float (Some ("insufficient data for pod " +:+ podName)).

(** ** What a run of calls adds *)

(** The last [n] elements of a list. *)
Definition lastN {A} (n : nat) (l : list A) : list A := drop (length l - n) l.

(** The entries of a sequence of calls in the order [AddMetrics] processes
    them. *)
Definition entriesOf (calls : list (list (string * ptr))) : list (string * ptr) :=
  concat calls.

(** The snapshots a sequence of calls passes for [podName], oldest first,
    as they stand in the heap [hp0] the calls start from. *)
Definition addedFor (hp0 : Heap) (podName : string) (entries : list (string * ptr))
  : list PodStorageMetrics :=
  (fun kv => load hp0 (snd kv)) <$> filter (fun kv => fst kv = podName) entries.

(** Every pointer passed to [AddMetrics] points at an object of [hp0]. *)
Definition allocatedIn (hp0 : Heap) (entries : list (string * ptr)) : Prop :=
  forall kv, kv ∈ entries -> (snd kv < length hp0)%nat.

(** What holds of the analyzer after the entries [entries] have been added,
    starting on the heap [hp0] with an empty analyzer of capacity [cap] and
    threshold [thr]: the heap has only grown, every stored pointer was
    allocated by [AddMetrics], the stored values are the last [cap] that
    were added, and the two analysis maps describe the stored histories. *)
Definition tracks (hp0 : Heap) (cap : Z) (thr : float) (entries : list (string * ptr))
    (st : Heap * StorageAnalyzer) : Prop :=
  (exists extra, fst st = hp0 ++ extra) /\
  maxHistoryPerPod (snd st) = cap /\
  anomalyThreshold (snd st) = thr /\
  (forall podName q, q ∈ historyOf (snd st) podName ->
     (length hp0 <= q < length (fst st))%nat) /\
  (forall podName,
     load (fst st) <$> historyOf (snd st) podName =
     lastN (Z.to_nat cap) (addedFor hp0 podName entries)) /\
  (forall podName,
     podBottlenecks (snd st) !! podName =
     (fun q => analyzeBottleneck (load (fst st) q)) <$> last (historyOf (snd st) podName)) /\
  (forall podName,
     anomalyDetected (snd st) !! podName =
     (fun _ => detectAnomaly (fst st) (snd st) podName) <$> last (historyOf (snd st) podName)).

End Analyzer.

(* ===================================================================== *)
(** * bpf/io_tracer: pairing issue and completion events *)
(* ===================================================================== *)

Module IoTracer.

(** [struct io_event_t]. *)
Record io_event_t := mkEvent {
  ts        : Z;
  pid       : Z;
  tid       : Z;
  io_start  : Z;
  io_end    : Z;
  bytes     : Z;
  comm      : string;
  disk      : string;
  operation : Z;
  io_type   : Z
}.

(** [struct latency_info_t]. *)
Record latency_info_t := mkLatency {
  total_read_ns  : Z;
  total_write_ns : Z;
  count_read     : Z;
  count_write    : Z
}.

(** The zero-initialised [struct latency_info_t zero = {}]. *)
Definition zero_latency : latency_info_t := mkLatency 0 0 0 0.

(** The three maps of the program.  [events] records, in order, the
    records handed to [bpf_perf_event_output]. *)
Record maps := mkMaps {
  requests       : gmap Z io_event_t;
  latency_by_pid : gmap Z latency_info_t;
  events         : list io_event_t
}.

Definition requests_max_entries : Z := 10240.
Definition latency_max_entries : Z := 1024.

(** [bpf_map_update_elem(.., BPF_ANY)] on a hash map: an existing key is
    overwritten; a new key is added unless the map is full. *)
Definition bpf_map_update_elem {V} (max_entries : Z) (m : gmap Z V)
    (key : Z) (value : V) : gmap Z V :=
  if decide (is_Some (m !! key)) then <[key := value]> m
  else if decide (Z.of_nat (size m) < max_entries) then <[key := value]> m
  else m.

(** What a probe reads from its context and from the kernel helpers:
    the request pointer, [bpf_ktime_get_ns()],
    [bpf_get_current_pid_tgid()], [bpf_get_current_comm], the request's
    [cmd_flags] and the probed function's return value. *)
Record probe_ctx := mkCtx {
  rq         : Z;
  ktime      : Z;
  pid_tgid   : Z;
  cur_comm   : string;
  cmd_flags  : Z;
  retval     : Z
}.

(** [REQ_OP_WRITE] of the kernel headers. *)
Definition REQ_OP_WRITE : Z := 1.

Definition set_event (e : io_event_t) (new_end new_bytes : Z) : io_event_t :=
  mkEvent (ts e) (pid e) (tid e) (io_start e) new_end new_bytes
    (comm e) (disk e) (operation e) (io_type e).

(** [update_latency_stats]. *)
Definition update_latency_stats (lat : gmap Z latency_info_t)
    (pid duration operation : Z) : gmap Z latency_info_t :=
  let lat1 :=
    match lat !! pid with
    | Some _ => lat
    | None => bpf_map_update_elem latency_max_entries lat pid zero_latency
    end in
  match lat1 !! pid with
  | None => lat1
  | Some latency =>
      if operation =? 0 then
        <[pid := mkLatency (wrap64 (total_read_ns latency + duration))
                   (total_write_ns latency)
                   (wrap64 (count_read latency + 1))
                   (count_write latency)]> lat1
      else if operation =? 1 then
        <[pid := mkLatency (total_read_ns latency)
                   (wrap64 (total_write_ns latency + duration))
                   (count_read latency)
                   (wrap64 (count_write latency + 1))]> lat1
      else lat1
  end.

(** The event a start probe stores. *)
Definition start_event (ctx : probe_ctx) (op : Z) : io_event_t :=
  mkEvent (ktime ctx) (Z.shiftr (pid_tgid ctx) 32 mod 2 ^ 32)
    (Z.land (pid_tgid ctx) 4294967295) (ktime ctx) 0 0 (cur_comm ctx) "" op 0.

(** [trace_block_rq_issue]. *)
Definition trace_block_rq_issue (ctx : probe_ctx) (st : maps) : Z * maps :=
  let op := if Z.land (cmd_flags ctx) REQ_OP_WRITE =? 0 then 0 else 1 in
  (0, mkMaps (bpf_map_update_elem requests_max_entries (requests st) (rq ctx)
                (start_event ctx op))
        (latency_by_pid st) (events st)).

(** [u64 duration = io_event.io_end - io_event.io_start]. *)
Definition duration_of (e : io_event_t) : Z := wrap64 (io_end e - io_start e).

(** [trace_block_rq_complete]. *)
Definition trace_block_rq_complete (ctx : probe_ctx) (st : maps) : Z * maps :=
  match requests st !! rq ctx with
  | None => (0, st)
  | Some io_eventp =>
      let io_event := set_event io_eventp (ktime ctx) (bytes io_eventp) in
      let duration := duration_of io_event in
      (0, mkMaps (delete (rq ctx) (requests st))
            (update_latency_stats (latency_by_pid st) (pid io_event) duration
               (operation io_event))
            (events st ++ [io_event]))
  end.

(** [trace_vfs_read_entry] ([op = 0]) and [trace_vfs_write_entry]
    ([op = 1]): the key is the calling task. *)
Definition trace_vfs_entry (op : Z) (ctx : probe_ctx) (st : maps) : Z * maps :=
  (0, mkMaps (bpf_map_update_elem requests_max_entries (requests st) (pid_tgid ctx)
                (start_event ctx op))
        (latency_by_pid st) (events st)).

(** [trace_vfs_read_exit] and [trace_vfs_write_exit]. *)
Definition trace_vfs_exit (ctx : probe_ctx) (st : maps) : Z * maps :=
  match requests st !! pid_tgid ctx with
  | None => (0, st)
  | Some io_eventp =>
      let io_event := set_event io_eventp (ktime ctx) (retval ctx) in
      let duration := duration_of io_event in
      (0, mkMaps (delete (pid_tgid ctx) (requests st))
            (update_latency_stats (latency_by_pid st) (pid io_event) duration
               (operation io_event))
            (events st))
  end.

(** The probes of the program as the signals the correlator receives. *)
Inductive probe :=
| BlockRqIssue
| BlockRqComplete
| VfsReadEntry
| VfsReadExit
| VfsWriteEntry
| VfsWriteExit.

Definition fire (p : probe) (ctx : probe_ctx) (st : maps) : Z * maps :=
  match p with
  | BlockRqIssue => trace_block_rq_issue ctx st
  | BlockRqComplete => trace_block_rq_complete ctx st
  | VfsReadEntry => trace_vfs_entry 0 ctx st
  | VfsReadExit => trace_vfs_exit ctx st
  | VfsWriteEntry => trace_vfs_entry 1 ctx st
  | VfsWriteExit => trace_vfs_exit ctx st
  end.

(** A run of the program: the probes fire one after the other. *)
Definition run (signals : list (probe * probe_ctx)) (st : maps) : maps :=
  fold_left (fun st s => snd (fire (fst s) (snd s) st)) signals st.

(** The clock readings of a run never decrease and fit in 64 bits. *)
Fixpoint monotone_from (t : Z) (signals : list (probe * probe_ctx)) : Prop :=
  match signals with
  | [] => True
  | s :: rest => t <= ktime (snd s) < 2 ^ 64 /\ monotone_from (ktime (snd s)) rest
  end.

Definition last_ktime (t : Z) (signals : list (probe * probe_ctx)) : Z :=
  fold_left (fun _ s => ktime (snd s)) signals t.

(** A probe that records a start under [key]. *)
Definition starts (key : Z) (s : probe * probe_ctx) : bool :=
  match fst s with
  | BlockRqIssue => bool_decide (rq (snd s) = key)
  | VfsReadEntry | VfsWriteEntry => bool_decide (pid_tgid (snd s) = key)
  | _ => false
  end.

(** A block completion for [key]. *)
Definition completes (key : Z) (s : probe * probe_ctx) : bool :=
  match fst s with
  | BlockRqComplete => bool_decide (rq (snd s) = key)
  | _ => false
  end.

Definition pending (key : Z) (st : maps) : bool :=
  bool_decide (is_Some (requests st !! key)).

(** The number of records a run emits for completions of [key]. *)
Fixpoint emissions (key : Z) (signals : list (probe * probe_ctx)) (st : maps) : nat :=
  match signals with
  | [] => 0
  | s :: rest =>
      ((if completes key s && pending key st then 1 else 0)
       + emissions key rest (snd (fire (fst s) (snd s) st)))%nat
  end.

(** The number of start signals for [key] in a run. *)
Definition count_starts (key : Z) (signals : list (probe * probe_ctx)) : nat :=
  length (filter (fun s => Is_true (starts key s)) signals).

(** The maps when the program is loaded. *)
Definition initial : maps := mkMaps ∅ ∅ [].

(** A record as a start probe stores it: stamped with its start time,
    with no end time, byte count, device name or I/O type yet. *)
Definition started (e : io_event_t) : Prop :=
  ts e = io_start e /\ io_end e = 0 /\ bytes e = 0 /\ disk e = "" /\ io_type e = 0 /\
  (operation e = 0 \/ operation e = 1) /\
  0 <= pid e < 2 ^ 32 /\ 0 <= tid e < 2 ^ 32.

(** A record as it reaches user space. *)
Definition emitted (e : io_event_t) : Prop :=
  ts e = io_start e /\ 0 <= io_start e <= io_end e /\ io_end e < 2 ^ 64 /\
  bytes e = 0 /\ disk e = "" /\ io_type e = 0 /\
  (operation e = 0 \/ operation e = 1) /\
  0 <= pid e < 2 ^ 32 /\ 0 <= tid e < 2 ^ 32.

(** The statistics of a process after one more operation of [duration]
    nanoseconds has been accounted to it. *)
Definition accounted (l : latency_info_t) (duration operation : Z) : latency_info_t :=
  if operation =? 0
  then mkLatency (wrap64 (total_read_ns l + duration)) (total_write_ns l)
         (wrap64 (count_read l + 1)) (count_write l)
  else mkLatency (total_read_ns l) (wrap64 (total_write_ns l + duration))
         (count_read l) (wrap64 (count_write l + 1)).

End IoTracer.

(* ===================================================================== *)
(** * cmd/main: the collector and the analysis loop side by side *)
(* ===================================================================== *)

Module Main.
Import Monitor Analyzer.

(** What the goroutines of [main] share: the objects, the monitor and
    the analyzer; and the local variable [allMetrics] of the analysis
    goroutine while it is between its two calls.  Every method runs under
    the lock of its component, so the steps are the single calls: a
    collection may come between the two calls of an analysis tick. *)
Record system := mkSystem {
  heap            : Heap;
  storageMonitor  : StorageMonitor;
  storageAnalyzer : StorageAnalyzer;
  allMetrics      : option (gmap string ptr)
}.

(** The order in which a [range] loop visits a map. *)
Abbreviation rangeOrder := (gmap string ptr -> list (string * ptr)).

(** A [range] visits every entry of its map once. *)
Definition visitsAll (order : rangeOrder) : Prop :=
  forall m, order m ≡ₚ map_to_list m.

(** The next call of the analysis goroutine, whose tick is
    [allMetrics := storageMonitor.GetAllMetrics();
     storageAnalyzer.AddMetrics(allMetrics)]:
    the first call when no map is held, the second otherwise.  The call of
    [GetTopNSlowPods] that ends the tick only reads and logs. *)
Definition analysisCall (order : rangeOrder) (s : system) : system :=
  match allMetrics s with
  | None =>
      let '(result, hp1) :=
        GetAllMetrics_in (order (metrics (storageMonitor s))) (heap s) in
      mkSystem hp1 (storageMonitor s) (storageAnalyzer s) (Some result)
  | Some held =>
      let '(hp2, sa) := AddMetrics (order held) (heap s, storageAnalyzer s) in
      mkSystem hp2 (storageMonitor s) sa None
  end.

(** One tick of the collector goroutine. *)
Definition collectionTick (c : cycle) (s : system) : system :=
  let '(hp, sm) := collectCycle (heap s, storageMonitor s) c in
  mkSystem hp sm (storageAnalyzer s) (allMetrics s).

Inductive tick :=
| Collection (c : cycle)
| AnalysisCall (order : rangeOrder).

Definition step (s : system) (t : tick) : system :=
  match t with
  | Collection c => collectionTick c s
  | AnalysisCall order => analysisCall order s
  end.

Definition runTicks (ticks : list tick) (s : system) : system :=
  fold_left step ticks s.

(** The components as [main] builds them from its flags. *)
Definition boot (hp0 : Heap) (ns : string) (seconds : Z) : system :=
  mkSystem hp0
    (NewStorageMonitor [WithNamespace ns; WithInterval seconds])
    (NewStorageAnalyzer [WithMaxHistoryPerPod 100; WithAnomalyThreshold 2%float])
    None.

(** An allocated object that is none of the monitor's. *)
Definition foreign (s : system) (q : ptr) : Prop :=
  (q < length (heap s))%nat /\
  forall k, metrics (storageMonitor s) !! k <> Some q.

(** What the two loops keep between them: the monitor owns its objects,
    the analyzer keeps its configuration and its histories within the
    capacity, and neither a snapshot in a history nor a copy held by the
    analysis goroutine is an object of the monitor. *)
Definition apart (s : system) : Prop :=
  owned (heap s) (storageMonitor s) /\
  (configured (storageAnalyzer s) /\ bounded (storageAnalyzer s) /\
   maxHistoryPerPod (storageAnalyzer s) = 100) /\
  (forall podName q, q ∈ historyOf (storageAnalyzer s) podName -> foreign s q) /\
  (forall held k q, allMetrics s = Some held -> held !! k = Some q -> foreign s q).

End Main.

(* ===================================================================== *)
(** * The specification's wording of the analyses *)
(* ===================================================================== *)

Module Spec.
Import Monitor Analyzer.

(** One millisecond in nanoseconds. *)
Definition ms : Z := 1000000.

Definition threshold_read  : Z := 10 * ms.
Definition threshold_write : Z := 20 * ms.
Definition threshold_queue : Z := 5 * ms.

(** [x] is the strict maximum of the three sub-latencies. *)
Definition strictMax (x y z : Z) : Prop := x > y /\ x > z.

Definition queueRule (s : PodStorageMetrics) : Prop :=
  QueueLatency s > threshold_queue /\
  strictMax (QueueLatency s) (DiskLatency s) (NetworkLatency s).

Definition diskRule (s : PodStorageMetrics) : Prop :=
  strictMax (DiskLatency s) (QueueLatency s) (NetworkLatency s).

Definition networkRule (s : PodStorageMetrics) : Prop :=
  strictMax (NetworkLatency s) (QueueLatency s) (DiskLatency s).

Definition highLatency (s : PodStorageMetrics) : Prop :=
  ReadLatency s > threshold_read \/ WriteLatency s > threshold_write.

(** The classifier as a priority list: a rule applies only when no
    earlier rule does. *)
Inductive classify (s : PodStorageMetrics) : BottleneckType -> Prop :=
| classify_queue :
    queueRule s -> classify s BottleneckTypeQueue
| classify_disk :
    ~ queueRule s -> diskRule s -> classify s BottleneckTypeDisk
| classify_network :
    ~ queueRule s -> ~ diskRule s -> networkRule s ->
    classify s BottleneckTypeNetwork
| classify_unknown :
    ~ queueRule s -> ~ diskRule s -> ~ networkRule s -> highLatency s ->
    classify s BottleneckTypeUnknown
| classify_none :
    ~ queueRule s -> ~ diskRule s -> ~ networkRule s -> ~ highLatency s ->
    classify s BottleneckTypeNone.

(** Two or more of the three sub-latencies are equal and jointly
    maximal. *)
Definition tiedMax (s : PodStorageMetrics) : Prop :=
  (QueueLatency s = DiskLatency s /\ NetworkLatency s <= QueueLatency s) \/
  (QueueLatency s = NetworkLatency s /\ DiskLatency s <= QueueLatency s) \/
  (DiskLatency s = NetworkLatency s /\ QueueLatency s <= DiskLatency s).

(** Combined latency of a snapshot: read latency plus write latency. *)
Definition combinedLatency (m : PodStorageMetrics) : Z :=
  ReadLatency m + WriteLatency m.

(** The latest snapshots of the entities that have one, in the order the
    entities are visited. *)
Definition latestSnapshots (entries : list (string * list ptr)) : list ptr :=
  omap (fun kv => last (snd kv)) entries.

(** [topN(n)]: the latest snapshots in descending order of combined
    latency, by a stable sort, cut to [n]. *)
Definition topN (hp : Heap) (entries : list (string * list ptr)) (n : Z) : list ptr :=
  take (Z.to_nat n)
    (insertionSort
       (fun p q => combinedLatency (load hp p) >? combinedLatency (load hp q))
       (latestSnapshots entries)).

(** ** Correlator *)

(** [duration = end_ts - start_ts]. *)
Definition duration (start_ts end_ts : Z) : Z := end_ts - start_ts.

(** ** Trend *)

(** A snapshot lies within the window when its timestamp is at least
    [now - window]. *)
Definition inWindow (now window : Z) (m : PodStorageMetrics) : bool :=
  now - window <=? Timestamp m.

(** The snapshot the change is measured from: the oldest one within the
    window ([history] lists the snapshots oldest first), or the oldest
    available one when none lies within the window. *)
Definition baseline (history : list PodStorageMetrics) (now window : Z)
  : PodStorageMetrics :=
  match List.find (inWindow now window) history with
  | Some m => m
  | None => default zeroMetrics (head history)
  end.

(** Direction and percentage of the change from [combined_old] to
    [combined_new]. *)
Definition changeBetween (combined_old combined_new : Z) : TrendResult :=
  if combined_old =? 0 then
    if combined_new >? 0 then mkTrend "increased" 100%float None
    else mkTrend "stable" 0%float None
  else
    let change :=
      ((Float64.of_Z combined_new - Float64.of_Z combined_old)
         / Float64.of_Z combined_old * 100)%float in
    if Float64.gtb change 10%float then mkTrend "increased" change None
    else if PrimFloat.ltb change (-10)%float then mkTrend "decreased" change None
    else mkTrend "stable" change None.

(** [trend(history, window)] for a history of at least two snapshots. *)
Definition trendOf (history : list PodStorageMetrics) (now window : Z) : TrendResult :=
  changeBetween (combinedLatency (baseline history now window))
    (combinedLatency (default zeroMetrics (last history))).

(** ** Anomaly detection *)

Definition sumZ (xs : list Z) : Z := fold_left Z.add xs 0.

(** Population mean: the sum divided by the number of values. *)
Definition population_mean (xs : list Z) : float :=
  (Float64.of_Z (sumZ xs) / Float64.of_len (length xs))%float.

(** Sum of the squared differences from [mean]. *)
Definition sumSquares (mean : float) (xs : list Z) : float :=
  fold_left (fun acc x =>
               (acc + (Float64.of_Z x - mean) * (Float64.of_Z x - mean))%float)
    xs 0%float.

(** Population variance: the sum of squared differences from the mean
    divided by the number of values (by [N], not [N - 1]). *)
Definition population_variance (xs : list Z) : float :=
  (sumSquares (population_mean xs) xs / Float64.of_len (length xs))%float.

(** The deviation of the latest value from the mean. *)
Definition deviation (xs : list Z) : float :=
  (Float64.of_Z (default 0%Z (last xs)) - population_mean xs)%float.

(** [z = (latest_value - mean) / variance]. *)
Definition zScore (xs : list Z) : float :=
  (deviation xs / population_variance xs)%float.

(** [detect(history)]. *)
Definition detect (threshold : float) (history : list PodStorageMetrics) : bool :=
  if (length history <? 10)%nat then false
  else Float64.gtb (zScore (ReadLatency <$> history)) threshold ||
       Float64.gtb (zScore (WriteLatency <$> history)) threshold.

End Spec.

(* ===================================================================== *)
(** * Concrete inputs used by the examples *)
(* ===================================================================== *)

Module Examples.
Import Monitor Analyzer Spec.

(** A snapshot of pod [name] with the given read and write latency and
    timestamp, all other fields zero. *)
Definition snapshot (name : string) (read write time : Z) : PodStorageMetrics :=
  mkMetrics name "default" read write 0 0 0 0 0 0 0 time.

(** The snapshot of the specification's own example: every latency is
    1 ms. *)
Definition allOneMs : PodStorageMetrics :=
  mkMetrics "pod" "default" ms ms 0 0 0 0 ms ms ms 0.

(** A heap with one snapshot of pod [a], and three calls that each add
    it again. *)
Definition oneSnapshot : Heap := [snapshot "a" 1 1 0].
Definition threeCalls : list (list (string * ptr)) :=
  [[("a", 0%nat)]; [("a", 0%nat)]; [("a", 0%nat)]].

(** The analyzer after one [AddMetrics] call with the snapshot of [a]. *)
Definition afterOneCall : Heap * StorageAnalyzer :=
AddMetrics [("a", 0%nat)] (oneSnapshot, NewStorageAnalyzer []).

(** Three successive snapshots of pod [a] and one of pod [b], and three
    calls that add them in that order. *)
Definition queueHeap : Heap :=
  [snapshot "a" 1 1 0; snapshot "a" 2 2 1; snapshot "a" 3 3 2; snapshot "b" 9 9 2].
Definition queueCalls : list (list (string * ptr)) :=
  [[("a", 0%nat); ("b", 3%nat)]; [("a", 1%nat)]; [("a", 2%nat)]].

(** A monitor that holds the metrics of three pods. *)
Definition rates (name : string) (readIOPS writeIOPS readThroughput writeThroughput : Z)
  : PodStorageMetrics :=
  mkMetrics name "default" 0 0 readIOPS writeIOPS readThroughput writeThroughput 0 0 0 0.
Definition monitorHeap : Heap :=
  [rates "a" 10 5 100 0; rates "b" 30 1 1 1; rates "c" 20 0 50 60].
Definition monitorOf : StorageMonitor :=
  mkMonitor "default" 10 (<["a" := 0%nat]> (<["b" := 1%nat]> (<["c" := 2%nat]> ∅))).

(** What one collection fetched: pods [a] and [d] are listed, and only
    [a] has statistics. *)
Definition fetched : collected :=
  mkCollected ["a"; "d"]
    (<["a" := Ebpf.mkIOStats 7 8 0 0 0 0 3 4 0 0]> ∅)
    (<["a" := <["read_iops" := 11]> ∅]> ∅)
    (<["a" := <["read_throughput_bps" := 512]> ∅]> ∅)
    (<["a" := 4]> ∅)
    (<["a" := 3]> ∅).

(** Two collections, the second of which fails to list the pods. *)
Definition twoCycles : list cycle :=
  [mkCycle 50 (inl ["a"; "d"]) (inl (ioStatsData fetched)) (inl (iopsData fetched))
     (inl ∅) (inl (diskLatencyData fetched)) (inl (queueLatencyData fetched));
   mkCycle 60 (inr "timeout") (inl ∅) (inl ∅) (inl ∅) (inl ∅) (inl ∅)].

(** Two collections with an analysis tick after each. *)
Definition someTicks : list Main.tick :=
  [Main.Collection (mkCycle 50 (inl ["a"; "d"]) (inl (ioStatsData fetched))
                      (inl (iopsData fetched)) (inl ∅) (inl (diskLatencyData fetched))
                      (inl (queueLatencyData fetched)));
   Main.AnalysisCall map_to_list; Main.AnalysisCall map_to_list;
   Main.Collection (mkCycle 60 (inr "timeout") (inl ∅) (inl ∅) (inl ∅) (inl ∅) (inl ∅));
   Main.AnalysisCall map_to_list; Main.AnalysisCall map_to_list].

(** Two pods with the same combined latency. *)
Definition tieHeap : Heap := [snapshot "a" 2 3 0; snapshot "b" 3 2 0].
Definition tieEntries : list (string * list ptr) :=
  [("a", [0%nat]); ("b", [1%nat])].

(** Pod [a] has read and write latency [2^63] each, pod [b] has 1 and 1. *)
Definition overflowHeap : Heap :=
  [snapshot "a" (2 ^ 63) (2 ^ 63) 0; snapshot "b" 1 1 0].
Definition overflowEntries : list (string * list ptr) :=
  [("a", [0%nat]); ("b", [1%nat])].

(** The specification's ranking example: 5 ms, 30 ms and 12 ms. *)
Definition rankHeap : Heap :=
  [snapshot "p5" (2 * ms) (3 * ms) 0; snapshot "p30" (10 * ms) (20 * ms) 0;
   snapshot "p12" (6 * ms) (6 * ms) 0].
Definition rankCalls : list (list (string * ptr)) :=
  [[("p5", 0%nat); ("p30", 1%nat); ("p12", 2%nat)]].
Definition rankState : Heap * StorageAnalyzer :=
  runAddMetrics rankCalls (rankHeap, NewStorageAnalyzer []).

(** Three snapshots of pod [a] at times 100, 200 and 300, with combined
    latencies 0, 10 and 10; the analyzer after they were added one by
    one. *)
Definition trendHeap : Heap :=
  [snapshot "a" 0 0 100; snapshot "a" 5 5 200; snapshot "a" 5 5 300].
Definition trendState : Heap * StorageAnalyzer :=
  runAddMetrics [[("a", 0%nat)]; [("a", 1%nat)]; [("a", 2%nat)]]
    (trendHeap, NewStorageAnalyzer []).

(** The specification's trend example: 10 ms + 10 ms at time 0 and
    15 ms + 10 ms at 300 s. *)
Definition second : Z := 1000 * ms.
Definition specTrendHeap : Heap :=
  [snapshot "a" (10 * ms) (10 * ms) 0; snapshot "a" (15 * ms) (10 * ms) (300 * second)].
Definition specTrendState : Heap * StorageAnalyzer :=
  runAddMetrics [[("a", 0%nat)]; [("a", 1%nat)]] (specTrendHeap, NewStorageAnalyzer []).

(** The analyzer after the snapshots of [heap], all of pod [a], were added
    one per call. *)
Definition fedWith (heap : Heap) : Heap * StorageAnalyzer :=
  runAddMetrics ((fun i => [("a", i)]) <$> seq 0 (length heap))
    (heap, NewStorageAnalyzer []).

(** Ten snapshots without latency followed by one with a read latency of
    1 ns. *)
Definition spikeHeap : Heap :=
  replicate 10 (snapshot "a" 0 0 0) ++ [snapshot "a" 1 0 0].


(** Ten snapshots with the same latencies. *)
Definition constantHeap (read write : Z) : Heap :=
  replicate 10 (snapshot "a" read write 0).

(** The statistics of one pod: 3000 reads and 2000 writes, 5 MB read and
    3 MB written. *)
Definition podStats : gmap string Ebpf.IOStatsData :=
  <["pod1" := Ebpf.mkIOStats 1500000 2500000 3000 2000 (5 * 1024 * 1024)
                (3 * 1024 * 1024) 500000 1200000 0 0]> ∅.

Definition readEntryAt100 : IoTracer.probe_ctx :=
  IoTracer.mkCtx 0 100 (42 * 2 ^ 32 + 43) "cat" 0 0.
Definition readExitAt180 : IoTracer.probe_ctx :=
  IoTracer.mkCtx 0 180 (42 * 2 ^ 32 + 43) "cat" 0 4096.
(** A request issued at time 100 and completed at time 250. *)
Definition issueAt100 : IoTracer.probe_ctx := IoTracer.mkCtx 7 100 (42 * 2 ^ 32 + 43) "dd" 1 0.
Definition completeAt250 : IoTracer.probe_ctx := IoTracer.mkCtx 7 250 0 "swapper" 0 0.

(** A completion of the same request that reads the clock at 50, before
    the time the request was issued at. *)
Definition completeAt50 : IoTracer.probe_ctx := IoTracer.mkCtx 7 50 0 "swapper" 0 0.

End Examples.

(* ===================================================================== *)
(** * Bottleneck classifier *)
(* ===================================================================== *)

Section Classifier.
Import Monitor Analyzer Spec Examples.

Local Ltac unfold_rules :=
  unfold queueRule, diskRule, networkRule, highLatency, strictMax, tiedMax,
    threshold_queue, threshold_read, threshold_write, ms,
    QueueLatencyThreshold, ReadLatencyThreshold, WriteLatencyThreshold in *.

Local Ltac split_tests :=
  repeat match goal with
    | |- context [(?a >? ?b)] => destruct (Z.gtb_spec a b); simpl
    | H : context [(?a >? ?b)] |- _ => destruct (Z.gtb_spec a b); simpl in H
    end.

Lemma analyzeBottleneck_classify (s : PodStorageMetrics) :
  classify s (analyzeBottleneck s).
Proof.
  unfold analyzeBottleneck; unfold_rules; split_tests;
    first [ apply classify_queue | apply classify_disk
          | apply classify_network | apply classify_unknown
          | apply classify_none ];
    unfold_rules; lia.
Qed.

Lemma classify_functional (s : PodStorageMetrics) (b1 b2 : BottleneckType) :
  classify s b1 -> classify s b2 -> b1 = b2.
Proof.
  intros H1 H2; inversion H1; inversion H2; subst;
    try reflexivity; contradiction.
Qed.

(** C5. For every snapshot the classifier returns exactly the type the
    priority list assigns: [queue] when the queue latency exceeds 5 ms
    and is the strict maximum of the three sub-latencies; else [disk]
    when the disk latency is the strict maximum; else [network] when the
    network latency is; else [unknown] when the read latency exceeds
    10 ms or the write latency exceeds 20 ms; else [none].  The result is
    a function of the snapshot alone. *)
Theorem analyzeBottleneck_priority (s : PodStorageMetrics) (b : BottleneckType) :
  analyzeBottleneck s = b <-> classify s b.
Proof.
  split.
  - intros <-. apply analyzeBottleneck_classify.
  - intros Hb. eapply classify_functional; [apply analyzeBottleneck_classify | exact Hb].
Qed.

(** C2, refuted as stated. With all three sub-latencies tied at 1 ms and
    the read and write latencies below their thresholds the classifier
    returns [none], not [unknown]. *)
Lemma analyzeBottleneck_tie_none :
  tiedMax allOneMs /\ analyzeBottleneck allOneMs = BottleneckTypeNone /\
  analyzeBottleneck allOneMs <> BottleneckTypeUnknown.
Proof.
  split; [| split].
  - left. simpl. lia.
  - reflexivity.
  - discriminate.
Qed.

(** C2, amended. When two or more sub-latencies are equal and jointly
    maximal none of the rules [queue], [disk], [network] fires; the
    classifier returns [unknown] if the read latency exceeds 10 ms or
    the write latency exceeds 20 ms, and [none] otherwise. *)
Theorem analyzeBottleneck_tie (s : PodStorageMetrics) (Htie : tiedMax s) :
  ~ queueRule s /\ ~ diskRule s /\ ~ networkRule s /\
  analyzeBottleneck s =
    (if (ReadLatency s >? threshold_read) || (WriteLatency s >? threshold_write)
     then BottleneckTypeUnknown else BottleneckTypeNone).
Proof.
  unfold analyzeBottleneck; unfold_rules.
  repeat split; try lia.
  split_tests; try reflexivity; lia.
Qed.

Lemma analyzeBottleneck_tie_witness :
  tiedMax allOneMs /\
  (~ queueRule allOneMs /\ ~ diskRule allOneMs /\ ~ networkRule allOneMs /\
   analyzeBottleneck allOneMs =
     (if (ReadLatency allOneMs >? threshold_read) ||
         (WriteLatency allOneMs >? threshold_write)
      then BottleneckTypeUnknown else BottleneckTypeNone)).
Proof.
  assert (H : tiedMax allOneMs) by (left; simpl; lia).
  split; [exact H | apply (analyzeBottleneck_tie allOneMs H)].
Defined.

End Classifier.

(* ===================================================================== *)
(** * Event correlator *)
(* ===================================================================== *)

Section Correlator.
Import IoTracer Examples.

Lemma complete_without_start (ctx : probe_ctx) (st : maps) :
  requests st !! rq ctx = None -> trace_block_rq_complete ctx st = (0, st).
Proof. unfold trace_block_rq_complete. intros ->. reflexivity. Qed.

Lemma complete_with_start (ctx : probe_ctx) (st : maps) (e : io_event_t) :
  requests st !! rq ctx = Some e ->
  trace_block_rq_complete ctx st =
    (0, mkMaps (delete (rq ctx) (requests st))
          (update_latency_stats (latency_by_pid st) (pid e)
             (wrap64 (ktime ctx - io_start e)) (operation e))
          (events st ++ [set_event e (ktime ctx) (bytes e)])).
Proof. unfold trace_block_rq_complete. intros ->. reflexivity. Qed.

Lemma wrap64_small (x : Z) : 0 <= x < 2 ^ 64 -> wrap64 x = x.
Proof. intros H. unfold wrap64. apply Z.mod_small. exact H. Qed.

(** One completion, in any state of the maps.  The duration is the 64-bit
    difference, which is the exact difference whenever the start is not
    after the completion. *)
Lemma complete_step (ctx : probe_ctx) (st : maps) :
  let st' := snd (trace_block_rq_complete ctx st) in
  fst (trace_block_rq_complete ctx st) = 0 /\
  (requests st !! rq ctx = None -> st' = st) /\
  (forall e, requests st !! rq ctx = Some e ->
     let ev := set_event e (ktime ctx) (bytes e) in
     events st' = events st ++ [ev] /\
     io_start ev = io_start e /\ io_end ev = ktime ctx /\
     duration_of ev = wrap64 (ktime ctx - io_start e) /\
     (0 <= io_start e <= ktime ctx /\ ktime ctx < 2 ^ 64 ->
      duration_of ev = ktime ctx - io_start e) /\
     latency_by_pid st' =
       update_latency_stats (latency_by_pid st) (pid e) (duration_of ev) (operation e) /\
     requests st' = delete (rq ctx) (requests st)) /\
  requests st' !! rq ctx = None /\
  (forall ctx', rq ctx' = rq ctx ->
     trace_block_rq_complete ctx' st' = (0, st')).
Proof.
  intros st'. subst st'.
  destruct (requests st !! rq ctx) as [e|] eqn:Hreq.
  - rewrite (complete_with_start _ _ _ Hreq). simpl.
    split; [reflexivity|]. split; [discriminate|].
    split.
    + intros e' [= <-]. unfold duration_of. simpl.
      repeat split; try reflexivity.
      intros [[H0 Hle] Hlt]. apply wrap64_small. lia.
    + split; [apply lookup_delete_eq|].
      intros ctx' Hkey. apply complete_without_start. simpl.
      rewrite Hkey. apply lookup_delete_eq.
  - rewrite (complete_without_start _ _ Hreq). simpl.
    split; [reflexivity|]. split; [reflexivity|].
    split; [intros e [=]|].
    split; [exact Hreq|].
    intros ctx' Hkey. apply complete_without_start. rewrite Hkey. exact Hreq.
Qed.

Lemma pending_update (key k : Z) (m : gmap Z io_event_t) (e : io_event_t) :
  k <> key ->
  bpf_map_update_elem requests_max_entries m k e !! key = m !! key.
Proof.
  intros Hne. unfold bpf_map_update_elem.
  repeat case_decide; try reflexivity; apply lookup_insert_ne; exact Hne.
Qed.

Local Ltac pend_cases :=
  unfold pending; simpl; rewrite ?lookup_delete_eq; simpl;
  repeat match goal with
    | |- context [bool_decide ?P] => destruct (bool_decide P); simpl
    end; try lia.

(** One step: what is emitted for [key] plus what stays pending is paid
    for by a start of [key] or by what was pending. *)
Lemma fire_balance (key : Z) (s : probe * probe_ctx) (st : maps) :
  ((if completes key s && pending key st then 1 else 0)
   + (if pending key (snd (fire (fst s) (snd s) st)) then 1 else 0)
   <= (if starts key s then 1 else 0) + (if pending key st then 1 else 0))%nat.
Proof.
  assert (Hentry : forall op ctx,
    ((if pending key (snd (trace_vfs_entry op ctx st)) then 1 else 0)
     <= (if bool_decide (pid_tgid ctx = key) then 1 else 0)
        + (if pending key st then 1 else 0))%nat).
  { intros op ctx. destruct (decide (pid_tgid ctx = key)) as [Heq|Hne].
    - rewrite (bool_decide_eq_true_2 _ Heq). pend_cases.
    - rewrite (bool_decide_eq_false_2 _ Hne). unfold pending. simpl.
      rewrite pending_update by exact Hne. pend_cases. }
  assert (Hexit : forall ctx,
    ((if pending key (snd (trace_vfs_exit ctx st)) then 1 else 0)
     <= (if pending key st then 1 else 0))%nat).
  { intros ctx. unfold trace_vfs_exit.
    destruct (requests st !! pid_tgid ctx) eqn:Hreq; simpl; [|lia].
    destruct (decide (pid_tgid ctx = key)) as [Heq|Hne].
    - subst key. pend_cases.
    - unfold pending. simpl. rewrite lookup_delete_ne by exact Hne. lia. }
  destruct s as [p ctx]. unfold completes, starts. simpl.
  destruct p; simpl; try (specialize (Hexit ctx); lia);
    try exact (Hentry 0 ctx); try exact (Hentry 1 ctx).
  - destruct (decide (rq ctx = key)) as [Heq|Hne].
    + rewrite (bool_decide_eq_true_2 _ Heq). pend_cases.
    + rewrite (bool_decide_eq_false_2 _ Hne). unfold pending. simpl.
      rewrite pending_update by exact Hne. pend_cases.
  - unfold trace_block_rq_complete.
    destruct (decide (rq ctx = key)) as [Heq|Hne].
    + rewrite (bool_decide_eq_true_2 _ Heq). subst key. unfold pending.
      destruct (requests st !! rq ctx) eqn:Hreq; simpl.
      * rewrite lookup_delete_eq. simpl. lia.
      * rewrite Hreq. simpl. lia.
    + rewrite (bool_decide_eq_false_2 _ Hne). unfold pending.
      destruct (requests st !! rq ctx) eqn:Hreq; simpl.
      * rewrite lookup_delete_ne by exact Hne. lia.
      * lia.
Qed.

(** Over any run, the completions of a key emit at most one record per
    recorded start of that key (plus one if a start was pending when the
    run began). *)
Lemma emissions_at_most_starts (key : Z) (signals : list (probe * probe_ctx)) :
  forall st,
    (emissions key signals st + (if pending key (run signals st) then 1 else 0)
     <= count_starts key signals + (if pending key st then 1 else 0))%nat.
Proof.
  unfold count_starts.
  induction signals as [|s rest IH]; intros st; simpl.
  - lia.
  - specialize (IH (snd (fire (fst s) (snd s) st))).
    pose proof (fire_balance key s st) as Hstep.
    unfold run in *. simpl.
    rewrite filter_cons.
    destruct (starts key s) eqn:Hs; simpl in *.
    + lia.
    + lia.
Qed.

(** With a clock that never runs backwards, every pending start was
    stamped no later than the current reading. *)
Lemma pending_starts_not_after_clock (signals : list (probe * probe_ctx)) :
  forall st t,
    0 <= t ->
    (forall k e, requests st !! k = Some e -> 0 <= io_start e <= t) ->
    monotone_from t signals ->
    forall k e, requests (run signals st) !! k = Some e ->
                0 <= io_start e <= last_ktime t signals.
Proof.
  induction signals as [|[p ctx] rest IH]; intros st t Ht Hinv Hmono k e; simpl.
  - apply Hinv.
  - destruct Hmono as [[Hle Hlt] Hrest]. simpl in *.
    unfold run, last_ktime in *. simpl.
    apply (IH _ (ktime ctx)); [lia| |exact Hrest].
    clear k e. intros k e.
    assert (Hupd : forall key op,
               bpf_map_update_elem requests_max_entries (requests st) key
                 (start_event ctx op) !! k = Some e ->
               0 <= io_start e <= ktime ctx).
    { intros key op. unfold bpf_map_update_elem.
      repeat case_decide;
        try (rewrite lookup_insert; case_decide;
             [intros [= <-]; simpl; lia|]);
        intros Hk; specialize (Hinv _ _ Hk); lia. }
    assert (Hdel : forall key, delete key (requests st) !! k = Some e ->
                               0 <= io_start e <= ktime ctx).
    { intros key Hk. apply lookup_delete_Some in Hk as [_ Hk].
      specialize (Hinv _ _ Hk). lia. }
    destruct p; simpl; unfold trace_block_rq_complete, trace_vfs_exit;
      try apply Hupd;
      match goal with
      | |- context [requests st !! ?key] =>
          destruct (requests st !! key); simpl;
          [apply Hdel | intros Hk; specialize (Hinv _ _ Hk); lia]
      end.
Qed.

Lemma monotone_from_app (t : Z) (signals : list (probe * probe_ctx)) (s : probe * probe_ctx) :
  monotone_from t (signals ++ [s]) ->
  monotone_from t signals /\ last_ktime t signals <= ktime (snd s) < 2 ^ 64.
Proof.
  revert t. induction signals as [|s0 rest IH]; intros t; simpl.
  - intros [Hs _]. split; [exact I | exact Hs].
  - intros [Hs0 Hrest]. destruct (IH _ Hrest) as [Hmono Hlast].
    split; [split; assumption | exact Hlast].
Qed.

Lemma count_starts_complete (key : Z) (signals : list (probe * probe_ctx)) (ctx : probe_ctx) :
  count_starts key (signals ++ [(BlockRqComplete, ctx)]) = count_starts key signals.
Proof.
  unfold count_starts. rewrite filter_app, length_app. simpl. lia.
Qed.

(** C8, amended.  In any state of the maps, a block completion whose key
    has no pending start changes nothing: no record is emitted, no
    statistic is updated, and the probe returns 0.  A completion whose key
    has a pending start [e] emits exactly one record, carrying [e]'s start
    time and the completion time, accounts the 64-bit difference of the
    two, which is [end - start] whenever the start is not after the
    completion, and removes the pending entry, so that a further
    completion for the same key emits nothing.  When the state is reached
    by a run of the probes from the empty maps, the completions of a key
    have emitted at most one record per start recorded for it, and on a
    clock that never ran backwards the duration is [end - start]. *)
Theorem trace_block_rq_complete_correlates (st : maps) (ctx : probe_ctx) :
  let st' := snd (trace_block_rq_complete ctx st) in
  fst (trace_block_rq_complete ctx st) = 0 /\
  (requests st !! rq ctx = None -> st' = st) /\
  (forall e, requests st !! rq ctx = Some e ->
     let ev := set_event e (ktime ctx) (bytes e) in
     events st' = events st ++ [ev] /\
     io_start ev = io_start e /\ io_end ev = ktime ctx /\
     duration_of ev = wrap64 (Spec.duration (io_start e) (ktime ctx)) /\
     (0 <= io_start e <= ktime ctx /\ ktime ctx < 2 ^ 64 ->
      duration_of ev = Spec.duration (io_start e) (ktime ctx)) /\
     latency_by_pid st' =
       update_latency_stats (latency_by_pid st) (pid e) (duration_of ev) (operation e) /\
     requests st' = delete (rq ctx) (requests st)) /\
  requests st' !! rq ctx = None /\
  (forall ctx', rq ctx' = rq ctx -> trace_block_rq_complete ctx' st' = (0, st')) /\
  (forall signals, st = run signals initial ->
     (forall key,
        (emissions key (signals ++ [(BlockRqComplete, ctx)]) initial
         <= count_starts key signals)%nat) /\
     (monotone_from 0 (signals ++ [(BlockRqComplete, ctx)]) ->
      forall e, requests st !! rq ctx = Some e ->
        duration_of (set_event e (ktime ctx) (bytes e))
        = Spec.duration (io_start e) (ktime ctx))).
Proof.
  intros st'.
  destruct (complete_step ctx st) as (Hret & Hnone & Hsome & Hgone & Hagain).
  split; [exact Hret|]. split; [exact Hnone|]. split; [exact Hsome|].
  split; [exact Hgone|]. split; [exact Hagain|].
  intros signals ->. split.
  - intros key.
    pose proof (emissions_at_most_starts key (signals ++ [(BlockRqComplete, ctx)]) initial)
      as Hbound.
    rewrite count_starts_complete in Hbound.
    assert (Hinit : pending key initial = false).
    { unfold pending. simpl. rewrite lookup_empty.
      apply bool_decide_eq_false_2. intros [x Hx]. discriminate. }
    rewrite Hinit in Hbound. lia.
  - intros Hclock e He.
    destruct (monotone_from_app 0 signals _ Hclock) as [Hmono Hlast]. simpl in Hlast.
    assert (Hpending : 0 <= io_start e <= last_ktime 0 signals).
    { assert (Hempty : forall k e0, requests initial !! k = Some e0 -> 0 <= io_start e0 <= 0).
      { intros k e0. simpl. rewrite lookup_empty. discriminate. }
      exact (pending_starts_not_after_clock signals initial 0 (Z.le_refl 0) Hempty Hmono
               (rq ctx) e He). }
    destruct (Hsome e He) as (_ & _ & _ & _ & Hexact & _).
    apply Hexact. lia.
Qed.

Lemma trace_block_rq_complete_correlates_witness :
  let st := run [(BlockRqIssue, issueAt100)] initial in
  monotone_from 0 ([(BlockRqIssue, issueAt100)] ++ [(BlockRqComplete, completeAt250)]) /\
  requests st !! rq completeAt250 = Some (start_event issueAt100 1) /\
  duration_of (set_event (start_event issueAt100 1) (ktime completeAt250) 0) = 150.
Proof.
  intros st.
  assert (H : monotone_from 0
                ([(BlockRqIssue, issueAt100)] ++ [(BlockRqComplete, completeAt250)])).
  { simpl. repeat split; lia. }
  assert (He : requests st !! rq completeAt250 = Some (start_event issueAt100 1))
    by reflexivity.
  split; [exact H|]. split; [exact He|].
  exact (proj2 (proj2 (proj2 (proj2 (proj2 (proj2
                  (trace_block_rq_complete_correlates st completeAt250)))))
                  [(BlockRqIssue, issueAt100)] eq_refl) H _ He).
Defined.

(** C8, refuted as stated.  The request is issued when the clock reads 100
    and the completion reads 50.  The record emitted carries both
    readings, and the duration the program computes and accounts to the
    process is [2^64 - 50], not [end_ts - start_ts = -50]. *)
Lemma trace_block_rq_complete_earlier_completion :
  let st := run [(BlockRqIssue, issueAt100)] initial in
  let st' := snd (trace_block_rq_complete completeAt50 st) in
  io_start <$> requests st !! rq completeAt50 = Some 100 /\
  (fun e => (io_start e, io_end e)) <$> events st' = [(100, 50)] /\
  duration_of <$> events st' = [2 ^ 64 - 50] /\
  (fun e => Spec.duration (io_start e) (io_end e)) <$> events st' = [-50] /\
  latency_by_pid st' !! 42 = Some (mkLatency 0 (2 ^ 64 - 50) 0 1).
Proof. vm_compute. repeat split. Qed.

(** The request issued at 100 and completed at 250 is reported with a
    duration of 150 ns, accounted to process 42 as a write. *)
Lemma trace_block_rq_complete_example :
  let st := run [(BlockRqIssue, issueAt100); (BlockRqComplete, completeAt250)] initial in
  duration_of <$> events st = [150] /\
  latency_by_pid st !! 42 = Some (mkLatency 0 150 0 1) /\
  requests st !! 7 = None.
Proof. vm_compute. repeat split. Qed.

End Correlator.

(* ===================================================================== *)
(** * Bounded history store *)
(* ===================================================================== *)

Section History.
Import Monitor Analyzer Examples.

Lemma option_configured (option : StorageAnalyzer -> StorageAnalyzer) (sa : StorageAnalyzer) :
  is_option option -> configured sa ->
  configured (option sa) /\ metricsHistory (option sa) = metricsHistory sa.
Proof.
  intros [[max ->] | [threshold ->]] [Hcap Hthr].
  - unfold WithMaxHistoryPerPod. destruct (Z.ltb_spec 0 max); simpl.
    + split; [split; [simpl; lia | exact Hthr] | reflexivity].
    + split; [split; assumption | reflexivity].
  - unfold WithAnomalyThreshold.
    destruct (Float64.gtb threshold 0) eqn:Hgt; simpl.
    + split; [split; [exact Hcap | exact Hgt] | reflexivity].
    + split; [split; assumption | reflexivity].
Qed.

Lemma NewStorageAnalyzer_configured (options : list (StorageAnalyzer -> StorageAnalyzer)) :
  Forall is_option options ->
  configured (NewStorageAnalyzer options) /\
  metricsHistory (NewStorageAnalyzer options) = ∅.
Proof.
  unfold NewStorageAnalyzer.
  assert (Hgen : forall sa, Forall is_option options -> configured sa ->
            configured (fold_left (fun sa option => option sa) options sa) /\
            metricsHistory (fold_left (fun sa option => option sa) options sa)
            = metricsHistory sa).
  { induction options as [|o rest IH]; intros sa Hall Hsa; simpl.
    - split; [exact Hsa | reflexivity].
    - inversion Hall as [|? ? Ho Hrest]; subst.
      destruct (option_configured o sa Ho Hsa) as [Hc Hm].
      destruct (IH (o sa) Hrest Hc) as [Hc' Hm'].
      split; [exact Hc' | rewrite Hm'; exact Hm]. }
  intros Hall. apply Hgen; [exact Hall|].
  split; [simpl; lia | reflexivity].
Qed.

Lemma appendBounded_cases (max : Z) (history : list ptr) (q : ptr) :
  1 <= max -> Z.of_nat (length history) <= max ->
  appendBounded max history q =
    (if Z.of_nat (length history) <? max then history ++ [q]
     else drop 1 history ++ [q]) /\
  Z.of_nat (length (appendBounded max history q)) <= max.
Proof.
  intros Hmax Hlen. unfold appendBounded.
  rewrite length_app. simpl.
  destruct (Z.gtb_spec (Z.of_nat (length history + 1)) max) as [Hgt|Hle];
    destruct (Z.ltb_spec (Z.of_nat (length history)) max) as [Hlt|Hge];
    try lia.
  - destruct history as [|p rest]; [simpl in *; lia|].
    simpl. rewrite drop_0. split; [reflexivity|].
    rewrite length_app. simpl in *. lia.
  - split; [reflexivity|]. rewrite length_app. simpl. lia.
Qed.

(** After a snapshot of a pod is added, the pod's bottleneck is the
    classification of that snapshot and its anomaly flag is the detector's
    verdict on the new history. *)
Lemma addOne_analysis (hp : Heap) (sa : StorageAnalyzer) (podName : string) (p : ptr) :
  (p < length hp)%nat ->
  let st' := addOne (hp, sa) (podName, p) in
  GetBottleneckType (snd st') podName = analyzeBottleneck (load hp p) /\
  HasAnomalyDetected (snd st') podName = detectAnomaly (fst st') (snd st') podName.
Proof.
  intros Hp. simpl. unfold GetBottleneckType, HasAnomalyDetected. simpl.
  rewrite !lookup_insert_eq. split.
  - unfold load. rewrite lookup_app_l by exact Hp. reflexivity.
  - reflexivity.
Qed.

Lemma addOne_invariant (st : Heap * StorageAnalyzer) (kv : string * ptr) :
  configured (snd st) -> bounded (snd st) ->
  configured (snd (addOne st kv)) /\ bounded (snd (addOne st kv)) /\
  maxHistoryPerPod (snd (addOne st kv)) = maxHistoryPerPod (snd st).
Proof.
  destruct st as [hp sa], kv as [podName p]. intros [Hcap Hthr] Hb.
  split; [split; [exact Hcap | exact Hthr]|].
  split; [|reflexivity].
  intros other. unfold historyOf at 1. simpl.
  destruct (decide (podName = other)) as [<-|Hne].
  - rewrite lookup_insert_eq. simpl.
    apply appendBounded_cases; [exact Hcap | apply Hb].
  - rewrite lookup_insert_ne by exact Hne. apply Hb.
Qed.

Lemma AddMetrics_invariant (metrics : list (string * ptr)) :
  forall st, configured (snd st) -> bounded (snd st) ->
    configured (snd (AddMetrics metrics st)) /\ bounded (snd (AddMetrics metrics st)) /\
    maxHistoryPerPod (snd (AddMetrics metrics st)) = maxHistoryPerPod (snd st).
Proof.
  unfold AddMetrics.
  induction metrics as [|kv rest IH]; intros st Hc Hb; simpl.
  - auto.
  - destruct (addOne_invariant st kv Hc Hb) as (Hc' & Hb' & Hm').
    destruct (IH _ Hc' Hb') as (Hc'' & Hb'' & Hm'').
    split; [exact Hc''|]. split; [exact Hb''|]. rewrite Hm''. exact Hm'.
Qed.

Lemma runAddMetrics_invariant (calls : list (list (string * ptr))) :
  forall st, configured (snd st) -> bounded (snd st) ->
    configured (snd (runAddMetrics calls st)) /\ bounded (snd (runAddMetrics calls st)) /\
    maxHistoryPerPod (snd (runAddMetrics calls st)) = maxHistoryPerPod (snd st).
Proof.
  unfold runAddMetrics.
  induction calls as [|metrics rest IH]; intros st Hc Hb; simpl.
  - auto.
  - destruct (AddMetrics_invariant metrics st Hc Hb) as (Hc' & Hb' & Hm').
    destruct (IH _ Hc' Hb') as (Hc'' & Hb'' & Hm'').
    split; [exact Hc''|]. split; [exact Hb''|]. rewrite Hm''. exact Hm'.
Qed.

End History.

(* ===================================================================== *)
(** * Latency trend *)
(* ===================================================================== *)

Section Trend.
Import Monitor Analyzer Spec Examples.

Lemma trendBetween_succeeds (old latest : PodStorageMetrics) :
  err (trendBetween old latest) = None /\
  (trend (trendBetween old latest) = "increased"%string \/
   trend (trendBetween old latest) = "decreased"%string \/
   trend (trendBetween old latest) = "stable"%string).
Proof.
  unfold trendBetween.
  repeat match goal with
    | |- context [if ?c then _ else _] => destruct c
    end; simpl; auto.
Qed.

Lemma GetLatencyTrend_enough (hp : Heap) (sa : StorageAnalyzer) (now : Z)
    (podName : string) (duration : Z) :
  (2 <= length (historyOf sa podName))%nat ->
  err (GetLatencyTrend hp sa now podName duration) = None /\
  (trend (GetLatencyTrend hp sa now podName duration) = "increased"%string \/
   trend (GetLatencyTrend hp sa now podName duration) = "decreased"%string \/
   trend (GetLatencyTrend hp sa now podName duration) = "stable"%string).
Proof.
  unfold GetLatencyTrend, historyOf.
  destruct (metricsHistory sa !! podName) as [ptrs|]; simpl; [|lia].
  intros Hlen. destruct (Nat.ltb_spec (length ptrs) 2); [lia|].
  apply trendBetween_succeeds.
Qed.

(** C9. For a pod whose stored history has fewer than two entries
    (a pod never seen has none) the trend query returns the error
    "insufficient data for pod ..." with the trend [unknown] and change
    0.  The result differs from every successful result: a successful
    result carries no error and one of the trends [increased],
    [decreased], [stable], and is returned exactly when the history has
    at least two entries. *)
Theorem GetLatencyTrend_insufficient_data (hp : Heap) (sa : StorageAnalyzer)
    (now : Z) (podName : string) (duration : Z)
    (Hshort : (length (historyOf sa podName) < 2)%nat) :
  GetLatencyTrend hp sa now podName duration = insufficientData podName /\
  err (GetLatencyTrend hp sa now podName duration) <> None /\
  trend (GetLatencyTrend hp sa now podName duration) <> "stable"%string /\
  (forall hp' sa' now' podName' duration',
     err (GetLatencyTrend hp' sa' now' podName' duration') = None <->
     (2 <= length (historyOf sa' podName'))%nat).
Proof.
  assert (Herr : GetLatencyTrend hp sa now podName duration = insufficientData podName).
  { revert Hshort. unfold GetLatencyTrend, historyOf.
    destruct (metricsHistory sa !! podName) as [ptrs|]; simpl; [|reflexivity].
    intros Hlen. destruct (Nat.ltb_spec (length ptrs) 2); [reflexivity|lia]. }
  rewrite Herr. simpl.
  split; [reflexivity|]. split; [discriminate|]. split; [discriminate|].
  intros hp' sa' now' podName' duration'. split.
  - intros Hnone.
    destruct (Nat.le_gt_cases 2 (length (historyOf sa' podName'))) as [Hge|Hlt];
      [exact Hge|].
    revert Hnone Hlt. unfold GetLatencyTrend, historyOf.
    destruct (metricsHistory sa' !! podName') as [ptrs|]; simpl; [|discriminate].
    destruct (Nat.ltb_spec (length ptrs) 2); simpl; [discriminate|lia].
  - intros Hge. apply GetLatencyTrend_enough. exact Hge.
Qed.

Lemma GetLatencyTrend_insufficient_data_witness :
  (length (historyOf (NewStorageAnalyzer []) "a") < 2)%nat /\
  GetLatencyTrend oneSnapshot (NewStorageAnalyzer []) 0 "a" 300 = insufficientData "a".
Proof.
  assert (H : (length (historyOf (NewStorageAnalyzer []) "a") < 2)%nat).
  { vm_compute. lia. }
  split; [exact H|].
  exact (proj1 (GetLatencyTrend_insufficient_data oneSnapshot (NewStorageAnalyzer [])
                  0 "a" 300 H)).
Defined.

(** The loop of [GetLatencyTrend] stops at the newest snapshot that is
    strictly older than [startTime]. *)
Lemma findBefore_newest_before (history : list PodStorageMetrics) (startTime : Z) (k : nat) :
  (k <= length history)%nat ->
  match findBefore history startTime k with
  | Some m =>
      exists i, (i < k)%nat /\ history !! i = Some m /\ Timestamp m < startTime /\
        forall j m', (i < j < k)%nat -> history !! j = Some m' -> startTime <= Timestamp m'
  | None =>
      forall j m', (j < k)%nat -> history !! j = Some m' -> startTime <= Timestamp m'
  end.
Proof.
  induction k as [|i IH]; intros Hk; simpl.
  - intros j m' Hj. lia.
  - destruct (lookup_lt_is_Some_2 history i ltac:(lia)) as [m Hm]. rewrite Hm.
    destruct (Z.ltb_spec (Timestamp m) startTime) as [Hlt|Hge].
    + exists i. split; [lia|]. split; [exact Hm|]. split; [exact Hlt|].
      intros j m' Hj. lia.
    + specialize (IH ltac:(lia)).
      destruct (findBefore history startTime i) as [m0|].
      * destruct IH as (i0 & Hi0 & Hm0 & Hlt0 & Hafter).
        exists i0. split; [lia|]. split; [exact Hm0|]. split; [exact Hlt0|].
        intros j m' Hj Hm'. destruct (decide (j = i)) as [->|Hne].
        -- rewrite Hm in Hm'. injection Hm' as <-. exact Hge.
        -- apply (Hafter j m'); [lia | exact Hm'].
      * intros j m' Hj Hm'. destruct (decide (j = i)) as [->|Hne].
        -- rewrite Hm in Hm'. injection Hm' as <-. exact Hge.
        -- apply (IH j m'); [lia | exact Hm'].
Qed.

(** A snapshot whose two latencies add up within 64 bits. *)
Lemma totalLatencyOf_exact (m : PodStorageMetrics) :
  0 <= ReadLatency m -> 0 <= WriteLatency m ->
  ReadLatency m + WriteLatency m < 2 ^ 64 ->
  totalLatencyOf m = combinedLatency m.
Proof.
  intros Hr Hw Hsum. unfold totalLatencyOf, combinedLatency, wrap64.
  apply Z.mod_small. lia.
Qed.

Lemma trendBetween_changeBetween (old latest : PodStorageMetrics) :
  trendBetween old latest = changeBetween (totalLatencyOf old) (totalLatencyOf latest).
Proof. reflexivity. Qed.

(** X24. When every stored snapshot lies within the window (and the
    combined latencies fit in 64 bits) the code measures the change from
    the oldest snapshot to the latest: its result is the trend as the
    specification words it. *)
Lemma GetLatencyTrend_all_in_window (hp : Heap) (sa : StorageAnalyzer) (now : Z)
    (podName : string) (window : Z) (ptrs : list ptr) :
  metricsHistory sa !! podName = Some ptrs ->
  (2 <= length ptrs)%nat ->
  - 2 ^ 63 < window < 2 ^ 63 ->
  (forall m, m ∈ load hp <$> ptrs ->
     now - window <= Timestamp m /\ totalLatencyOf m = combinedLatency m) ->
  GetLatencyTrend hp sa now podName window = trendOf (load hp <$> ptrs) now window.
Proof.
  intros Hlookup Hlen Hwindow Hall.
  unfold GetLatencyTrend. rewrite Hlookup.
  destruct (Nat.ltb_spec (length ptrs) 2) as [|_]; [lia|].
  assert (Hstart : now + wrap_int64 (- window) = now - window).
  { unfold wrap_int64.
    rewrite Z.mod_small by lia. lia. }
  rewrite Hstart.
  pose proof (findBefore_newest_before (load hp <$> ptrs) (now - window)
                (length (load hp <$> ptrs)) (Nat.le_refl _)) as Hfind.
  destruct (findBefore (load hp <$> ptrs) (now - window) (length (load hp <$> ptrs)))
    as [m|].
  - destruct Hfind as (i & _ & Hi & Hlt & _).
    apply list_elem_of_lookup_2 in Hi. destruct (Hall m Hi) as [Hge _]. lia.
  - clear Hfind. rewrite trendBetween_changeBetween. unfold trendOf, baseline.
    destruct ptrs as [|p0 rest]; [simpl in Hlen; lia|].
    assert (Hhead : inWindow now window (load hp p0) = true).
    { unfold inWindow. apply Z.leb_le. apply Hall. rewrite fmap_cons.
      apply elem_of_cons. left. reflexivity. }
    rewrite fmap_cons. simpl List.find. rewrite Hhead. simpl head.
    assert (Hlast : last (load hp p0 :: (load hp <$> rest))
                    = Some (load hp (latestOf (p0 :: rest)))).
    { rewrite <- fmap_cons, fmap_last. unfold latestOf.
      destruct (last (p0 :: rest)) as [p|] eqn:Hl; [reflexivity|].
      apply last_None in Hl. discriminate. }
    rewrite Hlast. simpl default.
    f_equal.
    + apply Hall. rewrite fmap_cons. apply elem_of_cons. left. reflexivity.
    + apply Hall. apply last_Some_elem_of. rewrite <- Hlast.
      rewrite fmap_cons. reflexivity.
Qed.

(** The specification's example: 20 ms at time 0, 25 ms at 300 s, a window
    of 300 s read at 300 s: an increase of 25 percent. *)
Lemma GetLatencyTrend_spec_example :
  GetLatencyTrend (fst specTrendState) (snd specTrendState) (300 * second) "a" (300 * second)
  = mkTrend "increased" 25%float None.
Proof. vm_compute. reflexivity. Qed.

(** C1, at the failing input.  The history of pod [a] holds snapshots at
    times 100, 200 and 300 with combined latencies 0, 10 and 10; the trend
    is asked at time 350 for a window of 200, so the window starts at 150.
    The oldest snapshot within the window is the one at 200, from which
    the change to the latest is 0: [stable].  The code measures from the
    snapshot at 100, which is outside the window, and answers
    [increased], 100. *)
Theorem GetLatencyTrend_baseline_outside_window :
  let hp := fst trendState in
  let sa := snd trendState in
  let history := load hp <$> historyOf sa "a" in
  Timestamp <$> history = [100; 200; 300] /\
  Timestamp (baseline history 350 200) = 200 /\
  trendOf history 350 200 = mkTrend "stable" 0%float None /\
  findBefore history (350 - 200) (length history) = Some (snapshot "a" 0 0 100) /\
  GetLatencyTrend hp sa 350 "a" 200 = mkTrend "increased" 100%float None.
Proof. vm_compute. repeat split. Qed.

End Trend.

(* ===================================================================== *)
(** * Reads and aliasing *)
(* ===================================================================== *)

Section Aliasing.
Import Monitor Analyzer Examples.

Lemma load_app_l (hp extra : Heap) (p : ptr) :
  (p < length hp)%nat -> load (hp ++ extra) p = load hp p.
Proof. intros Hp. unfold load. rewrite lookup_app_l by exact Hp. reflexivity. Qed.

Lemma load_store_ne (hp : Heap) (p q : ptr) (v : PodStorageMetrics) :
  p <> q -> load (store hp q v) p = load hp p.
Proof.
  intros Hne. unfold load, store.
  rewrite list_lookup_insert_ne by (intros Heq; apply Hne; symmetry; exact Heq).
  reflexivity.
Qed.

Lemma load_store_eq (hp : Heap) (q : ptr) (v : PodStorageMetrics) :
  (q < length hp)%nat -> load (store hp q v) q = v.
Proof.
  intros Hq. unfold load, store.
  rewrite list_lookup_insert_eq by exact Hq. reflexivity.
Qed.

(** The loop of [GetAllMetrics]: every entry gets a cell of its own past
    the end of the heap it started from, holding the value the entry's
    pointer had. *)
Lemma copyEntries_fresh (entries : list (string * ptr)) (hp0 : Heap) :
  (forall kv, kv ∈ entries -> (snd kv < length hp0)%nat) ->
  forall (res : gmap string ptr) (extra : Heap),
    let out := fold_left copyEntry entries (res, hp0 ++ extra) in
    snd out = hp0 ++ extra ++ ((fun kv => load hp0 (snd kv)) <$> entries) /\
    (forall k q, fst out !! k = Some q ->
       res !! k = Some q \/
       ((length (hp0 ++ extra) <= q)%nat /\
        exists p, (k, p) ∈ entries /\ load (snd out) q = load hp0 p)) /\
    (forall k, is_Some (fst out !! k) <-> is_Some (res !! k) \/ k ∈ entries.*1).
Proof.
  induction entries as [|[k0 p0] rest IH]; intros Halloc res extra; simpl.
  - rewrite app_nil_r. split; [reflexivity|]. split; [auto|].
    intros k. rewrite elem_of_nil. tauto.
  - assert (Hp0 : (p0 < length hp0)%nat).
    { apply (Halloc (k0, p0)). apply elem_of_cons. left. reflexivity. }
    rewrite (load_app_l hp0 extra p0 Hp0).
    rewrite <- (app_assoc hp0 extra).
    specialize (IH (fun kv H => Halloc kv (proj2 (elem_of_cons rest kv (k0, p0)) (or_intror H)))
                  (<[k0 := length (hp0 ++ extra)]> res) (extra ++ [load hp0 p0])).
    simpl in IH. destruct IH as (Hheap & Hfresh & Hdom).
    split; [rewrite Hheap, <- (app_assoc extra); reflexivity|].
    split.
    + intros k q Hk. destruct (Hfresh k q Hk) as [Hres | (Hge & p & Hin & Hval)].
      * destruct (decide (k0 = k)) as [<-|Hne].
        -- rewrite lookup_insert_eq in Hres. injection Hres as <-.
           right. split; [lia|]. exists p0.
           split; [apply elem_of_cons; left; reflexivity|].
           rewrite Hheap. rewrite (app_assoc hp0).
           unfold load at 1.
           rewrite lookup_app_l by (rewrite !length_app; simpl; lia).
           rewrite (app_assoc hp0 extra).
           rewrite lookup_app_r by lia. rewrite Nat.sub_diag. reflexivity.
        -- rewrite lookup_insert_ne in Hres by exact Hne. left. exact Hres.
      * right. split.
        -- rewrite !length_app in *. simpl in *. lia.
        -- exists p. split; [apply elem_of_cons; right; exact Hin | exact Hval].
    + intros k. rewrite Hdom. rewrite elem_of_cons.
      destruct (decide (k0 = k)) as [<-|Hne].
      * rewrite lookup_insert_eq. split; [intros _; right; left; reflexivity|].
        intros _. left. eauto.
      * rewrite lookup_insert_ne by exact Hne. split.
        -- intros [H|H]; [left; exact H | right; right; exact H].
        -- intros [H|[H|H]]; [left; exact H | congruence | right; exact H].
Qed.

(** X23. [GetAllMetrics] returns copies: the result has the keys of the
    monitor's map, every returned pointer is a cell allocated by the call
    and holds the stored value, and a write through a returned pointer
    leaves every cell that existed before the call, hence everything the
    monitor stores, as it was. *)
Lemma GetAllMetrics_returns_copies (hp : Heap) (sm : StorageMonitor) :
  (forall k p, metrics sm !! k = Some p -> (p < length hp)%nat) ->
  let result := fst (GetAllMetrics hp sm) in
  let hp' := snd (GetAllMetrics hp sm) in
  (forall k, is_Some (result !! k) <-> is_Some (metrics sm !! k)) /\
  (forall k q, result !! k = Some q ->
     (length hp <= q)%nat /\
     exists p, metrics sm !! k = Some p /\ p <> q /\ load hp' q = load hp p) /\
  (forall p, (p < length hp)%nat -> load hp' p = load hp p) /\
  (forall k q v, result !! k = Some q ->
     forall p, (p < length hp)%nat -> load (store hp' q v) p = load hp p).
Proof.
  intros Halloc result hp'. subst result hp'.
  unfold GetAllMetrics, GetAllMetrics_in.
  assert (Hin : forall kv, kv ∈ map_to_list (metrics sm) -> (snd kv < length hp)%nat).
  { intros [k p] Hkv. apply elem_of_map_to_list in Hkv. simpl. eapply Halloc, Hkv. }
  pose proof (copyEntries_fresh (map_to_list (metrics sm)) hp Hin ∅ []) as H.
  rewrite app_nil_r in H. simpl in H. destruct H as (Hheap & Hfresh & Hdom).
  assert (Hold : forall p, (p < length hp)%nat ->
            load (snd (fold_left copyEntry (map_to_list (metrics sm)) (∅, hp))) p
            = load hp p).
  { intros p Hp. rewrite Hheap. apply load_app_l. exact Hp. }
  assert (Hres : forall k q,
            fst (fold_left copyEntry (map_to_list (metrics sm)) (∅, hp)) !! k = Some q ->
            (length hp <= q)%nat /\
            exists p, metrics sm !! k = Some p /\ p <> q /\
              load (snd (fold_left copyEntry (map_to_list (metrics sm)) (∅, hp))) q
              = load hp p).
  { intros k q Hk. destruct (Hfresh k q Hk) as [Hempty | (Hge & p & Hp & Hval)].
    - rewrite lookup_empty in Hempty. discriminate.
    - split; [exact Hge|]. exists p. apply elem_of_map_to_list in Hp.
      split; [exact Hp|]. split; [|exact Hval].
      specialize (Halloc _ _ Hp). lia. }
  split.
  - intros k. rewrite Hdom. rewrite lookup_empty. split.
    + intros [[x [=]] | Hk]. apply list_elem_of_fmap in Hk as [[k' p] [-> Hkp]].
      apply elem_of_map_to_list in Hkp. simpl. eauto.
    + intros [p Hp]. right. apply list_elem_of_fmap. exists (k, p).
      split; [reflexivity|]. apply elem_of_map_to_list. exact Hp.
  - split; [exact Hres|]. split; [exact Hold|].
    intros k q v Hk p Hp. destruct (Hres k q Hk) as [Hge _].
    rewrite load_store_ne by lia. apply Hold. exact Hp.
Qed.

End Aliasing.

(* ===================================================================== *)
(** * Slow-pod ranking *)
(* ===================================================================== *)

Section InsertionSort.
Import Monitor Analyzer.
Context {A : Type} (key : A -> Z).

(** A [less] that compares keys, larger key first. *)
Let less (a b : A) : bool := key a >? key b.

Lemma insertLeft_Permutation (x : A) (l : list A) :
  Permutation (insertLeft less x l) (x :: l).
Proof.
  induction l as [|y rest IH]; simpl.
  - reflexivity.
  - destruct (less x y).
    + rewrite IH. apply perm_swap.
    + reflexivity.
Qed.

Lemma insertionSort_Permutation (l : list A) :
  Permutation (insertionSort less l) l.
Proof.
  unfold insertionSort. rewrite <- Permutation_rev.
  assert (Hgen : forall acc,
            Permutation (fold_left (fun sortedRev x => insertLeft less x sortedRev) l acc)
                        (l ++ acc)).
  { induction l as [|x rest IH]; intros acc; simpl.
    - reflexivity.
    - rewrite IH. rewrite insertLeft_Permutation.
      symmetry. apply Permutation_middle. }
  rewrite Hgen. rewrite app_nil_r. reflexivity.
Qed.

(** The reversed prefix built by the sort: keys never decrease along it. *)
Lemma insertLeft_sorted (x : A) (l : list A) :
  StronglySorted (fun a b => key a <= key b) l ->
  StronglySorted (fun a b => key a <= key b) (insertLeft less x l).
Proof.
  induction l as [|y rest IH]; intros Hs; simpl.
  - repeat constructor.
  - apply StronglySorted_inv in Hs as [Hrest Hy].
    unfold less at 1. destruct (Z.gtb_spec (key x) (key y)) as [Hgt|Hle].
    + constructor; [apply IH; exact Hrest|].
      rewrite Forall_forall. intros z Hz.
      rewrite (insertLeft_Permutation x rest) in Hz.
      apply elem_of_cons in Hz as [->|Hz]; [lia|].
      rewrite Forall_forall in Hy. apply Hy. exact Hz.
    + constructor; [constructor; assumption|].
      constructor; [exact Hle|].
      rewrite Forall_forall in *. intros z Hz. specialize (Hy z Hz). lia.
Qed.

Lemma StronglySorted_rev_flip (R : A -> A -> Prop) (l : list A) :
  StronglySorted R l -> StronglySorted (fun a b => R b a) (rev l).
Proof.
  induction 1 as [|x l Hs IH Hall]; simpl.
  - constructor.
  - apply StronglySorted_app_2; [| exact IH | repeat constructor].
    intros a b Ha Hb. apply list_elem_of_singleton in Hb as ->.
    rewrite Forall_forall in Hall. apply Hall.
    apply list_elem_of_In. apply in_rev. apply list_elem_of_In. exact Ha.
Qed.

Lemma insertionSort_sorted (l : list A) :
  StronglySorted (fun a b => key b <= key a) (insertionSort less l).
Proof.
  unfold insertionSort.
  apply (StronglySorted_rev_flip (fun a b => key a <= key b)).
  assert (Hgen : forall acc,
            StronglySorted (fun a b => key a <= key b) acc ->
            StronglySorted (fun a b => key a <= key b)
              (fold_left (fun sortedRev x => insertLeft less x sortedRev) l acc)).
  { induction l as [|x rest IH]; intros acc Hacc; simpl.
    - exact Hacc.
    - apply IH. apply insertLeft_sorted. exact Hacc. }
  apply Hgen. constructor.
Qed.

End InsertionSort.

Section Ranking.
Import Monitor Analyzer Spec Examples.

Lemma latencyLess_false (a b : podLatency) :
  latencyLess b a = false <-> pl_latency b <= pl_latency a.
Proof. unfold latencyLess. destruct (Z.gtb_spec (pl_latency b) (pl_latency a)); split; intros; try lia; try discriminate; reflexivity. Qed.

Lemma StronglySorted_weaken {A} (R R' : A -> A -> Prop) (l : list A) :
  (forall a b, R a b -> R' a b) -> StronglySorted R l -> StronglySorted R' l.
Proof.
  intros Himpl. induction 1 as [|x rest Hs IH Hall]; constructor; [exact IH|].
  eapply Forall_impl; [exact Hall|]. intros b. apply Himpl.
Qed.

Lemma insertionSort_contract : sortSliceContract (@insertionSort podLatency).
Proof.
  intros l. split.
  - apply (insertionSort_Permutation pl_latency).
  - eapply StronglySorted_weaken; [|apply (insertionSort_sorted pl_latency l)].
    intros a b Hab. apply latencyLess_false. exact Hab.
Qed.

Lemma reverseTies_contract : sortSliceContract (@reverseTies podLatency).
Proof.
  intros l. unfold reverseTies.
  destruct (insertionSort_contract (rev l)) as [Hperm Hsorted].
  split; [|exact Hsorted].
  rewrite Hperm. symmetry. apply Permutation_rev.
Qed.

Lemma collectLatencies_omap (hp : Heap) (entries : list (string * list ptr)) :
  collectLatencies hp entries = omap (latestEntry hp) entries.
Proof.
  unfold collectLatencies.
  assert (Hgen : forall acc,
            fold_left
              (fun latencies '(podName, history) =>
                 if (length history =? 0)%nat then latencies
                 else
                   let latestMetrics := latestOf history in
                   let totalLatency :=
                     wrap64 (ReadLatency (load hp latestMetrics) +
                             WriteLatency (load hp latestMetrics)) in
                   latencies ++ [mkPodLatency podName totalLatency latestMetrics])
              entries acc
            = acc ++ omap (latestEntry hp) entries).
  { induction entries as [|[podName history] rest IH]; intros acc; simpl.
    - rewrite app_nil_r. reflexivity.
    - rewrite IH. unfold latestEntry at 2. simpl.
      destruct (length history =? 0)%nat; simpl; [reflexivity|].
      rewrite <- app_assoc. reflexivity. }
  apply Hgen.
Qed.

(** Every element collected for the ranking points at the last element of
    a stored history and carries the 64-bit sum of its two latencies. *)
Lemma latestEntry_stored (hp : Heap) (sa : StorageAnalyzer) (a : podLatency) :
  a ∈ omap (latestEntry hp) (map_to_list (metricsHistory sa)) ->
  exists history,
    metricsHistory sa !! pl_podName a = Some history /\
    last history = Some (pl_metrics a) /\
    pl_latency a = totalLatencyOf (load hp (pl_metrics a)).
Proof.
  intros Ha.
  apply list_elem_of_omap in Ha as ([podName history] & Hkv & Hlatest).
  apply elem_of_map_to_list in Hkv. unfold latestEntry in Hlatest. simpl in Hlatest.
  destruct history as [|p0 rest]; [discriminate|]. simpl in Hlatest.
  injection Hlatest as <-. simpl. exists (p0 :: rest).
  split; [exact Hkv|]. unfold latestOf, totalLatencyOf.
  destruct (last (p0 :: rest)) as [p|] eqn:Hlast.
  - split; reflexivity.
  - apply last_None in Hlast. discriminate.
Qed.

Lemma makeslice_returns (n : Z) :
  0 <= n /\ ptrSize * n <= maxAlloc -> makeslice_panics ptrSize n = false.
Proof.
  intros [Hn Hcap]. unfold makeslice_panics.
  destruct (Z.ltb_spec n 0); [lia|].
  destruct (Z.ltb_spec maxAlloc (ptrSize * n)); [lia|reflexivity].
Qed.

Lemma makeslice_panics_outside (n : Z) :
  n < 0 \/ maxAlloc < ptrSize * n -> makeslice_panics ptrSize n = true.
Proof.
  intros Hn. unfold makeslice_panics.
  destruct (Z.ltb_spec n 0); [reflexivity|].
  destruct (Z.ltb_spec maxAlloc (ptrSize * n)); [reflexivity|lia].
Qed.

Variable sort_Slice :
  (podLatency -> podLatency -> bool) -> list podLatency -> list podLatency.
Hypothesis sort_Slice_contract : sortSliceContract sort_Slice.

Lemma GetTopNSlowPods_in_panics (entries : list (string * list ptr)) (hp : Heap) (n : Z) :
  n < 0 \/ maxAlloc < ptrSize * n -> GetTopNSlowPods_in sort_Slice entries hp n = None.
Proof.
  intros Hn. unfold GetTopNSlowPods_in. rewrite makeslice_panics_outside by exact Hn.
  reflexivity.
Qed.

(** C4, amended. For every analyzer state, every order in which the
    history map is visited and every [n >= 0] for which [n] pointers are
    within what the run-time allocates ([8 * n <= 2^48]), the ranking
    returns the first [n] elements (all of them when there are fewer) of
    an arrangement of the latest snapshots of the pods with a non-empty
    history, one per pod, in which the 64-bit sum of read and write
    latency never increases.  The order among pods with equal sums is
    whatever [sort.Slice] leaves.  For every other [n], negative or over
    that limit, the call panics, whatever the histories are. *)
Theorem GetTopNSlowPods_ranking (hp : Heap) (sa : StorageAnalyzer)
    (entries : list (string * list ptr)) (n : Z)
    (Hentries : Permutation entries (map_to_list (metricsHistory sa)))
    (Hn : 0 <= n) (Hcap : ptrSize * n <= maxAlloc) :
  (exists ranked : list podLatency,
    Permutation ranked (omap (latestEntry hp) (map_to_list (metricsHistory sa))) /\
    StronglySorted (fun a b => pl_latency b <= pl_latency a) ranked /\
    GetTopNSlowPods_in sort_Slice entries hp n
      = Some (pl_metrics <$> take (Z.to_nat n) ranked) /\
    Z.of_nat (length (pl_metrics <$> take (Z.to_nat n) ranked))
      = Z.min n (Z.of_nat (length ranked)) /\
    (forall a, a ∈ ranked ->
       exists history,
         metricsHistory sa !! pl_podName a = Some history /\
         last history = Some (pl_metrics a) /\
         pl_latency a = totalLatencyOf (load hp (pl_metrics a)))) /\
  (forall m, m < 0 \/ maxAlloc < ptrSize * m ->
     GetTopNSlowPods_in sort_Slice entries hp m = None).
Proof.
  split; [|intros m Hm; apply GetTopNSlowPods_in_panics; exact Hm].
  destruct (sort_Slice_contract (collectLatencies hp entries)) as [Hperm Hsorted].
  exists (sort_Slice latencyLess (collectLatencies hp entries)).
  assert (Hall : Permutation (sort_Slice latencyLess (collectLatencies hp entries))
                   (omap (latestEntry hp) (map_to_list (metricsHistory sa)))).
  { rewrite Hperm, collectLatencies_omap, Hentries. reflexivity. }
  split; [exact Hall|]. split.
  { eapply StronglySorted_weaken; [|exact Hsorted].
    intros a b Hab. apply latencyLess_false. exact Hab. }
  split.
  { unfold GetTopNSlowPods_in. rewrite makeslice_returns by (split; assumption).
    reflexivity. }
  split.
  { rewrite length_fmap, length_take. lia. }
  intros a Ha. rewrite Hall in Ha. apply (latestEntry_stored hp sa a Ha).
Qed.

End Ranking.

Section RankingExamples.
Import Monitor Analyzer Spec Examples.

Lemma GetTopNSlowPods_ranking_witness :
  sortSliceContract (@insertionSort podLatency) /\
  Permutation (map_to_list (metricsHistory (snd rankState)))
    (map_to_list (metricsHistory (snd rankState))) /\
  0 <= 2 /\ ptrSize * 2 <= maxAlloc /\
  exists ranked : list podLatency,
    Permutation ranked
      (omap (latestEntry (fst rankState)) (map_to_list (metricsHistory (snd rankState)))) /\
    StronglySorted (fun a b => pl_latency b <= pl_latency a) ranked /\
    GetTopNSlowPods_in insertionSort (map_to_list (metricsHistory (snd rankState)))
      (fst rankState) 2
      = Some (pl_metrics <$> take (Z.to_nat 2) ranked) /\
    Z.of_nat (length (pl_metrics <$> take (Z.to_nat 2) ranked))
      = Z.min 2 (Z.of_nat (length ranked)) /\
    (forall a, a ∈ ranked ->
       exists history,
         metricsHistory (snd rankState) !! pl_podName a = Some history /\
         last history = Some (pl_metrics a) /\
         pl_latency a = totalLatencyOf (load (fst rankState) (pl_metrics a))).
Proof.
  assert (Hp : Permutation (map_to_list (metricsHistory (snd rankState)))
                 (map_to_list (metricsHistory (snd rankState)))) by reflexivity.
  assert (Hn : 0 <= 2) by lia.
  assert (Hcap : ptrSize * 2 <= maxAlloc) by (vm_compute; discriminate).
  split; [exact insertionSort_contract|]. split; [exact Hp|]. split; [exact Hn|].
  split; [exact Hcap|].
  exact (proj1 (GetTopNSlowPods_ranking insertionSort insertionSort_contract
                  (fst rankState) (snd rankState) _ 2 Hp Hn Hcap)).
Defined.

(** The specification's example: of three pods with combined latencies
    5 ms, 30 ms and 12 ms, the top two are the 30 ms and the 12 ms pod. *)
Lemma GetTopNSlowPods_spec_example :
  GetTopNSlowPods insertionSort (fst rankState) (snd rankState) 2 = Some [4%nat; 5%nat] /\
  PodName (load (fst rankState) 4) = "p30"%string /\
  PodName (load (fst rankState) 5) = "p12"%string.
Proof. vm_compute. repeat split. Qed.

(** C4, refuted as stated.  First, with a stable sort, a pod whose read
    and write latency are [2^63] each (combined [2^64]) ranks below a pod
    with combined latency 2, because the sum is taken in 64 bits.  Second,
    two pods of equal combined latency are returned in the order in which
    the map happens to be visited, and a sorting function that keeps the
    promise of [sort.Slice] may return them in the opposite of the order a
    stable sort leaves them in.  Third, for [n = 2^63 - 1], the largest
    [int], the call panics in [make] where [topN] returns both pods. *)
Lemma GetTopNSlowPods_not_stable_nor_exact :
  (GetTopNSlowPods_in insertionSort overflowEntries overflowHeap 1 = Some [1%nat] /\
   topN overflowHeap overflowEntries 1 = [0%nat]) /\
  (GetTopNSlowPods_in insertionSort tieEntries tieHeap 2 = Some [0%nat; 1%nat] /\
   GetTopNSlowPods_in insertionSort (rev tieEntries) tieHeap 2 = Some [1%nat; 0%nat]) /\
  (sortSliceContract (@reverseTies podLatency) /\
   GetTopNSlowPods_in reverseTies tieEntries tieHeap 2 = Some [1%nat; 0%nat] /\
   topN tieHeap tieEntries 2 = [0%nat; 1%nat]) /\
  (GetTopNSlowPods_in insertionSort tieEntries tieHeap (2 ^ 63 - 1) = None /\
   topN tieHeap tieEntries (2 ^ 63 - 1) = [0%nat; 1%nat]).
Proof.
  split; [vm_compute; split; reflexivity|].
  split; [vm_compute; split; reflexivity|].
  split; [split; [exact reverseTies_contract | vm_compute; split; reflexivity]|].
  split; [reflexivity|].
  unfold topN. rewrite take_ge; [reflexivity|].
  change (length _) with 2%nat. lia.
Qed.

End RankingExamples.

(* ===================================================================== *)
(** * The ranking hands out the stored snapshots *)
(* ===================================================================== *)

Section RankingAliasing.
Import Monitor Analyzer Spec Examples.

(** X25. Every pointer [GetTopNSlowPods] returns is the last element of
    a stored history: the caller receives the stored object, not a copy. *)
Lemma GetTopNSlowPods_returns_stored
    (sort_Slice : (podLatency -> podLatency -> bool) -> list podLatency -> list podLatency)
    (hp : Heap) (sa : StorageAnalyzer) (n : Z) (result : list ptr) :
  sortSliceContract sort_Slice ->
  GetTopNSlowPods sort_Slice hp sa n = Some result ->
  forall p, p ∈ result ->
    exists podName history,
      metricsHistory sa !! podName = Some history /\ last history = Some p.
Proof.
  intros Hsort Hres p Hp. unfold GetTopNSlowPods, GetTopNSlowPods_in in Hres.
  destruct (makeslice_panics ptrSize n); [discriminate|]. injection Hres as <-.
  apply list_elem_of_fmap in Hp as (a & -> & Ha).
  apply elem_of_take in Ha as (i & Hi & _).
  apply list_elem_of_lookup_2 in Hi.
  destruct (Hsort (collectLatencies hp (map_to_list (metricsHistory sa)))) as [Hperm _].
  rewrite Hperm, collectLatencies_omap in Hi.
  destruct (latestEntry_stored hp sa a Hi) as (history & Hh & Hlast & _).
  exists (pl_podName a), history. split; assumption.
Qed.

(** C3, at the failing input.  After one [AddMetrics] call for pod [a]
    the ranking returns the very pointer the history stores; a write
    through it changes the stored snapshot, and the next read sees the
    changed value. *)
Theorem GetTopNSlowPods_returns_live_reference :
  let hp := fst afterOneCall in
  let sa := snd afterOneCall in
  let hp' := store hp 1 (setReadLatency 999 (load hp 1)) in
  metricsHistory sa !! "a"%string = Some [1%nat] /\
  GetTopNSlowPods insertionSort hp sa 1 = Some [1%nat] /\
  ReadLatency (load hp (latestOf (historyOf sa "a"))) = 1 /\
  ReadLatency (load hp' (latestOf (historyOf sa "a"))) = 999 /\
  GetTopNSlowPods insertionSort hp' sa 1 = Some [1%nat].
Proof. vm_compute. repeat split. Qed.

End RankingAliasing.

(* ===================================================================== *)
(** * Signs in binary64 arithmetic *)
(* ===================================================================== *)

Section Signs.
Import Float64.














End Signs.

(* ===================================================================== *)
(** * Anomaly detector *)
(* ===================================================================== *)

Section Anomaly.
Import Monitor Analyzer Spec Examples Float64.

Lemma sumZ_from (xs : list Z) (a : Z) : fold_left Z.add xs a = a + sumZ xs.
Proof.
  unfold sumZ. revert a. induction xs as [|x rest IH]; intros a; simpl.
  - lia.
  - rewrite (IH (a + x)), (IH (0 + x)). lia.
Qed.

Lemma sumZ_cons (x : Z) (xs : list Z) : sumZ (x :: xs) = x + sumZ xs.
Proof. unfold sumZ at 1. simpl. rewrite sumZ_from. lia. Qed.

Lemma wrap64_add_l (a x : Z) : wrap64 (wrap64 a + x) = wrap64 (a + x).
Proof. unfold wrap64. apply Z.add_mod_idemp_l. lia. Qed.

(** The first loop adds in 64 bits: it yields the sums modulo [2^64]. *)
Lemma sumLatencies_wrap (vals : list PodStorageMetrics) :
  sumLatencies vals =
    (wrap64 (sumZ (ReadLatency <$> vals)), wrap64 (sumZ (WriteLatency <$> vals))).
Proof.
  unfold sumLatencies.
  assert (Hgen : forall a b,
            fold_left (fun '(sumRead, sumWrite) metrics =>
                         (wrap64 (sumRead + ReadLatency metrics),
                          wrap64 (sumWrite + WriteLatency metrics)))
              vals (wrap64 a, wrap64 b)
            = (wrap64 (a + sumZ (ReadLatency <$> vals)),
               wrap64 (b + sumZ (WriteLatency <$> vals)))).
  { induction vals as [|m rest IH]; intros a b.
    - unfold sumZ. simpl. rewrite !Z.add_0_r. reflexivity.
    - rewrite !fmap_cons, !sumZ_cons. simpl fold_left.
      rewrite !wrap64_add_l. rewrite IH.
      f_equal; f_equal; lia. }
  exact (Hgen 0 0).
Qed.

Lemma sumSqDiffs_sumSquares (avgRead avgWrite : float) (vals : list PodStorageMetrics) :
  sumSqDiffs avgRead avgWrite vals =
    (sumSquares avgRead (ReadLatency <$> vals), sumSquares avgWrite (WriteLatency <$> vals)).
Proof.
  unfold sumSqDiffs, sumSquares.
  generalize 0%float at 1 3 as a. generalize 0%float as b.
  induction vals as [|m rest IH]; intros b a; simpl.
  - reflexivity.
  - rewrite IH. reflexivity.
Qed.




Lemma last_fmap_latest (hp : Heap) (f : PodStorageMetrics -> Z) (history : list ptr) :
  history <> [] ->
  default 0 (last (f <$> (load hp <$> history))) = f (load hp (latestOf history)).
Proof.
  intros Hne. rewrite !fmap_last. unfold latestOf.
  destruct (last history) as [p|] eqn:Hlast; [reflexivity|].
  apply last_None in Hlast. contradiction.
Qed.

(** Without overflow of the two sums the code computes [detect]. *)
Lemma detectAnomaly_detect (hp : Heap) (sa : StorageAnalyzer) (podName : string) :
  0 <= sumZ (ReadLatency <$> (load hp <$> historyOf sa podName)) < 2 ^ 64 ->
  0 <= sumZ (WriteLatency <$> (load hp <$> historyOf sa podName)) < 2 ^ 64 ->
  detectAnomaly hp sa podName =
    detect (anomalyThreshold sa) (load hp <$> historyOf sa podName).
Proof.
  intros Hreads Hwrites. unfold detectAnomaly, detect, historyOf in *.
  destruct (metricsHistory sa !! podName) as [history|]; simpl in *; [|reflexivity].
  rewrite length_fmap.
  destruct (Nat.ltb_spec (length history) 10) as [|Hlen]; [reflexivity|].
  rewrite sumLatencies_wrap.
  unfold wrap64. rewrite !Z.mod_small by assumption.
  rewrite sumSqDiffs_sumSquares.
  assert (Hne : history <> []) by (intros ->; simpl in Hlen; lia).
  unfold zScore, deviation, population_variance, population_mean.
  rewrite !(last_fmap_latest hp _ history Hne).
  rewrite !length_fmap.
  destruct (gtb _ _ || gtb _ _); reflexivity.
Qed.



(** Ten snapshots without latency and an eleventh with a read latency of
    1 ns raise the flag; the first nine snapshots alone do not. *)
Lemma detectAnomaly_spike_example :
  detectAnomaly (fst (fedWith spikeHeap)) (snd (fedWith spikeHeap)) "a" = true /\
  detectAnomaly (fst (fedWith (take 9 spikeHeap))) (snd (fedWith (take 9 spikeHeap))) "a"
  = false.
Proof. vm_compute. split; reflexivity. Qed.


End Anomaly.

(* ===================================================================== *)
(** * Exact binary64 arithmetic on small integers *)
(* ===================================================================== *)

Section ExactArithmetic.
Import Float64.

(** The number of binary digits of [p] brackets [p] between two powers of
    two. *)
Lemma digits2_pos_bounds (p : positive) :
  2 ^ (Zpos (digits2_pos p) - 1) <= Zpos p < 2 ^ Zpos (digits2_pos p).
Proof.
  induction p as [p IH|p IH|]; simpl digits2_pos.
  - rewrite Pos2Z.inj_succ.
    replace (Z.succ (Zpos (digits2_pos p)) - 1) with (Z.succ (Zpos (digits2_pos p) - 1)) by lia.
    rewrite !Z.pow_succ_r by lia. lia.
  - rewrite Pos2Z.inj_succ.
    replace (Z.succ (Zpos (digits2_pos p)) - 1) with (Z.succ (Zpos (digits2_pos p) - 1)) by lia.
    rewrite !Z.pow_succ_r by lia. lia.
  - simpl. lia.
Qed.

Lemma digits2_pos_unique (p : positive) (d : Z) :
  2 ^ (d - 1) <= Zpos p < 2 ^ d -> Zpos (digits2_pos p) = d.
Proof.
  intros [Hlo Hhi]. pose proof (digits2_pos_bounds p) as [Hlo' Hhi'].
  assert (0 < d).
  { destruct (Z.lt_ge_cases 0 d); [assumption|].
    assert (2 ^ d <= 1).
    { destruct (Z.eq_dec d 0) as [->|]; [simpl; lia|].
      rewrite Z.pow_neg_r by lia. lia. }
    lia. }
  set (d' := Zpos (digits2_pos p)) in *.
  assert (d' - 1 < d).
  { apply (Z.pow_lt_mono_r_iff 2); lia. }
  assert (d - 1 < d').
  { apply (Z.pow_lt_mono_r_iff 2); lia. }
  lia.
Qed.

Lemma iter_xO_Z (p d : positive) : Zpos (Pos.iter xO p d) = Zpos p * 2 ^ Zpos d.
Proof.
  induction d as [|d IH] using Pos.peano_ind.
  - simpl. lia.
  - rewrite Pos.iter_succ. rewrite Pos2Z.inj_xO, IH, Pos2Z.inj_succ, Z.pow_succ_r by lia. lia.
Qed.

Lemma fexp_normal (x : Z) : -1021 <= x -> fexp prec emax x = x - 53.
Proof. intros Hx. unfold fexp, FloatOps.emin, SpecFloat.emin, prec, emax. lia. Qed.

(** Rounding a 53-digit mantissa changes nothing. *)
Lemma binary_round_aux_53 (s : bool) (m : positive) (e : Z) :
  Zpos (digits2_pos m) = 53 -> -1074 <= e <= 971 ->
  binary_round_aux prec emax s (Zpos m) e loc_Exact = S754_finite s m e.
Proof.
  intros Hd He. unfold binary_round_aux.
  assert (Hshr : shr_fexp prec emax (Zpos m) e loc_Exact
                 = (Build_shr_record (Zpos m) false false, e)).
  { unfold shr_fexp. simpl Zdigits2. rewrite Hd.
    rewrite fexp_normal by lia.
    replace (53 + e - 53 - e) with 0 by lia. reflexivity. }
  rewrite Hshr. simpl. rewrite Hshr. simpl.
  change (emax - prec) with 971.
  destruct (Z.leb_spec e 971); [reflexivity | lia].
Qed.

(** Rounding an even 54-digit mantissa halves it exactly. *)
Lemma binary_round_aux_54 (s : bool) (m : positive) (e : Z) :
  Zpos (digits2_pos m) = 53 -> -1074 <= e + 1 <= 971 ->
  binary_round_aux prec emax s (Zpos (xO m)) e loc_Exact = S754_finite s m (e + 1).
Proof.
  intros Hd He. unfold binary_round_aux.
  assert (Hshr : shr_fexp prec emax (Zpos (xO m)) e loc_Exact
                 = (Build_shr_record (Zpos m) false false, e + 1)).
  { unfold shr_fexp. simpl Zdigits2. rewrite Pos2Z.inj_succ, Hd.
    rewrite fexp_normal by lia.
    replace (Z.succ 53 + e - 53 - e) with 1 by lia. reflexivity. }
  rewrite Hshr. simpl.
  assert (Hshr' : shr_fexp prec emax (Zpos m) (e + 1) loc_Exact
                 = (Build_shr_record (Zpos m) false false, e + 1)).
  { unfold shr_fexp. simpl Zdigits2. rewrite Hd.
    rewrite fexp_normal by lia.
    replace (53 + (e + 1) - 53 - (e + 1)) with 0 by lia. reflexivity. }
  rewrite Hshr'. simpl.
  change (emax - prec) with 971.
  destruct (Z.leb_spec (e + 1) 971); [reflexivity | lia].
Qed.

Lemma digits2_pos_pos (p : positive) : 1 <= Zpos (digits2_pos p).
Proof. lia. Qed.

Lemma digits2_pos_le_53 (p : positive) : Zpos p < 2 ^ 53 -> Zpos (digits2_pos p) <= 53.
Proof.
  intros Hp. pose proof (digits2_pos_bounds p) as [Hlo _].
  destruct (Z.le_gt_cases (Zpos (digits2_pos p)) 53) as [|Hgt]; [assumption|].
  assert (2 ^ 53 <= 2 ^ (Zpos (digits2_pos p) - 1)) by (apply Z.pow_le_mono_r; lia).
  lia.
Qed.

(** The mantissa of [canon p] has 53 digits. *)
Lemma canon_mantissa (p : positive) :
  Zpos p < 2 ^ 53 ->
  let m := Z.to_pos (Zpos p * 2 ^ (53 - Zpos (digits2_pos p))) in
  Zpos m = Zpos p * 2 ^ (53 - Zpos (digits2_pos p)) /\ Zpos (digits2_pos m) = 53.
Proof.
  intros Hp m. pose proof (digits2_pos_le_53 p Hp) as Hd.
  pose proof (digits2_pos_bounds p) as [Hlo Hhi].
  set (d := Zpos (digits2_pos p)) in *.
  assert (Hpow : 0 < 2 ^ (53 - d)) by (apply Z.pow_pos_nonneg; lia).
  assert (Hm : Zpos m = Zpos p * 2 ^ (53 - d)).
  { unfold m. rewrite Z2Pos.id by lia. reflexivity. }
  split; [exact Hm|].
  apply digits2_pos_unique. rewrite Hm.
  replace (2 ^ (53 - 1)) with (2 ^ (d - 1) * 2 ^ (53 - d))
    by (rewrite <- Z.pow_add_r by lia; f_equal; lia).
  replace (2 ^ 53) with (2 ^ d * 2 ^ (53 - d))
    by (rewrite <- Z.pow_add_r by lia; f_equal; lia).
  split; [apply Z.mul_le_mono_nonneg_r; lia | apply Z.mul_lt_mono_pos_r; lia].
Qed.

(** An integer below [2^53] converts without rounding. *)
Lemma binary_normalize_canon (p : positive) :
  Zpos p < 2 ^ 53 ->
  binary_normalize prec emax (Zpos p) 0 false = canon p.
Proof.
  intros Hp. pose proof (digits2_pos_le_53 p Hp) as Hd.
  destruct (canon_mantissa p Hp) as [Hm Hdm].
  unfold binary_normalize, binary_round, canon.
  set (M := Z.to_pos (Zpos p * 2 ^ (53 - Zpos (digits2_pos p)))) in *.
  rewrite fexp_normal by lia.
  unfold shl_align.
  destruct (Zpos (digits2_pos p) + 0 - 53 - 0) as [|k|k] eqn:Hk.
  - assert (Hd53 : Zpos (digits2_pos p) = 53) by lia.
    assert (HM : M = p).
    { apply Pos2Z.inj. rewrite Hm, Hd53. replace (53 - 53) with 0 by lia.
      rewrite Z.pow_0_r. lia. }
    rewrite HM in *.
    rewrite binary_round_aux_53; [f_equal; lia | exact Hd53 | lia].
  - lia.
  - assert (Hkd : Zpos k = 53 - Zpos (digits2_pos p)) by lia.
    assert (Hiter : Pos.iter xO p k = M).
    { apply Pos2Z.inj. rewrite iter_xO_Z, Hm, Hkd. reflexivity. }
    rewrite Hiter.
    rewrite binary_round_aux_53; [f_equal; lia | exact Hdm | lia].
Qed.

(** A product has as many digits as its factors together, or one less. *)
Lemma digits2_pos_mul (n r : positive) :
  let dn := Zpos (digits2_pos n) in
  let dr := Zpos (digits2_pos r) in
  let d1 := Zpos (digits2_pos (n * r)) in
  d1 = dn + dr \/ d1 = dn + dr - 1.
Proof.
  intros dn dr d1.
  pose proof (digits2_pos_bounds n) as [Hn1 Hn2].
  pose proof (digits2_pos_bounds r) as [Hr1 Hr2].
  pose proof (digits2_pos_bounds (n * r)) as [H1 H2].
  fold dn in Hn1, Hn2. fold dr in Hr1, Hr2. fold d1 in H1, H2.
  rewrite Pos2Z.inj_mul in H1, H2.
  assert (1 <= dn) by (unfold dn; lia).
  assert (1 <= dr) by (unfold dr; lia).
  assert (1 <= d1) by (unfold d1; lia).
  assert (Hlow : 2 ^ (dn + dr - 2) <= Zpos n * Zpos r).
  { replace (dn + dr - 2) with ((dn - 1) + (dr - 1)) by lia.
    rewrite Z.pow_add_r by lia.
    apply Z.mul_le_mono_nonneg; try lia; apply Z.pow_nonneg; lia. }
  assert (Hhigh : Zpos n * Zpos r < 2 ^ (dn + dr)).
  { rewrite Z.pow_add_r by lia.
    apply Z.mul_lt_mono_nonneg; lia. }
  assert (d1 - 1 < dn + dr) by (apply (Z.pow_lt_mono_r_iff 2); lia).
  assert (dn + dr - 2 < d1) by (apply (Z.pow_lt_mono_r_iff 2); lia).
  lia.
Qed.

(** When the product of two integers is below [2^53], dividing it by one
    factor gives the other factor exactly. *)
Lemma SFdiv_canon (n r : positive) :
  Zpos n * Zpos r < 2 ^ 53 ->
  SFdiv prec emax (canon (n * r)) (canon n) = canon r.
Proof.
  intros Hprod.
  assert (Hn : Zpos n < 2 ^ 53) by nia.
  assert (Hr : Zpos r < 2 ^ 53) by nia.
  assert (Hnr : Zpos (n * r) < 2 ^ 53) by (rewrite Pos2Z.inj_mul; exact Hprod).
  destruct (canon_mantissa n Hn) as [HMn HDn].
  destruct (canon_mantissa r Hr) as [HMr HDr].
  destruct (canon_mantissa (n * r) Hnr) as [HM1 HD1].
  pose proof (digits2_pos_le_53 n Hn) as Hdn.
  pose proof (digits2_pos_le_53 r Hr) as Hdr.
  pose proof (digits2_pos_le_53 (n * r) Hnr) as Hd1.
  pose proof (digits2_pos_mul n r) as Hmul. cbv zeta in Hmul.
  unfold canon.
  set (Mn := Z.to_pos (Zpos n * 2 ^ (53 - Zpos (digits2_pos n)))) in *.
  set (Mr := Z.to_pos (Zpos r * 2 ^ (53 - Zpos (digits2_pos r)))) in *.
  set (M1 := Z.to_pos (Zpos (n * r) * 2 ^ (53 - Zpos (digits2_pos (n * r))))) in *.
  set (dn := Zpos (digits2_pos n)) in *.
  set (dr := Zpos (digits2_pos r)) in *.
  set (d1 := Zpos (digits2_pos (n * r))) in *.
  assert (1 <= dn) by (unfold dn; lia).
  assert (1 <= dr) by (unfold dr; lia).
  assert (1 <= d1) by (unfold d1; lia).
  unfold SFdiv, SFdiv_core_binary. simpl Zdigits2. rewrite HD1, HDn.
  replace (53 + (d1 - 53) - (53 + (dn - 53))) with (d1 - dn) by lia.
  rewrite fexp_normal by lia.
  replace (Z.min (d1 - dn - 53) (d1 - 53 - (dn - 53))) with (d1 - dn - 53) by lia.
  replace (d1 - 53 - (dn - 53) - (d1 - dn - 53)) with 53 by lia.
  cbv iota beta.
  rewrite Z.shiftl_mul_pow2 by lia.
  set (Q := Zpos r * 2 ^ (53 - d1 + dn)).
  assert (Hexact : Zpos M1 * 2 ^ 53 = Zpos Mn * Q).
  { unfold Q. rewrite HM1, HMn, Pos2Z.inj_mul.
    replace (2 ^ (53 - d1 + dn)) with (2 ^ (53 - d1) * 2 ^ dn)
      by (rewrite <- Z.pow_add_r by lia; f_equal; lia).
    replace (2 ^ 53) with (2 ^ (53 - dn) * 2 ^ dn) at 1
      by (rewrite <- Z.pow_add_r by lia; f_equal; lia).
    ring. }
  pose proof (Z_div_mod (Zpos M1 * 2 ^ 53) (Zpos Mn) ltac:(lia)) as Hdiv.
  destruct (Z.div_eucl (Zpos M1 * 2 ^ 53) (Zpos Mn)) as [q rem].
  destruct Hdiv as [Hdiv Hrem].
  assert (Hq : q = Q /\ rem = 0).
  { apply (Zdiv_mod_unique (Zpos Mn)); [lia | lia | lia]. }
  destruct Hq as [-> ->].
  assert (Hloc : new_location (Zpos Mn) 0 = loc_Exact).
  { unfold new_location, new_location_even, new_location_odd.
    destruct (Z.even (Zpos Mn)); reflexivity. }
  rewrite Hloc. simpl xorb.
  destruct Hmul as [Hsum|Hsum].
  - assert (HQ : Q = Zpos Mr).
    { unfold Q. rewrite HMr. do 2 f_equal. lia. }
    rewrite HQ. rewrite binary_round_aux_53; [f_equal; lia | exact HDr | lia].
  - assert (HQ : Q = Zpos (xO Mr)).
    { unfold Q. rewrite (Pos2Z.inj_xO Mr), HMr.
      replace (53 - d1 + dn) with (Z.succ (53 - dr)) by lia.
      rewrite Z.pow_succ_r by lia. ring. }
    rewrite HQ. rewrite binary_round_aux_54; [f_equal; lia | exact HDr | lia].
Qed.

Lemma Prim2SF_of_Z (z : Z) :
  0 <= z < 2 ^ 63 -> Prim2SF (of_Z z) = binary_normalize prec emax z 0 false.
Proof.
  intros Hz. unfold of_Z.
  assert (Hspec : Prim2SF (PrimFloat.of_uint63 (Uint63.of_Z z))
                  = binary_normalize prec emax z 0 false).
  { rewrite of_uint63_spec. rewrite Uint63.of_Z_spec.
    rewrite Z.mod_small; [reflexivity|]. exact Hz. }
  rewrite <- Hspec. rewrite SF2Prim_Prim2SF. reflexivity.
Qed.

Lemma Prim2SF_of_len (n : nat) :
  Z.of_nat n < 2 ^ 63 ->
  Prim2SF (of_len n) = binary_normalize prec emax (Z.of_nat n) 0 false.
Proof.
  intros Hn. unfold of_len. rewrite of_uint63_spec, Uint63.of_Z_spec.
  rewrite Z.mod_small; [reflexivity|]. split; [lia | exact Hn].
Qed.

End ExactArithmetic.

(* ===================================================================== *)
(** * Constant histories *)
(* ===================================================================== *)

Section ConstantHistory.
Import Monitor Analyzer Spec Examples Float64.

Lemma Prim2SF_of_Z_pos (p : positive) :
  Zpos p < 2 ^ 53 -> Prim2SF (of_Z (Zpos p)) = canon p.
Proof.
  intros Hp. rewrite Prim2SF_of_Z by lia. apply binary_normalize_canon. exact Hp.
Qed.

Lemma Prim2SF_of_len_pos (n : nat) :
  (1 <= n)%nat -> Z.of_nat n < 2 ^ 53 ->
  exists p, Z.of_nat n = Zpos p /\ Prim2SF (of_len n) = canon p.
Proof.
  intros Hn Hlt. destruct (Z.of_nat n) as [|p|p] eqn:Hp; try lia.
  exists p. split; [reflexivity|].
  rewrite Prim2SF_of_len by lia. rewrite Hp.
  apply binary_normalize_canon. lia.
Qed.

(** The mean of [n] copies of [r] is [r], exactly, when [n * r < 2^53]. *)
Lemma mean_of_copies (n : nat) (r : Z) :
  (1 <= n)%nat -> 0 <= r -> Z.of_nat n < 2 ^ 53 -> Z.of_nat n * r < 2 ^ 53 ->
  (of_Z (Z.of_nat n * r) / of_len n)%float = of_Z r.
Proof.
  intros Hn Hr Hlt Hprod. apply Prim2SF_inj. rewrite div_spec.
  destruct (Prim2SF_of_len_pos n Hn Hlt) as (p & Hp & Hcanon).
  rewrite Hcanon, Hp.
  destruct r as [|q|q]; [| |lia].
  - rewrite Z.mul_0_r. reflexivity.
  - change (Zpos p * Zpos q) with (Zpos (p * q)).
    rewrite !Prim2SF_of_Z_pos by lia.
    apply SFdiv_canon. lia.
Qed.

Lemma sub_self_small (z : Z) :
  0 <= z < 2 ^ 53 -> (of_Z z - of_Z z)%float = 0%float.
Proof.
  intros Hz. apply Prim2SF_inj. rewrite sub_spec.
  destruct z as [|p|p]; [reflexivity| |lia].
  rewrite Prim2SF_of_Z_pos by lia.
  unfold canon, SF64sub, SFsub. cbv zeta.
  unfold cond_Zopp. rewrite Z.sub_diag. reflexivity.
Qed.

Lemma zero_over_len (n : nat) :
  (1 <= n)%nat -> Z.of_nat n < 2 ^ 53 -> (0 / of_len n)%float = 0%float.
Proof.
  intros Hn Hlt. apply Prim2SF_inj. rewrite div_spec.
  destruct (Prim2SF_of_len_pos n Hn Hlt) as (p & _ & ->). reflexivity.
Qed.

Lemma gtb_nan (threshold : float) : gtb nan threshold = false.
Proof.
  unfold gtb. rewrite ltb_spec.
  change (Prim2SF nan) with S754_nan.
  destruct (Prim2SF threshold); reflexivity.
Qed.

Lemma sumZ_replicate (n : nat) (r : Z) : sumZ (replicate n r) = Z.of_nat n * r.
Proof.
  induction n as [|n IH].
  - reflexivity.
  - change (replicate (S n) r) with (r :: replicate n r).
    rewrite sumZ_cons, IH. lia.
Qed.

Lemma last_replicate_copy (n : nat) (r : Z) :
  (1 <= n)%nat -> last (replicate n r) = Some r.
Proof.
  intros Hn. destruct n as [|n]; [lia|].
  rewrite replicate_S_end. apply last_snoc.
Qed.

Lemma sumSquares_copies (n : nat) (r : Z) :
  0 <= r < 2 ^ 53 -> sumSquares (of_Z r) (replicate n r) = 0%float.
Proof.
  intros Hr. unfold sumSquares.
  induction n as [|n IH]; simpl.
  - reflexivity.
  - rewrite (sub_self_small r Hr).
    change (0 + 0 * 0)%float with 0%float. exact IH.
Qed.

(** The statistics of [n] copies of one latency [r] with [n * r < 2^53]:
    the variance is zero and the z-score is NaN. *)
Lemma zScore_copies (n : nat) (r : Z) :
  (1 <= n)%nat -> 0 <= r -> Z.of_nat n < 2 ^ 53 -> Z.of_nat n * r < 2 ^ 53 ->
  population_mean (replicate n r) = of_Z r /\
  population_variance (replicate n r) = 0%float /\
  zScore (replicate n r) = nan.
Proof.
  intros Hn Hr Hlt Hprod.
  assert (Hr53 : 0 <= r < 2 ^ 53) by nia.
  assert (Hmean : population_mean (replicate n r) = of_Z r).
  { unfold population_mean. rewrite sumZ_replicate, length_replicate.
    apply mean_of_copies; assumption. }
  assert (Hvar : population_variance (replicate n r) = 0%float).
  { unfold population_variance. rewrite Hmean, sumSquares_copies by exact Hr53.
    rewrite length_replicate. apply zero_over_len; assumption. }
  split; [exact Hmean|]. split; [exact Hvar|].
  unfold zScore, deviation. rewrite Hvar, Hmean.
  rewrite last_replicate_copy by exact Hn. simpl default.
  rewrite sub_self_small by exact Hr53. reflexivity.
Qed.

Lemma fmap_constant {A} (f : A -> Z) (l : list A) (r : Z) :
  (forall x, x ∈ l -> f x = r) -> f <$> l = replicate (length l) r.
Proof.
  induction l as [|x rest IH]; intros Hall; simpl.
  - reflexivity.
  - rewrite (Hall x) by (apply elem_of_cons; left; reflexivity).
    f_equal. apply IH. intros y Hy. apply Hall. apply elem_of_cons. right. exact Hy.
Qed.

(** C10, amended.  For every stored history of [N >= 10] snapshots that
    all have the same read latency [r] and the same write latency [w],
    with [N * r < 2^53] and [N * w < 2^53] (and [N < 2^53]): both
    population variances are zero, both z-scores are NaN, and the
    detector returns false. *)
Theorem detectAnomaly_constant_history (hp : Heap) (sa : StorageAnalyzer)
    (podName : string) (r w : Z)
    (Hlen : (10 <= length (historyOf sa podName))%nat)
    (Hconst : forall p, p ∈ historyOf sa podName ->
                ReadLatency (load hp p) = r /\ WriteLatency (load hp p) = w)
    (Hsize : Z.of_nat (length (historyOf sa podName)) < 2 ^ 53)
    (Hr : 0 <= r /\ Z.of_nat (length (historyOf sa podName)) * r < 2 ^ 53)
    (Hw : 0 <= w /\ Z.of_nat (length (historyOf sa podName)) * w < 2 ^ 53) :
  let history := load hp <$> historyOf sa podName in
  population_variance (ReadLatency <$> history) = 0%float /\
  zScore (ReadLatency <$> history) = nan /\
  population_variance (WriteLatency <$> history) = 0%float /\
  zScore (WriteLatency <$> history) = nan /\
  detectAnomaly hp sa podName = false.
Proof.
  intros history.
  set (n := length (historyOf sa podName)) in *.
  assert (Hn : length history = n) by (unfold history; apply length_fmap).
  assert (Hreads : ReadLatency <$> history = replicate n r).
  { rewrite <- Hn. apply fmap_constant. intros m Hm.
    apply list_elem_of_fmap in Hm as (p & -> & Hp). apply Hconst. exact Hp. }
  assert (Hwrites : WriteLatency <$> history = replicate n w).
  { rewrite <- Hn. apply fmap_constant. intros m Hm.
    apply list_elem_of_fmap in Hm as (p & -> & Hp). apply Hconst. exact Hp. }
  destruct Hr as [Hr0 Hr]. destruct Hw as [Hw0 Hw].
  destruct (zScore_copies n r ltac:(lia) Hr0 Hsize Hr) as (_ & Hvr & Hzr).
  destruct (zScore_copies n w ltac:(lia) Hw0 Hsize Hw) as (_ & Hvw & Hzw).
  rewrite Hreads, Hwrites.
  split; [exact Hvr|]. split; [exact Hzr|]. split; [exact Hvw|]. split; [exact Hzw|].
  rewrite detectAnomaly_detect.
  - fold history. unfold detect. rewrite Hn.
    destruct (Nat.ltb_spec n 10) as [|_]; [lia|].
    rewrite Hreads, Hwrites, Hzr, Hzw, !gtb_nan. reflexivity.
  - fold history. rewrite Hreads, sumZ_replicate. nia.
  - fold history. rewrite Hwrites, sumZ_replicate. nia.
Qed.

Lemma detectAnomaly_constant_history_witness :
  let st := fedWith (constantHeap 5000 7) in
  (10 <= length (historyOf (snd st) "a"))%nat /\
  detectAnomaly (fst st) (snd st) "a" = false.
Proof.
  intros st.
  assert (Hlen : (10 <= length (historyOf (snd st) "a"))%nat).
  { vm_compute. repeat constructor. }
  assert (Hconst : forall p, p ∈ historyOf (snd st) "a" ->
            ReadLatency (load (fst st) p) = 5000 /\ WriteLatency (load (fst st) p) = 7).
  { apply Forall_forall. vm_compute. repeat constructor. }
  assert (Hsize : Z.of_nat (length (historyOf (snd st) "a")) < 2 ^ 53).
  { vm_compute. reflexivity. }
  assert (Hr : 0 <= 5000 /\ Z.of_nat (length (historyOf (snd st) "a")) * 5000 < 2 ^ 53).
  { vm_compute. split; [discriminate | reflexivity]. }
  assert (Hw : 0 <= 7 /\ Z.of_nat (length (historyOf (snd st) "a")) * 7 < 2 ^ 53).
  { vm_compute. split; [discriminate | reflexivity]. }
  split; [exact Hlen|].
  exact (proj2 (proj2 (proj2 (proj2
           (detectAnomaly_constant_history (fst st) (snd st) "a" 5000 7
              Hlen Hconst Hsize Hr Hw))))).
Defined.

(** C10, refuted as stated.  Ten snapshots with the same read latency
    1914029841632461 ns and the same write latency: the sum of the read
    latencies is above [2^53] and is rounded, the mean comes out 0.25 below
    the latency, the variance is 0.0625 and the z-score 4: the detector
    returns true. *)
Lemma detectAnomaly_constant_history_flagged :
  let st := fedWith (constantHeap 1914029841632461 7) in
  let history := load (fst st) <$> historyOf (snd st) "a" in
  length history = 10%nat /\
  Forall (fun m => ReadLatency m = 1914029841632461 /\ WriteLatency m = 7) history /\
  anomalyThreshold (snd st) = 2%float /\
  population_variance (ReadLatency <$> history) = 0.0625%float /\
  zScore (ReadLatency <$> history) = 4%float /\
  detectAnomaly (fst st) (snd st) "a" = true.
Proof. vm_compute. repeat split; repeat constructor. Qed.

End ConstantHistory.

(* ===================================================================== *)
(** * The history store as a bounded queue *)
(* ===================================================================== *)

Section HistoryContents.
Import Monitor Analyzer Examples.

Lemma runAddMetrics_entries (calls : list (list (string * ptr))) :
  forall st, runAddMetrics calls st = fold_left addOne (entriesOf calls) st.
Proof.
  unfold runAddMetrics, entriesOf, AddMetrics.
  induction calls as [|metrics rest IH]; intros st; simpl.
  - reflexivity.
  - rewrite fold_left_app. apply IH.
Qed.

Lemma lastN_snoc {A} (n : nat) (l : list A) (x : A) :
  (1 <= n)%nat ->
  lastN n (l ++ [x]) =
    (if (n <? length (lastN n l) + 1)%nat then drop 1 (lastN n l ++ [x])
     else lastN n l ++ [x]).
Proof.
  intros Hn. unfold lastN. rewrite length_app, length_drop. simpl.
  destruct (Nat.ltb_spec n (length l - (length l - n) + 1)) as [Hfull|Hroom].
  - assert (Hge : (n <= length l)%nat) by lia.
    rewrite <- (drop_app_le l [x] (length l - n)) by lia.
    rewrite drop_drop. f_equal. lia.
  - assert (Hlt : (length l < n)%nat) by lia.
    replace (length l + 1 - n)%nat with 0%nat by lia.
    replace (length l - n)%nat with 0%nat by lia.
    reflexivity.
Qed.

Lemma last_appendBounded (max : Z) (history : list ptr) (q : ptr) :
  1 <= max -> last (appendBounded max history q) = Some q.
Proof.
  intros Hmax. unfold appendBounded. rewrite length_app. simpl.
  destruct (Z.gtb_spec (Z.of_nat (length history + 1)) max) as [Hgt|Hle].
  - destruct history as [|p rest]; [simpl in Hgt; lia|].
    simpl. rewrite drop_0. apply last_snoc.
  - apply last_snoc.
Qed.

Lemma elem_of_appendBounded (max : Z) (history : list ptr) (q x : ptr) :
  x ∈ appendBounded max history q -> x ∈ history \/ x = q.
Proof.
  unfold appendBounded. intros Hx.
  assert (Hin : x ∈ history ++ [q]).
  { destruct (_ >? _); [|exact Hx].
    apply list_elem_of_lookup in Hx as [i Hi]. rewrite lookup_drop in Hi.
    eapply list_elem_of_lookup_2, Hi. }
  apply elem_of_app in Hin as [H|H]; [left; exact H|].
  right. apply list_elem_of_singleton in H. exact H.
Qed.

Lemma load_fmap_ext (hp hp' : Heap) (history : list ptr) :
  (forall q, q ∈ history -> load hp' q = load hp q) ->
  load hp' <$> history = load hp <$> history.
Proof.
  intros H. apply list_fmap_ext. intros i q Hq. apply H.
  eapply list_elem_of_lookup_2, Hq.
Qed.

Lemma latestOf_elem (history : list ptr) :
  history <> [] -> latestOf history ∈ history.
Proof.
  intros Hne. unfold latestOf.
  destruct (last history) as [q|] eqn:Hlast.
  - simpl. apply last_Some in Hlast as [rest ->].
    apply elem_of_app. right. apply list_elem_of_singleton. reflexivity.
  - apply last_None in Hlast. contradiction.
Qed.

(** The detector reads the analyzer only through the history of the pod
    and the threshold, and the heap only at the pointers of that history. *)
Lemma detectAnomaly_ext (hp hp' : Heap) (sa sa' : StorageAnalyzer) (podName : string) :
  metricsHistory sa' !! podName = metricsHistory sa !! podName ->
  anomalyThreshold sa' = anomalyThreshold sa ->
  (forall q, q ∈ historyOf sa podName -> load hp' q = load hp q) ->
  detectAnomaly hp' sa' podName = detectAnomaly hp sa podName.
Proof.
  unfold detectAnomaly, historyOf. intros -> -> Hload.
  destruct (metricsHistory sa !! podName) as [history|]; [|reflexivity].
  simpl in Hload.
  destruct (Nat.ltb_spec (length history) 10) as [Hshort|Hlong]; [reflexivity|].
  rewrite (load_fmap_ext hp hp' history Hload).
  rewrite (Hload (latestOf history)); [reflexivity|].
  apply latestOf_elem. intros ->. simpl in Hlong. lia.
Qed.

Lemma option_keeps_maps (option : StorageAnalyzer -> StorageAnalyzer) (sa : StorageAnalyzer) :
  is_option option ->
  podBottlenecks (option sa) = podBottlenecks sa /\
  anomalyDetected (option sa) = anomalyDetected sa.
Proof.
  intros [[max ->] | [threshold ->]].
  - unfold WithMaxHistoryPerPod. destruct (0 <? max); split; reflexivity.
  - unfold WithAnomalyThreshold. destruct (Float64.gtb threshold 0); split; reflexivity.
Qed.

Lemma NewStorageAnalyzer_empty (options : list (StorageAnalyzer -> StorageAnalyzer)) :
  Forall is_option options ->
  podBottlenecks (NewStorageAnalyzer options) = ∅ /\
  anomalyDetected (NewStorageAnalyzer options) = ∅.
Proof.
  unfold NewStorageAnalyzer.
  assert (Hgen : forall sa, Forall is_option options ->
            podBottlenecks (fold_left (fun sa option => option sa) options sa)
            = podBottlenecks sa /\
            anomalyDetected (fold_left (fun sa option => option sa) options sa)
            = anomalyDetected sa).
  { induction options as [|o rest IH]; intros sa Hall; simpl.
    - split; reflexivity.
    - inversion Hall as [|? ? Ho Hrest]; subst.
      destruct (option_keeps_maps o sa Ho) as [Hb Ha].
      destruct (IH (o sa) Hrest) as [Hb' Ha'].
      split; [rewrite Hb'; exact Hb | rewrite Ha'; exact Ha]. }
  intros Hall. apply Hgen. exact Hall.
Qed.

Lemma tracks_initial (hp0 : Heap) (options : list (StorageAnalyzer -> StorageAnalyzer)) :
  Forall is_option options ->
  tracks hp0 (maxHistoryPerPod (NewStorageAnalyzer options))
    (anomalyThreshold (NewStorageAnalyzer options)) [] (hp0, NewStorageAnalyzer options).
Proof.
  intros Hall.
  destruct (NewStorageAnalyzer_configured options Hall) as [_ Hhist].
  destruct (NewStorageAnalyzer_empty options Hall) as [Hbn Han].
  assert (Hnil : forall podName, historyOf (NewStorageAnalyzer options) podName = []).
  { intros podName. unfold historyOf. rewrite Hhist, lookup_empty. reflexivity. }
  unfold tracks. cbn [fst snd].
  split; [exists []; rewrite app_nil_r; reflexivity|].
  split; [reflexivity|]. split; [reflexivity|].
  split; [intros podName q Hq; rewrite Hnil in Hq; inversion Hq|].
  split; [intros podName; rewrite Hnil; reflexivity|].
  split; intros podName; rewrite Hnil.
  - rewrite Hbn, lookup_empty. reflexivity.
  - rewrite Han, lookup_empty. reflexivity.
Qed.

Lemma addedFor_snoc (hp0 : Heap) (podName : string) (entries : list (string * ptr))
    (kv : string * ptr) :
  addedFor hp0 podName (entries ++ [kv]) =
    (if decide (fst kv = podName) then addedFor hp0 podName entries ++ [load hp0 (snd kv)]
     else addedFor hp0 podName entries).
Proof.
  unfold addedFor. rewrite filter_app, fmap_app.
  rewrite filter_cons, filter_nil.
  destruct (decide (fst kv = podName)); simpl.
  - reflexivity.
  - rewrite app_nil_r. reflexivity.
Qed.

Lemma tracks_step (hp0 : Heap) (cap : Z) (thr : float) (entries : list (string * ptr))
    (st : Heap * StorageAnalyzer) (kv : string * ptr) :
  1 <= cap -> (snd kv < length hp0)%nat ->
  tracks hp0 cap thr entries st -> tracks hp0 cap thr (entries ++ [kv]) (addOne st kv).
Proof.
  destruct st as [hp sa], kv as [pod0 p]. cbn [fst snd].
  intros Hcap Hp (Hext & Hmax & Hthr & Hptr & Hval & Hbn & Han).
  cbn [fst snd] in Hext, Hmax, Hthr, Hptr, Hval, Hbn, Han.
  destruct Hext as [extra Hext].
  assert (Hlen0 : (length hp0 <= length hp)%nat).
  { rewrite Hext, length_app. lia. }
  assert (Hp' : (p < length hp)%nat) by lia.
  assert (Hloadp : load hp p = load hp0 p).
  { rewrite Hext. apply load_app_l. exact Hp. }
  set (hp1 := hp ++ [load hp p]).
  set (q := length hp).
  assert (Hold : forall x, (x < length hp)%nat -> load hp1 x = load hp x).
  { intros x Hx. apply load_app_l. exact Hx. }
  assert (Hq : load hp1 q = load hp0 p).
  { unfold hp1, q, load. rewrite lookup_app_r by lia.
    rewrite Nat.sub_diag. simpl. exact Hloadp. }
  assert (Hhist : forall podName,
            historyOf (snd (addOne (hp, sa) (pod0, p))) podName =
            if decide (pod0 = podName)
            then appendBounded cap (historyOf sa pod0) q
            else historyOf sa podName).
  { intros podName. unfold historyOf at 1. cbn.
    destruct (decide (pod0 = podName)) as [<-|Hne].
    - rewrite lookup_insert_eq, Hmax. reflexivity.
    - rewrite lookup_insert_ne by exact Hne. reflexivity. }
  assert (Hsame : forall podName,
            load hp1 <$> historyOf sa podName = load hp <$> historyOf sa podName).
  { intros podName. apply load_fmap_ext. intros x Hx. apply Hold.
    apply (Hptr podName x Hx). }
  unfold tracks.
  change (fst (addOne (hp, sa) (pod0, p))) with hp1.
  split; [exists (extra ++ [load hp p]); unfold hp1; rewrite Hext, <- app_assoc; reflexivity|].
  split; [exact Hmax|]. split; [exact Hthr|].
  split; [|split; [|split]].
  - intros podName x Hx. rewrite Hhist in Hx.
    unfold hp1. rewrite length_app. simpl.
    destruct (decide (pod0 = podName)) as [<-|Hne].
    + apply elem_of_appendBounded in Hx as [Hx| ->].
      * specialize (Hptr pod0 x Hx). lia.
      * unfold q. lia.
    + specialize (Hptr podName x Hx). lia.
  - intros podName. rewrite Hhist, addedFor_snoc. cbn [fst snd].
    destruct (decide (pod0 = podName)) as [<-|Hne].
    + rewrite lastN_snoc by lia. rewrite <- Hval, length_fmap.
      unfold appendBounded. rewrite length_app. simpl.
      destruct (Z.gtb_spec (Z.of_nat (length (historyOf sa pod0) + 1)) cap) as [Hgt|Hle];
        destruct (Nat.ltb_spec (Z.to_nat cap) (length (historyOf sa pod0) + 1)) as [Hlt|Hge];
        try lia.
      * rewrite fmap_drop, fmap_app, Hsame. simpl. rewrite Hq. reflexivity.
      * rewrite fmap_app, Hsame. simpl. rewrite Hq. reflexivity.
    + rewrite Hsame. apply Hval.
  - intros podName. rewrite Hhist. cbn.
    destruct (decide (pod0 = podName)) as [<-|Hne].
    + rewrite lookup_insert_eq, last_appendBounded by exact Hcap. simpl.
      fold hp1. rewrite Hq, (Hold p Hp'), Hloadp. reflexivity.
    + rewrite lookup_insert_ne by exact Hne. rewrite Hbn.
      destruct (last (historyOf sa podName)) as [x|] eqn:Hlast; [|reflexivity].
      simpl. fold hp1. rewrite Hold; [reflexivity|].
      apply (Hptr podName x). apply last_Some in Hlast as [rest ->].
      apply elem_of_app. right. apply list_elem_of_singleton. reflexivity.
  - intros podName. rewrite Hhist.
    destruct (decide (pod0 = podName)) as [<-|Hne].
    + rewrite last_appendBounded by exact Hcap. cbn.
      rewrite lookup_insert_eq. reflexivity.
    + cbn. rewrite lookup_insert_ne by exact Hne. rewrite Han.
      destruct (last (historyOf sa podName)) as [x|] eqn:Hlast; [|reflexivity].
      simpl. f_equal. symmetry. fold hp1. apply detectAnomaly_ext.
      * cbn. rewrite lookup_insert_ne by exact Hne. reflexivity.
      * reflexivity.
      * intros y Hy. apply Hold. apply (Hptr podName y Hy).
Qed.

Lemma tracks_run (hp0 : Heap) (options : list (StorageAnalyzer -> StorageAnalyzer))
    (entries : list (string * ptr)) :
  Forall is_option options -> allocatedIn hp0 entries ->
  tracks hp0 (maxHistoryPerPod (NewStorageAnalyzer options))
    (anomalyThreshold (NewStorageAnalyzer options)) entries
    (fold_left addOne entries (hp0, NewStorageAnalyzer options)).
Proof.
  intros Hall. induction entries as [|kv entries IH] using rev_ind; intros Halloc.
  - apply tracks_initial. exact Hall.
  - rewrite fold_left_app. simpl. apply tracks_step.
    + apply (NewStorageAnalyzer_configured options Hall).
    + apply Halloc. apply elem_of_app. right. apply list_elem_of_singleton. reflexivity.
    + apply IH. intros x Hx. apply Halloc. apply elem_of_app. left. exact Hx.
Qed.

Lemma last_lastN {A} (n : nat) (l : list A) :
  (1 <= n)%nat -> last (lastN n l) = last l.
Proof.
  intros Hn. unfold lastN. rewrite !last_lookup, lookup_drop, length_drop.
  destruct l as [|x l]; [reflexivity|]. simpl length. f_equal. lia.
Qed.

Lemma queueCalls_allocated : allocatedIn queueHeap (entriesOf queueCalls).
Proof.
  intros kv Hkv. unfold entriesOf, queueCalls in Hkv. simpl in Hkv.
  repeat (apply elem_of_cons in Hkv as [->|Hkv]; [simpl; lia|]).
  inversion Hkv.
Qed.

Lemma capacityTwo_is_option : Forall is_option [WithMaxHistoryPerPod 2].
Proof. constructor; [|constructor]. left. exists 2. reflexivity. Qed.

(** X1. The history of a pod holds, oldest first, copies of the last
    [maxHistoryPerPod] snapshots that were passed to [AddMetrics] for that
    pod, and nothing else. *)
Theorem AddMetrics_history_contents
    (options : list (StorageAnalyzer -> StorageAnalyzer))
    (calls : list (list (string * ptr))) (hp0 : Heap) (podName : string)
    (Hoptions : Forall is_option options)
    (Hallocated : allocatedIn hp0 (entriesOf calls)) :
  let st := runAddMetrics calls (hp0, NewStorageAnalyzer options) in
  load (fst st) <$> historyOf (snd st) podName =
  lastN (Z.to_nat (maxHistoryPerPod (NewStorageAnalyzer options)))
    (addedFor hp0 podName (entriesOf calls)).
Proof.
  intros st. unfold st. rewrite runAddMetrics_entries.
  destruct (tracks_run hp0 options (entriesOf calls) Hoptions Hallocated)
    as (_ & _ & _ & _ & Hval & _).
  apply Hval.
Qed.

Lemma AddMetrics_history_contents_witness :
  Forall is_option [WithMaxHistoryPerPod 2] /\
  allocatedIn queueHeap (entriesOf queueCalls) /\
  load (fst (runAddMetrics queueCalls (queueHeap, NewStorageAnalyzer [WithMaxHistoryPerPod 2])))
    <$> historyOf
          (snd (runAddMetrics queueCalls
                  (queueHeap, NewStorageAnalyzer [WithMaxHistoryPerPod 2]))) "a"
  = [snapshot "a" 2 2 1; snapshot "a" 3 3 2].
Proof.
  split; [exact capacityTwo_is_option|].
  split; [exact queueCalls_allocated|].
  rewrite (AddMetrics_history_contents [WithMaxHistoryPerPod 2] queueCalls queueHeap "a"
             capacityTwo_is_option queueCalls_allocated).
  reflexivity.
Defined.

(** X2. The bottleneck type reported for a pod is the classification of
    the last snapshot passed to [AddMetrics] for it, whatever was added for
    other pods afterwards, and [unknown] when none was passed. *)
Theorem GetBottleneckType_of_last_added
    (options : list (StorageAnalyzer -> StorageAnalyzer))
    (calls : list (list (string * ptr))) (hp0 : Heap) (podName : string)
    (Hoptions : Forall is_option options)
    (Hallocated : allocatedIn hp0 (entriesOf calls)) :
  let st := runAddMetrics calls (hp0, NewStorageAnalyzer options) in
  GetBottleneckType (snd st) podName =
  match last (addedFor hp0 podName (entriesOf calls)) with
  | Some latest => analyzeBottleneck latest
  | None => BottleneckTypeUnknown
  end.
Proof.
  intros st. unfold st. rewrite runAddMetrics_entries.
  destruct (tracks_run hp0 options (entriesOf calls) Hoptions Hallocated)
    as (_ & _ & _ & _ & Hval & Hbn & _).
  destruct (NewStorageAnalyzer_configured options Hoptions) as [[Hcap _] _].
  unfold GetBottleneckType. rewrite Hbn.
  rewrite <- (last_lastN (Z.to_nat (maxHistoryPerPod (NewStorageAnalyzer options)))
                (addedFor hp0 podName (entriesOf calls))) by lia.
  rewrite <- Hval, fmap_last.
  destruct (last (historyOf _ podName)); reflexivity.
Qed.

Lemma GetBottleneckType_of_last_added_witness :
  Forall is_option [WithMaxHistoryPerPod 2] /\
  allocatedIn queueHeap (entriesOf queueCalls) /\
  GetBottleneckType
    (snd (runAddMetrics queueCalls (queueHeap, NewStorageAnalyzer [WithMaxHistoryPerPod 2])))
    "b" = analyzeBottleneck (snapshot "b" 9 9 2).
Proof.
  split; [exact capacityTwo_is_option|].
  split; [exact queueCalls_allocated|].
  exact (GetBottleneckType_of_last_added [WithMaxHistoryPerPod 2] queueCalls queueHeap "b"
           capacityTwo_is_option queueCalls_allocated).
Defined.

(** X3. The anomaly flag stored for a pod is never stale: after any
    sequence of [AddMetrics] calls, [HasAnomalyDetected] returns for every
    pod what [detectAnomaly] computes on the histories as they now stand
    (false for a pod without history). *)
Theorem HasAnomalyDetected_current
    (options : list (StorageAnalyzer -> StorageAnalyzer))
    (calls : list (list (string * ptr))) (hp0 : Heap) (podName : string)
    (Hoptions : Forall is_option options)
    (Hallocated : allocatedIn hp0 (entriesOf calls)) :
  let st := runAddMetrics calls (hp0, NewStorageAnalyzer options) in
  HasAnomalyDetected (snd st) podName = detectAnomaly (fst st) (snd st) podName /\
  (addedFor hp0 podName (entriesOf calls) = [] ->
   HasAnomalyDetected (snd st) podName = false).
Proof.
  intros st. unfold st. rewrite runAddMetrics_entries.
  destruct (tracks_run hp0 options (entriesOf calls) Hoptions Hallocated)
    as (_ & _ & _ & _ & Hval & _ & Han).
  unfold HasAnomalyDetected. rewrite Han.
  destruct (last (historyOf _ podName)) as [q|] eqn:Hlast; simpl.
  - split; [reflexivity|]. intros Hnone.
    specialize (Hval podName). rewrite Hnone in Hval.
    apply last_Some in Hlast as [rest Hrest]. rewrite Hrest in Hval.
    unfold lastN in Hval. rewrite drop_nil, fmap_app in Hval.
    destruct (load _ <$> rest); discriminate Hval.
  - split; [|reflexivity].
    apply last_None in Hlast. unfold detectAnomaly.
    unfold historyOf in Hlast.
    destruct (metricsHistory _ !! podName) as [history|]; [|reflexivity].
    simpl in Hlast. rewrite Hlast. reflexivity.
Qed.

Lemma HasAnomalyDetected_current_witness :
  Forall is_option [WithMaxHistoryPerPod 2] /\
  allocatedIn queueHeap (entriesOf queueCalls) /\
  HasAnomalyDetected
    (snd (runAddMetrics queueCalls (queueHeap, NewStorageAnalyzer [WithMaxHistoryPerPod 2])))
    "c" = false.
Proof.
  split; [exact capacityTwo_is_option|].
  split; [exact queueCalls_allocated|].
  apply (HasAnomalyDetected_current [WithMaxHistoryPerPod 2] queueCalls queueHeap "c"
           capacityTwo_is_option queueCalls_allocated).
  reflexivity.
Defined.



Lemma AddMetrics_untouched (metrics : list (string * ptr)) :
  forall (st : Heap * StorageAnalyzer) (podName : string),
    podName ∉ metrics.*1 ->
    metricsHistory (snd (AddMetrics metrics st)) !! podName
    = metricsHistory (snd st) !! podName /\
    GetBottleneckType (snd (AddMetrics metrics st)) podName
    = GetBottleneckType (snd st) podName /\
    HasAnomalyDetected (snd (AddMetrics metrics st)) podName
    = HasAnomalyDetected (snd st) podName /\
    maxHistoryPerPod (snd (AddMetrics metrics st)) = maxHistoryPerPod (snd st) /\
    anomalyThreshold (snd (AddMetrics metrics st)) = anomalyThreshold (snd st) /\
    (forall p, (p < length (fst st))%nat ->
       load (fst (AddMetrics metrics st)) p = load (fst st) p).
Proof.
  unfold AddMetrics.
  induction metrics as [|[k p] rest IH]; intros [hp sa] podName Hother.
  - simpl. repeat (split; [reflexivity|]). intros; reflexivity.
  - rewrite fmap_cons in Hother. apply not_elem_of_cons in Hother as [Hne Hrest].
    simpl in Hne. cbn [fold_left].
    destruct (IH (addOne (hp, sa) (k, p)) podName Hrest) as (Hh & Hb & Ha & Hm & Ht & Hl).
    rewrite Hh, Hb, Ha, Hm, Ht.
    unfold GetBottleneckType, HasAnomalyDetected. cbn.
    rewrite !lookup_insert_ne by (intros Heq; apply Hne; symmetry; exact Heq).
    repeat (split; [reflexivity|]).
    intros x Hx. rewrite Hl.
    + apply load_app_l. exact Hx.
    + cbn. rewrite length_app. simpl. cbn in Hx. lia.
Qed.

(** X5. A call of [AddMetrics] touches only the pods it is given: the
    history, the bottleneck type and the anomaly flag of every other pod
    stay as they were, the configuration is unchanged, and no object that
    existed before the call is overwritten. *)
Theorem AddMetrics_frame (metrics : list (string * ptr)) (st : Heap * StorageAnalyzer)
    (podName : string) (Hother : podName ∉ metrics.*1) :
  let st' := AddMetrics metrics st in
  metricsHistory (snd st') !! podName = metricsHistory (snd st) !! podName /\
  GetBottleneckType (snd st') podName = GetBottleneckType (snd st) podName /\
  HasAnomalyDetected (snd st') podName = HasAnomalyDetected (snd st) podName /\
  maxHistoryPerPod (snd st') = maxHistoryPerPod (snd st) /\
  anomalyThreshold (snd st') = anomalyThreshold (snd st) /\
  (forall p, (p < length (fst st))%nat -> load (fst st') p = load (fst st) p).
Proof. exact (AddMetrics_untouched metrics st podName Hother). Qed.

Lemma AddMetrics_frame_witness :
  ("b" ∉ [("a", 0%nat)].*1) /\
  GetBottleneckType (snd (AddMetrics [("a", 0%nat)] afterOneCall)) "b"
  = GetBottleneckType (snd afterOneCall) "b".
Proof.
  assert (H : "b" ∉ [("a", 0%nat)].*1).
  { simpl. intros Hin. apply list_elem_of_singleton in Hin. discriminate Hin. }
  split; [exact H|].
  exact (proj1 (proj2 (AddMetrics_frame [("a", 0%nat)] afterOneCall "b" H))).
Defined.

(** X6. For every list of options that are each built by
    [WithMaxHistoryPerPod] or [WithAnomalyThreshold], with any arguments,
    [NewStorageAnalyzer] returns an analyzer without history that answers
    [unknown] and no anomaly for every pod, with a capacity of at least
    one and a threshold above zero; a later option overrides an earlier
    one, and a non-positive capacity or a threshold that is not above zero
    (NaN included) is ignored.  Functions a caller writes itself are not
    covered. *)
Theorem NewStorageAnalyzer_options
    (options : list (StorageAnalyzer -> StorageAnalyzer))
    (Hoptions : Forall is_option options) :
  let sa := NewStorageAnalyzer options in
  1 <= maxHistoryPerPod sa /\
  Float64.gtb (anomalyThreshold sa) 0 = true /\
  (forall podName,
     historyOf sa podName = [] /\
     GetBottleneckType sa podName = BottleneckTypeUnknown /\
     HasAnomalyDetected sa podName = false) /\
  (forall max,
     maxHistoryPerPod (NewStorageAnalyzer (options ++ [WithMaxHistoryPerPod max])) =
     if 0 <? max then max else maxHistoryPerPod sa) /\
  (forall threshold,
     anomalyThreshold (NewStorageAnalyzer (options ++ [WithAnomalyThreshold threshold])) =
     if Float64.gtb threshold 0 then threshold else anomalyThreshold sa) /\
  (options = [] -> maxHistoryPerPod sa = 100 /\ anomalyThreshold sa = 2%float).
Proof.
  intros sa.
  destruct (NewStorageAnalyzer_configured options Hoptions) as [[Hcap Hthr] Hhist].
  destruct (NewStorageAnalyzer_empty options Hoptions) as [Hbn Han].
  split; [exact Hcap|]. split; [exact Hthr|].
  split; [|split; [|split]].
  - intros podName. unfold historyOf, GetBottleneckType, HasAnomalyDetected.
    unfold sa. rewrite Hhist, Hbn, Han, !lookup_empty. repeat split.
  - intros max. unfold NewStorageAnalyzer. rewrite fold_left_app. simpl.
    fold (NewStorageAnalyzer options). fold sa.
    unfold WithMaxHistoryPerPod. destruct (0 <? max); reflexivity.
  - intros threshold. unfold NewStorageAnalyzer. rewrite fold_left_app. simpl.
    fold (NewStorageAnalyzer options). fold sa.
    unfold WithAnomalyThreshold. destruct (Float64.gtb threshold 0); reflexivity.
  - intros ->. split; reflexivity.
Qed.

Lemma NewStorageAnalyzer_options_witness :
  Forall is_option [WithMaxHistoryPerPod 2] /\
  maxHistoryPerPod
    (NewStorageAnalyzer ([WithMaxHistoryPerPod 2] ++ [WithMaxHistoryPerPod (-1)])) = 2.
Proof.
  split; [exact capacityTwo_is_option|].
  exact (proj1 (proj2 (proj2 (proj2
           (NewStorageAnalyzer_options [WithMaxHistoryPerPod 2] capacityTwo_is_option))))
           (-1)).
Defined.

End HistoryContents.

(* ===================================================================== *)
(** * The reference snapshot of the trend *)
(* ===================================================================== *)

Section TrendBaseline.
Import Monitor Analyzer Spec Examples Float64.

Lemma lookup_latest (hp : Heap) (ptrs : list ptr) :
  ptrs <> [] ->
  (load hp <$> ptrs) !! (length ptrs - 1)%nat = Some (load hp (latestOf ptrs)).
Proof.
  intros Hne. unfold latestOf.
  destruct (last ptrs) as [q|] eqn:Hlast.
  - apply last_Some in Hlast as [rest ->].
    rewrite fmap_app, length_app. simpl.
    rewrite lookup_app_r by (rewrite length_fmap; lia).
    rewrite length_fmap.
    replace (length rest + 1 - 1 - length rest)%nat with 0%nat by lia.
    reflexivity.
  - apply last_None in Hlast. contradiction.
Qed.

Lemma zero_over_small (z : Z) :
  0 < z < 2 ^ 53 -> (0 / of_Z z)%float = 0%float.
Proof.
  intros Hz. apply Prim2SF_inj. rewrite div_spec.
  destruct z as [|p|p]; [lia| |lia].
  rewrite Prim2SF_of_Z_pos by lia. reflexivity.
Qed.

(** X7. The snapshot [GetLatencyTrend] measures from.  With a history of
    at least two snapshots the result is the change from [history[i]] to
    the latest snapshot, where [i] is the last position whose timestamp is
    before [now - duration]; when no snapshot is that old, [i] is 0.  Every
    snapshot after position [i] lies at or after [now - duration]. *)
Theorem GetLatencyTrend_reference
    (hp : Heap) (sa : StorageAnalyzer) (now : Z) (podName : string) (duration : Z)
    (ptrs : list ptr)
    (Hhistory : metricsHistory sa !! podName = Some ptrs)
    (Hlen : (2 <= length ptrs)%nat) :
  let history := load hp <$> ptrs in
  let startTime := now + wrap_int64 (- duration) in
  exists (i : nat) (old latest : PodStorageMetrics),
    history !! i = Some old /\
    last history = Some latest /\
    GetLatencyTrend hp sa now podName duration = trendBetween old latest /\
    (forall j m, (i < j)%nat -> history !! j = Some m -> startTime <= Timestamp m) /\
    (Timestamp old < startTime \/
     (i = 0%nat /\ forall m, m ∈ history -> startTime <= Timestamp m)).
Proof.
  intros history startTime.
  assert (Hne : ptrs <> []) by (intros ->; simpl in Hlen; lia).
  assert (Hlast : last history = Some (load hp (latestOf ptrs))).
  { unfold history. rewrite last_lookup, length_fmap.
    replace (Nat.pred (length ptrs)) with (length ptrs - 1)%nat by lia.
    apply lookup_latest. exact Hne. }
  unfold GetLatencyTrend. rewrite Hhistory.
  destruct (Nat.ltb_spec (length ptrs) 2) as [Hshort|_]; [lia|].
  cbv zeta. fold history. fold startTime.
  pose proof (findBefore_newest_before history startTime (length history) (le_n _))
    as Hfind.
  destruct (findBefore history startTime (length history)) as [m|].
  - destruct Hfind as (i & Hi & Hm & Hbefore & Hafter).
    exists i, m, (load hp (latestOf ptrs)).
    split; [exact Hm|]. split; [exact Hlast|]. split; [reflexivity|].
    split; [|left; exact Hbefore].
    intros j m' Hj Hm'. apply (Hafter j m'); [|exact Hm'].
    split; [exact Hj|]. eapply lookup_lt_Some, Hm'.
  - exists 0%nat, (load hp (default 0%nat (head ptrs))), (load hp (latestOf ptrs)).
    assert (Hall : forall m, m ∈ history -> startTime <= Timestamp m).
    { intros m Hm. apply list_elem_of_lookup in Hm as [j Hj].
      apply (Hfind j m); [|exact Hj]. eapply lookup_lt_Some, Hj. }
    split.
    { unfold history. destruct ptrs as [|p rest]; [contradiction|]. reflexivity. }
    split; [exact Hlast|]. split; [reflexivity|].
    split; [|right; split; [reflexivity | exact Hall]].
    intros j m _ Hm. apply Hall. eapply list_elem_of_lookup_2, Hm.
Qed.

Lemma GetLatencyTrend_reference_witness :
  metricsHistory (snd trendState) !! "a" = Some (historyOf (snd trendState) "a") /\
  (2 <= length (historyOf (snd trendState) "a"))%nat /\
  exists (i : nat) (old latest : PodStorageMetrics),
    (load (fst trendState) <$> historyOf (snd trendState) "a") !! i = Some old /\
    last (load (fst trendState) <$> historyOf (snd trendState) "a") = Some latest /\
    GetLatencyTrend (fst trendState) (snd trendState) 350 "a" 200 = trendBetween old latest /\
    (forall j m, (i < j)%nat ->
       (load (fst trendState) <$> historyOf (snd trendState) "a") !! j = Some m ->
       350 + wrap_int64 (- 200) <= Timestamp m) /\
    (Timestamp old < 350 + wrap_int64 (- 200) \/
     (i = 0%nat /\
      forall m, m ∈ load (fst trendState) <$> historyOf (snd trendState) "a" ->
                350 + wrap_int64 (- 200) <= Timestamp m)).
Proof.
  assert (H1 : metricsHistory (snd trendState) !! "a"
               = Some (historyOf (snd trendState) "a")) by reflexivity.
  assert (H2 : (2 <= length (historyOf (snd trendState) "a"))%nat) by (vm_compute; lia).
  split; [exact H1|]. split; [exact H2|].
  exact (GetLatencyTrend_reference (fst trendState) (snd trendState) 350 "a" 200
           (historyOf (snd trendState) "a") H1 H2).
Defined.

(** X8. When even the latest snapshot is older than [now - duration], the
    loop picks the latest snapshot itself as the reference, and the trend
    is [stable] with a change of 0 (combined latency below 2^53). *)
Theorem GetLatencyTrend_stale_history
    (hp : Heap) (sa : StorageAnalyzer) (now : Z) (podName : string) (duration : Z)
    (ptrs : list ptr)
    (Hhistory : metricsHistory sa !! podName = Some ptrs)
    (Hlen : (2 <= length ptrs)%nat)
    (Hstale : Timestamp (load hp (latestOf ptrs)) < now + wrap_int64 (- duration))
    (Hsmall : totalLatencyOf (load hp (latestOf ptrs)) < 2 ^ 53) :
  GetLatencyTrend hp sa now podName duration = mkTrend "stable" 0%float None.
Proof.
  assert (Hne : ptrs <> []) by (intros ->; simpl in Hlen; lia).
  unfold GetLatencyTrend. rewrite Hhistory.
  destruct (Nat.ltb_spec (length ptrs) 2) as [Hshort|_]; [lia|].
  cbv zeta. rewrite length_fmap.
  pose proof (lookup_latest hp ptrs Hne) as Hlatest.
  destruct (length ptrs) as [|k] eqn:Hk; [lia|].
  replace (S k - 1)%nat with k in Hlatest by lia.
  cbn [findBefore]. rewrite Hlatest.
  destruct (Z.ltb_spec (Timestamp (load hp (latestOf ptrs)))
              (now + wrap_int64 (- duration))) as [_|Hge]; [|lia].
  unfold trendBetween. cbv zeta.
  set (total := totalLatencyOf (load hp (latestOf ptrs))) in *.
  assert (Hnonneg : 0 <= total).
  { unfold total, totalLatencyOf, wrap64. apply Z.mod_pos_bound. lia. }
  destruct (Z.eqb_spec total 0) as [Hzero|Hpos].
  - destruct (Z.gtb_spec total 0) as [Hgt|_]; [lia | reflexivity].
  - rewrite sub_self_small by lia. rewrite zero_over_small by lia.
    reflexivity.
Qed.

Lemma GetLatencyTrend_stale_history_witness :
  metricsHistory (snd trendState) !! "a" = Some (historyOf (snd trendState) "a") /\
  (2 <= length (historyOf (snd trendState) "a"))%nat /\
  GetLatencyTrend (fst trendState) (snd trendState) 1000 "a" 200
  = mkTrend "stable" 0%float None.
Proof.
  assert (H1 : metricsHistory (snd trendState) !! "a"
               = Some (historyOf (snd trendState) "a")) by reflexivity.
  assert (H2 : (2 <= length (historyOf (snd trendState) "a"))%nat) by (vm_compute; lia).
  split; [exact H1|]. split; [exact H2|].
  apply (GetLatencyTrend_stale_history (fst trendState) (snd trendState) 1000 "a" 200
           (historyOf (snd trendState) "a") H1 H2).
  - vm_compute. reflexivity.
  - vm_compute. reflexivity.
Defined.

End TrendBaseline.

(* ===================================================================== *)
(** * The monitor's own rankings *)
(* ===================================================================== *)

Section ExchangeSort.
Import Monitor.
Variable key : ptr -> Z.

Lemma swapIfLess_middle (pre done todo : list ptr) (x y : ptr) :
  swapIfLess key (length pre) (length pre + 1 + length done)
    (pre ++ x :: done ++ y :: todo) =
  if key x <? key y then pre ++ y :: done ++ x :: todo
  else pre ++ x :: done ++ y :: todo.
Proof.
  unfold swapIfLess.
  rewrite (list_lookup_middle pre (done ++ y :: todo) x (length pre) eq_refl).
  assert (Hj : (pre ++ x :: done ++ y :: todo) !! (length pre + 1 + length done)%nat
               = Some y).
  { replace (pre ++ x :: done ++ y :: todo) with ((pre ++ x :: done) ++ y :: todo)
      by (rewrite <- app_assoc; reflexivity).
    apply list_lookup_middle. rewrite length_app. simpl. lia. }
  rewrite Hj. destruct (key x <? key y); [|reflexivity].
  replace (length pre) with (length pre + 0)%nat at 2 by lia.
  rewrite insert_app_r. simpl.
  replace (pre ++ y :: done ++ y :: todo) with ((pre ++ y :: done) ++ y :: todo)
    by (rewrite <- app_assoc; reflexivity).
  replace (length pre + 1 + length done)%nat with (length (pre ++ y :: done) + 0)%nat
    by (rewrite length_app; simpl; lia).
  rewrite insert_app_r. simpl. rewrite <- app_assoc. reflexivity.
Qed.

(** The inner loop, started with the part [done] of the slice behind
    position [i] already visited: the slice keeps its elements, and the
    element left at [i] is greatest among those visited from here on. *)
Lemma innerLoop_from (pre : list ptr) :
  forall (todo done : list ptr) (x : ptr),
    exists (m : ptr) (rest : list ptr),
      fold_left (fun pods j => swapIfLess key (length pre) j pods)
        (seq (length pre + 1 + length done) (length todo))
        (pre ++ x :: done ++ todo)
      = pre ++ m :: done ++ rest /\
      m :: rest ≡ₚ x :: todo /\
      key x <= key m /\
      (forall y, y ∈ rest -> key y <= key m).
Proof.
  induction todo as [|y todo IH]; intros done x.
  - exists x, []. simpl. split; [reflexivity|]. split; [reflexivity|].
    split; [lia|]. intros y Hy. inversion Hy.
  - cbn [length seq fold_left]. rewrite swapIfLess_middle.
    destruct (Z.ltb_spec (key x) (key y)) as [Hlt|Hge].
    + destruct (IH (done ++ [x]) y) as (m & rest & Hfold & Hperm & Hkey & Hmax).
      exists m, (x :: rest).
      rewrite length_app in Hfold. simpl in Hfold.
      replace (length pre + 1 + (length done + 1))%nat
        with (S (length pre + 1 + length done)) in Hfold by lia.
      rewrite <- !app_assoc in Hfold. simpl in Hfold.
      split; [exact Hfold|]. split.
      * etransitivity; [apply Permutation_swap|]. constructor. exact Hperm.
      * split; [lia|]. intros z Hz. apply elem_of_cons in Hz as [->|Hz]; [lia|].
        apply Hmax. exact Hz.
    + destruct (IH (done ++ [y]) x) as (m & rest & Hfold & Hperm & Hkey & Hmax).
      exists m, (y :: rest).
      rewrite length_app in Hfold. simpl in Hfold.
      replace (length pre + 1 + (length done + 1))%nat
        with (S (length pre + 1 + length done)) in Hfold by lia.
      rewrite <- !app_assoc in Hfold. simpl in Hfold.
      split; [exact Hfold|]. split.
      * etransitivity; [apply Permutation_swap|].
        etransitivity; [|apply Permutation_swap]. constructor. exact Hperm.
      * split; [exact Hkey|]. intros z Hz.
        apply elem_of_cons in Hz as [->|Hz]; [lia|]. apply Hmax. exact Hz.
Qed.

Lemma innerLoop_selects (pre rest : list ptr) (x : ptr) :
  exists (m : ptr) (rest' : list ptr),
    innerLoop key (pre ++ x :: rest) (length pre) = pre ++ m :: rest' /\
    m :: rest' ≡ₚ x :: rest /\
    (forall y, y ∈ rest' -> key y <= key m).
Proof.
  destruct (innerLoop_from pre rest [] x) as (m & rest' & Hfold & Hperm & _ & Hmax).
  exists m, rest'. split; [|split; [exact Hperm | exact Hmax]].
  unfold innerLoop. rewrite length_app. simpl length.
  replace (length pre + S (length rest) - (length pre + 1))%nat with (length rest) by lia.
  simpl in Hfold. rewrite Nat.add_0_r in Hfold. exact Hfold.
Qed.

(** The outer loop from position [length pre] on: the part behind it
    comes out as a descending permutation of what it was. *)
Lemma sortDescending_from (n : nat) :
  forall (pre suffix : list ptr),
    length suffix = n ->
    exists sorted,
      fold_left (innerLoop key) (seq (length pre) (n - 1)) (pre ++ suffix)
      = pre ++ sorted /\
      sorted ≡ₚ suffix /\
      StronglySorted (fun a b => key b <= key a) sorted.
Proof.
  induction n as [|n IH]; intros pre suffix Hlen.
  - destruct suffix; [|discriminate Hlen]. exists []. simpl.
    split; [reflexivity|]. split; [reflexivity | constructor].
  - destruct suffix as [|x rest]; [discriminate Hlen|].
    simpl in Hlen. injection Hlen as Hlen.
    destruct n as [|n].
    + destruct rest; [|discriminate Hlen]. exists [x]. simpl.
      split; [reflexivity|]. split; [reflexivity|].
      constructor; [constructor | constructor].
    + replace (S (S n) - 1)%nat with (S n) by lia.
      cbn [seq fold_left].
      destruct (innerLoop_selects pre rest x) as (m & rest' & Hinner & Hperm & Hmax).
      rewrite Hinner.
      assert (Hlen' : length rest' = S n).
      { apply Permutation_length in Hperm. simpl in Hperm. lia. }
      destruct (IH (pre ++ [m]) rest' Hlen') as (sorted & Hfold & Hperm' & Hsorted).
      rewrite length_app in Hfold. simpl in Hfold.
      replace (length pre + 1)%nat with (S (length pre)) in Hfold by lia.
      rewrite Nat.sub_0_r in Hfold.
      rewrite <- !app_assoc in Hfold. simpl in Hfold.
      exists (m :: sorted). split.
      * exact Hfold.
      * split.
        -- rewrite <- Hperm. constructor. exact Hperm'.
        -- constructor; [exact Hsorted|].
           apply Forall_forall. intros y Hy. apply Hmax. rewrite <- Hperm'. exact Hy.
Qed.

Lemma sortDescending_sorts (pods : list ptr) :
  sortDescending key pods ≡ₚ pods /\
  StronglySorted (fun a b => key b <= key a) (sortDescending key pods).
Proof.
  destruct (sortDescending_from (length pods) [] pods eq_refl)
    as (sorted & Hfold & Hperm & Hsorted).
  unfold sortDescending. simpl in Hfold. rewrite Hfold.
  split; [exact Hperm | exact Hsorted].
Qed.

End ExchangeSort.

Section MonitorRanking.
Import Monitor Examples.

Lemma copyPods_fresh (values : list ptr) (hp0 : Heap) :
  (forall p, p ∈ values -> (p < length hp0)%nat) ->
  forall (acc : list ptr) (extra : Heap),
    fold_left copyPod values (acc, hp0 ++ extra) =
    (acc ++ seq (length hp0 + length extra) (length values),
     hp0 ++ extra ++ (load hp0 <$> values)).
Proof.
  induction values as [|p rest IH]; intros Halloc acc extra.
  - simpl. rewrite !app_nil_r. reflexivity.
  - cbn [fold_left copyPod new].
    assert (Hp : (p < length hp0)%nat) by (apply Halloc; left).
    rewrite (load_app_l hp0 extra p Hp).
    rewrite <- app_assoc.
    rewrite IH by (intros q Hq; apply Halloc; right; exact Hq).
    rewrite !length_app. simpl.
    rewrite <- !app_assoc. simpl.
    replace (length hp0 + (length extra + 1))%nat
      with (S (length hp0 + length extra)) by lia.
    reflexivity.
Qed.

Lemma load_copies (hp : Heap) (vals : list PodStorageMetrics) :
  load (hp ++ vals) <$> seq (length hp) (length vals) = vals.
Proof.
  apply list_eq. intros i. rewrite list_lookup_fmap.
  destruct (decide (i < length vals)%nat) as [Hlt|Hge].
  - rewrite lookup_seq_lt by exact Hlt. simpl.
    unfold load. rewrite lookup_app_r by lia.
    replace (length hp + i - length hp)%nat with i by lia.
    destruct (lookup_lt_is_Some_2 vals i Hlt) as [v Hv]. rewrite Hv. reflexivity.
  - rewrite lookup_seq_ge by lia. simpl. symmetry. apply lookup_ge_None. lia.
Qed.

(** The two rankings of the monitor, for either key. *)
Lemma topPodsBy_ranked (key : PodStorageMetrics -> Z) (values : list ptr) (hp : Heap)
    (n : Z) :
  (forall p, p ∈ values -> (p < length hp)%nat) ->
  snd (topPodsBy key values hp n) = hp ++ (load hp <$> values) /\
  (n < 0 -> fst (topPodsBy key values hp n) = None) /\
  (0 <= n ->
   exists ranked,
     fst (topPodsBy key values hp n) = Some (take (Z.to_nat n) ranked) /\
     ranked ≡ₚ seq (length hp) (length values) /\
     load (snd (topPodsBy key values hp n)) <$> ranked ≡ₚ load hp <$> values /\
     StronglySorted (fun a b => key b <= key a)
       (load (snd (topPodsBy key values hp n)) <$> ranked)).
Proof.
  intros Halloc. unfold topPodsBy.
  pose proof (copyPods_fresh values hp Halloc [] []) as Hcopy.
  rewrite app_nil_r in Hcopy. rewrite Hcopy. simpl app.
  rewrite Nat.add_0_r.
  set (hp1 := hp ++ (load hp <$> values)).
  set (pods := seq (length hp) (length values)).
  destruct (sortDescending_sorts (fun p => key (load hp1 p)) pods) as [Hperm Hsorted].
  set (ranked := sortDescending (fun p => key (load hp1 p)) pods) in *.
  set (n' := if n >? Z.of_nat (length ranked) then Z.of_nat (length ranked) else n).
  assert (Hn' : n' <= n /\ (n < 0 -> n' < 0) /\ (0 <= n -> 0 <= n') /\
                take (Z.to_nat n') ranked = take (Z.to_nat n) ranked).
  { unfold n'. destruct (Z.gtb_spec n (Z.of_nat (length ranked))) as [Hgt|Hle].
    - split; [lia|]. split; [lia|]. split; [lia|].
      rewrite !take_ge by lia. reflexivity.
    - split; [lia|]. split; [lia|]. split; [lia | reflexivity]. }
  destruct Hn' as (_ & Hneg & Hpos & Htake).
  split; [destruct (n' <? 0); reflexivity|].
  split.
  - intros Hn. destruct (Z.ltb_spec n' 0) as [_|Hge]; [reflexivity|].
    specialize (Hneg Hn). lia.
  - intros Hn. destruct (Z.ltb_spec n' 0) as [Hlt|_]; [specialize (Hpos Hn); lia|].
    exists ranked. cbn [fst snd].
    split; [rewrite Htake; reflexivity|].
    split; [exact Hperm|].
    split.
    + rewrite Hperm. unfold pods, hp1.
      rewrite <- (length_fmap (load hp) values). rewrite load_copies. reflexivity.
    + apply (StronglySorted_fmap (load hp1)
               (fun a b => key (load hp1 b) <= key (load hp1 a))
               (fun a b => key b <= key a)); [|exact Hsorted].
      intros a b Hab. exact Hab.
Qed.

Lemma monitorOf_allocated :
  forall podName p, metrics monitorOf !! podName = Some p -> (p < length monitorHeap)%nat.
Proof.
  intros podName p H. unfold monitorOf in H. simpl in H.
  repeat (apply lookup_insert_Some in H as [[_ <-]|[_ H]]; [simpl; lia|]).
  rewrite lookup_empty in H. discriminate H.
Qed.

Lemma values_allocated (hp : Heap) (sm : StorageMonitor) (values : list ptr) :
  (forall podName p, metrics sm !! podName = Some p -> (p < length hp)%nat) ->
  values ≡ₚ (map_to_list (metrics sm)).*2 ->
  forall p, p ∈ values -> (p < length hp)%nat.
Proof.
  intros Halloc Horder p Hp. rewrite Horder in Hp.
  apply list_elem_of_fmap in Hp as [[k q] [-> Hkq]].
  apply elem_of_map_to_list in Hkq. apply (Halloc k q Hkq).
Qed.

(** X9. [GetTopIOPSPods] returns the first [n] of the stored metrics
    ranked by [ReadIOPS + WriteIOPS] (a 64-bit sum), highest first,
    whatever the order in which the map is ranged over: the hand-written
    loops sort every copy, nothing is lost or duplicated, all are returned
    when [n] exceeds their number, and a negative [n] panics.  What is
    returned are copies: fresh objects, with the stored ones left as they
    were. *)
Theorem GetTopIOPSPods_ranked (hp : Heap) (sm : StorageMonitor) (n : Z)
    (values : list ptr)
    (Hallocated : forall podName p, metrics sm !! podName = Some p ->
                                    (p < length hp)%nat)
    (Horder : values ≡ₚ (map_to_list (metrics sm)).*2) :
  let out := GetTopIOPSPods_in values hp n in
  (n < 0 -> fst out = None) /\
  (0 <= n ->
   exists ranked,
     fst out = Some (take (Z.to_nat n) ranked) /\
     load (snd out) <$> ranked ≡ₚ load hp <$> (map_to_list (metrics sm)).*2 /\
     StronglySorted (fun a b => totalIOPS b <= totalIOPS a) (load (snd out) <$> ranked) /\
     length (take (Z.to_nat n) ranked) = Nat.min (Z.to_nat n) (size (metrics sm)) /\
     (forall q, q ∈ ranked -> (length hp <= q)%nat)) /\
  (forall p, (p < length hp)%nat -> load (snd out) p = load hp p).
Proof.
  intros out. unfold out, GetTopIOPSPods_in.
  destruct (topPodsBy_ranked totalIOPS values hp n
              (values_allocated hp sm values Hallocated Horder)) as (Hheap & Hneg & Hpos).
  split; [exact Hneg|]. split.
  - intros Hn. destruct (Hpos Hn) as (ranked & Hres & Hperm & Hvals & Hsorted).
    exists ranked. split; [exact Hres|].
    split; [rewrite Hvals, Horder; reflexivity|].
    split; [exact Hsorted|]. split.
    + rewrite length_take. f_equal.
      rewrite (Permutation_length Hperm), length_seq, (Permutation_length Horder),
        length_fmap.
      apply length_map_to_list.
    + intros q Hq. rewrite Hperm in Hq. apply elem_of_seq in Hq. lia.
  - intros p Hp. rewrite Hheap. apply load_app_l. exact Hp.
Qed.

Lemma GetTopIOPSPods_ranked_witness :
  (forall podName p, metrics monitorOf !! podName = Some p ->
                     (p < length monitorHeap)%nat) /\
  (map_to_list (metrics monitorOf)).*2 ≡ₚ (map_to_list (metrics monitorOf)).*2 /\
  load (snd (GetTopIOPSPods monitorHeap monitorOf 2)) 1%nat = rates "b" 30 1 1 1.
Proof.
  assert (Horder : (map_to_list (metrics monitorOf)).*2
                   ≡ₚ (map_to_list (metrics monitorOf)).*2) by reflexivity.
  split; [exact monitorOf_allocated|]. split; [exact Horder|].
  apply (GetTopIOPSPods_ranked monitorHeap monitorOf 2 _ monitorOf_allocated Horder).
  simpl. lia.
Defined.

(** X10. [GetTopThroughputPods] does the same with
    [ReadThroughput + WriteThroughput] as the key. *)
Theorem GetTopThroughputPods_ranked (hp : Heap) (sm : StorageMonitor) (n : Z)
    (values : list ptr)
    (Hallocated : forall podName p, metrics sm !! podName = Some p ->
                                    (p < length hp)%nat)
    (Horder : values ≡ₚ (map_to_list (metrics sm)).*2) :
  let out := GetTopThroughputPods_in values hp n in
  (n < 0 -> fst out = None) /\
  (0 <= n ->
   exists ranked,
     fst out = Some (take (Z.to_nat n) ranked) /\
     load (snd out) <$> ranked ≡ₚ load hp <$> (map_to_list (metrics sm)).*2 /\
     StronglySorted (fun a b => totalThroughput b <= totalThroughput a)
       (load (snd out) <$> ranked) /\
     length (take (Z.to_nat n) ranked) = Nat.min (Z.to_nat n) (size (metrics sm)) /\
     (forall q, q ∈ ranked -> (length hp <= q)%nat)) /\
  (forall p, (p < length hp)%nat -> load (snd out) p = load hp p).
Proof.
  intros out. unfold out, GetTopThroughputPods_in.
  destruct (topPodsBy_ranked totalThroughput values hp n
              (values_allocated hp sm values Hallocated Horder)) as (Hheap & Hneg & Hpos).
  split; [exact Hneg|]. split.
  - intros Hn. destruct (Hpos Hn) as (ranked & Hres & Hperm & Hvals & Hsorted).
    exists ranked. split; [exact Hres|].
    split; [rewrite Hvals, Horder; reflexivity|].
    split; [exact Hsorted|]. split.
    + rewrite length_take. f_equal.
      rewrite (Permutation_length Hperm), length_seq, (Permutation_length Horder),
        length_fmap.
      apply length_map_to_list.
    + intros q Hq. rewrite Hperm in Hq. apply elem_of_seq in Hq. lia.
  - intros p Hp. rewrite Hheap. apply load_app_l. exact Hp.
Qed.

Lemma GetTopThroughputPods_ranked_witness :
  (forall podName p, metrics monitorOf !! podName = Some p ->
                     (p < length monitorHeap)%nat) /\
  (map_to_list (metrics monitorOf)).*2 ≡ₚ (map_to_list (metrics monitorOf)).*2 /\
  load (snd (GetTopThroughputPods monitorHeap monitorOf 2)) 1%nat = rates "b" 30 1 1 1.
Proof.
  assert (Horder : (map_to_list (metrics monitorOf)).*2
                   ≡ₚ (map_to_list (metrics monitorOf)).*2) by reflexivity.
  split; [exact monitorOf_allocated|]. split; [exact Horder|].
  apply (GetTopThroughputPods_ranked monitorHeap monitorOf 2 _ monitorOf_allocated Horder).
  simpl. lia.
Defined.

End MonitorRanking.

(* ===================================================================== *)
(** * The collector *)
(* ===================================================================== *)

Section Collector.
Import Monitor Analyzer Examples.

Lemma modifiedAt_refl (hp : Heap) (p : ptr) : modifiedAt hp p (load hp p) hp.
Proof. split; [reflexivity|]. split; [reflexivity|]. intros; reflexivity. Qed.

Lemma modifiedAt_assign (hp0 hp : Heap) (p : ptr) (v : PodStorageMetrics)
    (set : PodStorageMetrics -> PodStorageMetrics) :
  (p < length hp0)%nat ->
  modifiedAt hp0 p v hp -> modifiedAt hp0 p (set v) (assign set p hp).
Proof.
  intros Hp (Hlen & Hval & Hother). unfold assign.
  split; [unfold store; rewrite length_insert; exact Hlen|].
  split.
  - rewrite load_store_eq by lia. rewrite Hval. reflexivity.
  - intros x Hx. rewrite load_store_ne by exact Hx. apply Hother. exact Hx.
Qed.

Lemma modifiedAt_eq (hp hp' : Heap) (p : ptr) (v w : PodStorageMetrics) :
  modifiedAt hp p v hp' -> v = w -> modifiedAt hp p w hp'.
Proof. intros H <-. exact H. Qed.

(** The assignments of the loop body, taken together. *)
Lemma assignments_refresh (now : Z) (data : collected) (podName : string)
    (hp : Heap) (p : ptr) :
  (p < length hp)%nat ->
  let hp1 := assign (setTimestamp now) p hp in
  let hp2 :=
    match ioStatsData data !! podName with
    | Some ioStats =>
        assign (setWriteLatency (Ebpf.WriteLatencyNs ioStats)) p
          (assign (setReadLatency (Ebpf.ReadLatencyNs ioStats)) p hp1)
    | None => hp1
    end in
  let hp3 :=
    match iopsData data !! podName with
    | Some iops =>
        assign (setWriteIOPS (index iops "write_iops")) p
          (assign (setReadIOPS (index iops "read_iops")) p hp2)
    | None => hp2
    end in
  let hp4 :=
    match throughputData data !! podName with
    | Some throughput =>
        assign (setWriteThroughput (index throughput "write_throughput_bps")) p
          (assign (setReadThroughput (index throughput "read_throughput_bps")) p hp3)
    | None => hp3
    end in
  let hp5 :=
    match diskLatencyData data !! podName with
    | Some diskLatency => assign (setDiskLatency diskLatency) p hp4
    | None => hp4
    end in
  let hp6 :=
    match queueLatencyData data !! podName with
    | Some queueLatency => assign (setQueueLatency queueLatency) p hp5
    | None => hp5
    end in
  modifiedAt hp p (refreshed now data podName (load hp p)) hp6.
Proof.
  intros Hp. cbv zeta. unfold refreshed.
  destruct (ioStatsData data !! podName) as [ioStats|];
    destruct (iopsData data !! podName) as [iops|];
    destruct (throughputData data !! podName) as [throughput|];
    destruct (diskLatencyData data !! podName) as [diskLatency|];
    destruct (queueLatencyData data !! podName) as [queueLatency|];
    (eapply modifiedAt_eq;
       [repeat (apply modifiedAt_assign; [exact Hp|]); apply modifiedAt_refl
       | destruct (load hp p); reflexivity]).
Qed.

Lemma collectPod_step (now : Z) (data : collected) (hp : Heap) (sm : StorageMonitor)
    (podName : string) :
  owned hp sm ->
  let st' := collectPod now data (hp, sm) podName in
  let p := match metrics sm !! podName with Some p0 => p0 | None => length hp end in
  metrics (snd st') = <[podName := p]> (metrics sm) /\
  namespace (snd st') = namespace sm /\
  interval (snd st') = interval sm /\
  (length hp <= length (fst st'))%nat /\
  (p < length (fst st'))%nat /\
  load (fst st') p = refreshed now data podName (previous hp sm podName) /\
  (forall x, x <> p -> (x < length hp)%nat -> load (fst st') x = load hp x).
Proof.
  intros Howned. unfold collectPod, previous.
  destruct (metrics sm !! podName) as [p0|] eqn:Hlookup.
  - destruct (Howned podName p0 Hlookup) as (Hp0 & _).
    cbv beta iota zeta.
    destruct (assignments_refresh now data podName hp p0 Hp0) as (Hlen & Hval & Hother).
    cbv zeta in Hlen, Hval, Hother. cbn [fst snd].
    split; [symmetry; apply insert_id; exact Hlookup|].
    split; [reflexivity|]. split; [reflexivity|].
    split; [rewrite Hlen; lia|]. split; [rewrite Hlen; exact Hp0|].
    split; [exact Hval|]. intros x Hx _. apply Hother. exact Hx.
  - cbv beta iota zeta delta [new].
    set (hp1 := hp ++ [mkMetrics podName (namespace sm) 0 0 0 0 0 0 0 0 0 0]).
    assert (Hq : (length hp < length hp1)%nat).
    { unfold hp1. rewrite length_app. simpl. lia. }
    destruct (assignments_refresh now data podName hp1 (length hp) Hq)
      as (Hlen & Hval & Hother).
    cbv zeta in Hlen, Hval, Hother. cbn [fst snd metrics namespace interval].
    split; [reflexivity|]. split; [reflexivity|]. split; [reflexivity|].
    split; [rewrite Hlen; lia|]. split; [rewrite Hlen; exact Hq|].
    split.
    + rewrite Hval. f_equal. unfold hp1, load.
      rewrite lookup_app_r by lia. rewrite Nat.sub_diag. reflexivity.
    + intros x Hx Hlt. rewrite Hother by exact Hx. apply load_app_l. exact Hlt.
Qed.

Lemma previous_owned (hp : Heap) (sm : StorageMonitor) (podName : string) :
  owned hp sm ->
  PodName (previous hp sm podName) = podName /\
  Namespace (previous hp sm podName) = namespace sm /\
  NetworkLatency (previous hp sm podName) = 0.
Proof.
  intros Howned. unfold previous.
  destruct (metrics sm !! podName) as [p|] eqn:Hlookup.
  - destruct (Howned podName p Hlookup) as (_ & Hname & Hns & Hnet).
    split; [exact Hname|]. split; [exact Hns | exact Hnet].
  - repeat split.
Qed.

Lemma refreshed_idempotent (now : Z) (data : collected) (podName : string)
    (m : PodStorageMetrics) :
  refreshed now data podName (refreshed now data podName m)
  = refreshed now data podName m.
Proof.
  unfold refreshed. simpl.
  destruct (ioStatsData data !! podName), (iopsData data !! podName),
    (throughputData data !! podName), (queueLatencyData data !! podName),
    (diskLatencyData data !! podName); reflexivity.
Qed.

(** The objects of two different pods are different objects. *)
Lemma owned_injective (hp : Heap) (sm : StorageMonitor) (k k' : string) (p : ptr) :
  owned hp sm -> metrics sm !! k = Some p -> metrics sm !! k' = Some p -> k = k'.
Proof.
  intros Howned Hk Hk'.
  destruct (Howned k p Hk) as (_ & Hname & _).
  destruct (Howned k' p Hk') as (_ & Hname' & _).
  rewrite <- Hname, <- Hname'. reflexivity.
Qed.

Lemma collectPods_effect (now : Z) (data : collected) (hp : Heap) (sm : StorageMonitor) :
  owned hp sm ->
  forall done,
    let st' := fold_left (collectPod now data) done (hp, sm) in
    owned (fst st') (snd st') /\
    namespace (snd st') = namespace sm /\
    interval (snd st') = interval sm /\
    (length hp <= length (fst st'))%nat /\
    (forall k, k ∈ done ->
       exists p, metrics (snd st') !! k = Some p /\
                 load (fst st') p = refreshed now data k (previous hp sm k)) /\
    (forall k, k ∉ done -> metrics (snd st') !! k = metrics sm !! k) /\
    (forall k p, metrics sm !! k = Some p -> metrics (snd st') !! k = Some p) /\
    (forall k p, metrics (snd st') !! k = Some p ->
       metrics sm !! k = Some p \/ (length hp <= p)%nat) /\
    (forall x, (x < length hp)%nat ->
       (forall k, k ∈ done -> metrics sm !! k <> Some x) ->
       load (fst st') x = load hp x).
Proof.
  intros Howned done. induction done as [|k done IH] using rev_ind.
  - simpl. split; [exact Howned|]. split; [reflexivity|]. split; [reflexivity|].
    split; [lia|]. split; [intros k Hk; inversion Hk|].
    split; [reflexivity|]. split; [intros k p H; exact H|].
    split; [intros k p H; left; exact H|]. reflexivity.
  - rewrite fold_left_app. cbn [fold_left].
    destruct (fold_left (collectPod now data) done (hp, sm)) as [hp1 sm1] eqn:Hfold.
    cbv zeta in IH. cbn [fst snd] in IH.
    destruct IH as (Howned1 & Hns1 & Hint1 & Hlen1 & Hlisted1 & Hunlisted1 & Hstable1
                    & Horigin1 & Huntouched1).
    pose proof (collectPod_step now data hp1 sm1 k Howned1) as Hstep.
    cbv zeta in Hstep.
    destruct (collectPod now data (hp1, sm1) k) as [hp2 sm2].
    cbn [fst snd] in Hstep. cbv zeta. cbn [fst snd].
    set (p := match metrics sm1 !! k with Some p0 => p0 | None => length hp1 end) in *.
    destruct Hstep as (Hmap & Hns2 & Hint2 & Hlen2 & Hp & Hval & Hother).
    destruct (previous_owned hp1 sm1 k Howned1) as (Hpn & Hpns & Hpnet).
    assert (Hdistinct : forall k' p', k' <> k -> metrics sm1 !! k' = Some p' ->
              p' <> p /\ (p' < length hp1)%nat).
    { intros k' p' Hne Hk'. destruct (Howned1 k' p' Hk') as (Hlt & _).
      split; [|exact Hlt]. intros ->. unfold p in Hk', Hlt.
      destruct (metrics sm1 !! k) as [p0|] eqn:Hk.
      - apply Hne. apply (owned_injective hp1 sm1 k' k p0 Howned1 Hk' Hk).
      - lia. }
    assert (Hprev : previous hp1 sm1 k = previous hp sm k \/
                    previous hp1 sm1 k = refreshed now data k (previous hp sm k)).
    { destruct (decide (k ∈ done)) as [Hin|Hnotin].
      - right. destruct (Hlisted1 k Hin) as (p1 & Hp1 & Hv1).
        unfold previous at 1. rewrite Hp1. exact Hv1.
      - left. unfold previous. rewrite (Hunlisted1 k Hnotin), Hns1.
        destruct (metrics sm !! k) as [p0|] eqn:Hk; [|reflexivity].
        apply Huntouched1.
        + apply (Howned k p0 Hk).
        + intros k' Hk' Heq. apply Hnotin.
          rewrite (owned_injective hp sm k k' p0 Howned Hk Heq). exact Hk'. }
    assert (Hvalue : load hp2 p = refreshed now data k (previous hp sm k)).
    { rewrite Hval. destruct Hprev as [-> | ->]; [reflexivity|].
      apply refreshed_idempotent. }
    split.
    { intros k' p' Hk'. rewrite Hmap in Hk'. rewrite Hns2.
      destruct (decide (k' = k)) as [->|Hne].
      - rewrite lookup_insert_eq in Hk'. injection Hk' as <-.
        split; [exact Hp|]. rewrite Hval. unfold refreshed. simpl.
        split; [exact Hpn|]. split; [exact Hpns | exact Hpnet].
      - rewrite lookup_insert_ne in Hk' by (intros Heq; apply Hne; symmetry; exact Heq).
        destruct (Hdistinct k' p' Hne Hk') as [Hneq Hlt].
        rewrite (Hother p' Hneq Hlt).
        destruct (Howned1 k' p' Hk') as (_ & Hrest).
        split; [lia | exact Hrest]. }
    split; [rewrite Hns2; exact Hns1|].
    split; [rewrite Hint2; exact Hint1|].
    split; [lia|].
    split.
    { intros k' Hk'. destruct (decide (k' = k)) as [->|Hne].
      - exists p. split; [rewrite Hmap; apply lookup_insert_eq | exact Hvalue].
      - apply elem_of_app in Hk' as [Hk'|Hk'];
          [|apply list_elem_of_singleton in Hk'; contradiction].
        destruct (Hlisted1 k' Hk') as (p1 & Hp1 & Hv1).
        exists p1. rewrite Hmap.
        rewrite lookup_insert_ne by (intros Heq; apply Hne; symmetry; exact Heq).
        split; [exact Hp1|].
        destruct (Hdistinct k' p1 Hne Hp1) as [Hneq Hlt].
        rewrite (Hother p1 Hneq Hlt). exact Hv1. }
    split.
    { intros k' Hk'. apply not_elem_of_app in Hk' as [Hk' Hne].
      apply not_elem_of_cons in Hne as [Hne _].
      rewrite Hmap. rewrite lookup_insert_ne by (intros Heq; apply Hne; symmetry; exact Heq).
      apply Hunlisted1. exact Hk'. }
    split.
    { intros k' p0 Hk'. specialize (Hstable1 k' p0 Hk'). rewrite Hmap.
      destruct (decide (k' = k)) as [->|Hne].
      - rewrite lookup_insert_eq. unfold p. rewrite Hstable1. reflexivity.
      - rewrite lookup_insert_ne by (intros Heq; apply Hne; symmetry; exact Heq).
        exact Hstable1. }
    assert (Horigin_p : (exists k0, metrics sm !! k0 = Some p /\ k0 = k) \/
                        (length hp <= p)%nat).
    { unfold p. destruct (metrics sm1 !! k) as [p0|] eqn:Hk.
      - destruct (Horigin1 k p0 Hk) as [Hsm|Hge]; [left; exists k; split; auto | right; exact Hge].
      - right. exact Hlen1. }
    split.
    { intros k' p' Hk'. rewrite Hmap in Hk'.
      destruct (decide (k' = k)) as [->|Hne].
      - rewrite lookup_insert_eq in Hk'. injection Hk' as <-.
        destruct Horigin_p as [(k0 & Hk0 & ->)|Hge]; [left; exact Hk0 | right; exact Hge].
      - rewrite lookup_insert_ne in Hk' by (intros Heq; apply Hne; symmetry; exact Heq).
        apply Horigin1. exact Hk'. }
    intros x Hx Hnot.
    assert (Hxp : x <> p).
    { intros ->. destruct Horigin_p as [(k0 & Hk0 & ->)|Hge]; [|lia].
      apply (Hnot k); [|exact Hk0].
      apply elem_of_app. right. apply list_elem_of_singleton. reflexivity. }
    rewrite (Hother x Hxp) by lia.
    apply Huntouched1; [exact Hx|].
    intros k' Hk'. apply Hnot. apply elem_of_app. left. exact Hk'.
Qed.

Lemma monitorOf_owned : owned monitorHeap monitorOf.
Proof.
  intros podName p H. unfold monitorOf in H. simpl in H.
  repeat (apply lookup_insert_Some in H as [[<- <-]|[_ H]];
          [split; [simpl; lia | repeat split]|]).
  rewrite lookup_empty in H. discriminate H.
Qed.

(** X11. A collection in which all six calls succeed: every listed pod
    has an object afterwards, the one it had before if it had one, whose
    fields are those fetched for the pod; a field for which nothing was
    fetched keeps the value it had (zero for a new pod), the network
    latency is never written, and the timestamp is the time of the
    collection. *)
Theorem collectMetrics_refreshes (now : Z) (data : collected) (hp : Heap)
    (sm : StorageMonitor) (Howned : owned hp sm) :
  let out := collectMetrics (inl (pods data)) (inl (ioStatsData data))
               (inl (iopsData data)) (inl (throughputData data))
               (inl (diskLatencyData data)) (inl (queueLatencyData data))
               now (hp, sm) in
  fst out = None /\
  namespace (snd (snd out)) = namespace sm /\
  forall podName, podName ∈ pods data ->
    exists p,
      metrics (snd (snd out)) !! podName = Some p /\
      (forall p0, metrics sm !! podName = Some p0 -> p = p0) /\
      load (fst (snd out)) p = refreshed now data podName (previous hp sm podName).
Proof.
  destruct data as [pods0 io0 iops0 tp0 disk0 queue0]. cbn [pods ioStatsData iopsData
    throughputData diskLatencyData queueLatencyData]. cbv zeta. unfold collectMetrics.
  cbn [fst snd].
  destruct (collectPods_effect now (mkCollected pods0 io0 iops0 tp0 disk0 queue0) hp sm
              Howned pods0)
    as (_ & Hns & _ & _ & Hlisted & _ & Hstable & _).
  cbv zeta in Hns, Hlisted, Hstable.
  split; [reflexivity|]. split; [exact Hns|].
  intros podName Hin. destruct (Hlisted podName Hin) as (p & Hp & Hval).
  exists p. split; [exact Hp|]. split; [|exact Hval].
  intros p0 Hp0. specialize (Hstable podName p0 Hp0). rewrite Hp in Hstable.
  injection Hstable as ->. reflexivity.
Qed.

Lemma collectMetrics_refreshes_witness :
  owned monitorHeap monitorOf /\
  namespace
    (snd (snd (collectMetrics (inl (pods fetched)) (inl (ioStatsData fetched))
                 (inl (iopsData fetched)) (inl (throughputData fetched))
                 (inl (diskLatencyData fetched)) (inl (queueLatencyData fetched))
                 50 (monitorHeap, monitorOf)))) = "default".
Proof.
  split; [exact monitorOf_owned|].
  exact (proj1 (proj2 (collectMetrics_refreshes 50 fetched monitorHeap monitorOf
                         monitorOf_owned))).
Defined.

(** X12. A collection never removes anything and never touches what it
    was not asked about: a pod that is not listed keeps its object with
    every field as it was, every pod that had an object keeps that very
    object, and objects that are not the monitor's (the copies handed out
    by the read operations among them) are left unchanged. *)
Theorem collectMetrics_keeps_others (now : Z) (data : collected) (hp : Heap)
    (sm : StorageMonitor) (Howned : owned hp sm) :
  let out := collectMetrics (inl (pods data)) (inl (ioStatsData data))
               (inl (iopsData data)) (inl (throughputData data))
               (inl (diskLatencyData data)) (inl (queueLatencyData data))
               now (hp, sm) in
  (forall podName p, metrics sm !! podName = Some p ->
     metrics (snd (snd out)) !! podName = Some p) /\
  (forall podName, podName ∉ pods data ->
     metrics (snd (snd out)) !! podName = metrics sm !! podName /\
     forall p, metrics sm !! podName = Some p -> load (fst (snd out)) p = load hp p) /\
  (forall x, (x < length hp)%nat -> (forall podName, metrics sm !! podName <> Some x) ->
     load (fst (snd out)) x = load hp x).
Proof.
  destruct data as [pods0 io0 iops0 tp0 disk0 queue0]. cbn [pods ioStatsData iopsData
    throughputData diskLatencyData queueLatencyData]. cbv zeta. unfold collectMetrics.
  cbn [fst snd].
  destruct (collectPods_effect now (mkCollected pods0 io0 iops0 tp0 disk0 queue0) hp sm
              Howned pods0)
    as (_ & _ & _ & _ & _ & Hunlisted & Hstable & _ & Huntouched).
  cbv zeta in Hunlisted, Hstable, Huntouched.
  split; [exact Hstable|]. split.
  - intros podName Hnotin. split; [apply Hunlisted; exact Hnotin|].
    intros p Hp. apply Huntouched; [apply (Howned podName p Hp)|].
    intros k Hk Heq. apply Hnotin.
    rewrite (owned_injective hp sm podName k p Howned Hp Heq). exact Hk.
  - intros x Hx Hnot. apply Huntouched; [exact Hx|].
    intros k _. apply Hnot.
Qed.

Lemma collectMetrics_keeps_others_witness :
  owned monitorHeap monitorOf /\
  metrics
    (snd (snd (collectMetrics (inl (pods fetched)) (inl (ioStatsData fetched))
                 (inl (iopsData fetched)) (inl (throughputData fetched))
                 (inl (diskLatencyData fetched)) (inl (queueLatencyData fetched))
                 50 (monitorHeap, monitorOf)))) !! "b" = Some 1%nat.
Proof.
  split; [exact monitorOf_owned|].
  apply (proj1 (collectMetrics_keeps_others 50 fetched monitorHeap monitorOf
                  monitorOf_owned)).
  reflexivity.
Defined.

(** X13. A collection that returns an error has changed nothing, whichever
    of the six calls failed; one in which none failed returns no error. *)
Theorem collectMetrics_error_changes_nothing
    (listPods : list string + string)
    (getIOStatsData : gmap string Ebpf.IOStatsData + string)
    (getIOPS getThroughput : gmap string (gmap string Z) + string)
    (getDiskLatencyData getQueueLatencyData : gmap string Z + string)
    (now : Z) (st : Heap * StorageMonitor) :
  let out := collectMetrics listPods getIOStatsData getIOPS getThroughput
               getDiskLatencyData getQueueLatencyData now st in
  (fst out <> None -> snd out = st) /\
  (fst out = None <->
   (exists pods, listPods = inl pods) /\ (exists d, getIOStatsData = inl d) /\
   (exists d, getIOPS = inl d) /\ (exists d, getThroughput = inl d) /\
   (exists d, getDiskLatencyData = inl d) /\ (exists d, getQueueLatencyData = inl d)).
Proof.
  unfold collectMetrics.
  destruct listPods as [pods0|e1]; [|split; [reflexivity|]; split;
    [discriminate | intros ([? H] & _); discriminate H]].
  destruct getIOStatsData as [io0|e2]; [|split; [reflexivity|]; split;
    [discriminate | intros (_ & [? H] & _); discriminate H]].
  destruct getIOPS as [iops0|e3]; [|split; [reflexivity|]; split;
    [discriminate | intros (_ & _ & [? H] & _); discriminate H]].
  destruct getThroughput as [tp0|e4]; [|split; [reflexivity|]; split;
    [discriminate | intros (_ & _ & _ & [? H] & _); discriminate H]].
  destruct getDiskLatencyData as [disk0|e5]; [|split; [reflexivity|]; split;
    [discriminate | intros (_ & _ & _ & _ & [? H] & _); discriminate H]].
  destruct getQueueLatencyData as [queue0|e6]; [|split; [reflexivity|]; split;
    [discriminate | intros (_ & _ & _ & _ & _ & [? H]); discriminate H]].
  cbn [fst snd]. split; [intros H; contradiction H; reflexivity|].
  split; [|reflexivity]. intros _. repeat (split; [eexists; reflexivity|]).
  eexists; reflexivity.
Qed.

Lemma collectCycle_owned (st : Heap * StorageMonitor) (c : cycle) :
  owned (fst st) (snd st) ->
  owned (fst (collectCycle st c)) (snd (collectCycle st c)) /\
  namespace (snd (collectCycle st c)) = namespace (snd st).
Proof.
  destruct st as [hp sm]. cbn [fst snd]. intros Howned.
  unfold collectCycle, collectMetrics.
  destruct (listed c) as [pods0|]; [|split; [exact Howned | reflexivity]].
  destruct (ioStats c) as [io0|]; [|split; [exact Howned | reflexivity]].
  destruct (iops c) as [iops0|]; [|split; [exact Howned | reflexivity]].
  destruct (throughput c) as [tp0|]; [|split; [exact Howned | reflexivity]].
  destruct (diskLatency c) as [disk0|]; [|split; [exact Howned | reflexivity]].
  destruct (queueLatency c) as [queue0|]; [|split; [exact Howned | reflexivity]].
  cbn [fst snd].
  destruct (collectPods_effect (at_time c) (mkCollected pods0 io0 iops0 tp0 disk0 queue0)
              hp sm Howned pods0) as (Howned' & Hns & _).
  split; [exact Howned' | exact Hns].
Qed.

Lemma NewStorageMonitor_empty (opts : list (StorageMonitor -> StorageMonitor)) :
  Forall is_monitor_option opts -> metrics (NewStorageMonitor opts) = ∅.
Proof.
  unfold NewStorageMonitor.
  assert (Hgen : forall sm, Forall is_monitor_option opts ->
            metrics (fold_left (fun sm opt => opt sm) opts sm) = metrics sm).
  { induction opts as [|o rest IH]; intros sm Hall; simpl; [reflexivity|].
    inversion Hall as [|? ? Ho Hrest]; subst.
    rewrite (IH (o sm) Hrest).
    destruct Ho as [[ns ->] | [seconds ->]]; reflexivity. }
  intros Hall. apply Hgen. exact Hall.
Qed.

Lemma monitorOptions_ok :
  Forall is_monitor_option [WithNamespace "default"; WithInterval 10].
Proof.
  constructor; [left; exists "default"; reflexivity|].
  constructor; [right; exists 10; reflexivity | constructor].
Qed.

(** X14. What the collector's loop keeps, from [NewStorageMonitor] on and
    whatever the collections fetch or fail to fetch: every object of the
    metrics map is allocated, carries the name it is filed under and the
    monitor's namespace, and has network latency zero, since no collection
    ever writes that field; so its classification is never [network]. *)
Theorem collectLoop_never_network
    (opts : list (StorageMonitor -> StorageMonitor)) (cycles : list cycle) (hp0 : Heap)
    (Hopts : Forall is_monitor_option opts) :
  let st := collectLoop cycles (hp0, NewStorageMonitor opts) in
  namespace (snd st) = namespace (NewStorageMonitor opts) /\
  forall podName p, metrics (snd st) !! podName = Some p ->
    (p < length (fst st))%nat /\
    PodName (load (fst st) p) = podName /\
    Namespace (load (fst st) p) = namespace (NewStorageMonitor opts) /\
    NetworkLatency (load (fst st) p) = 0 /\
    (0 <= QueueLatency (load (fst st) p) -> 0 <= DiskLatency (load (fst st) p) ->
     analyzeBottleneck (load (fst st) p) <> BottleneckTypeNetwork).
Proof.
  intros st.
  assert (Hinv : owned (fst st) (snd st) /\
                 namespace (snd st) = namespace (NewStorageMonitor opts)).
  { unfold st, collectLoop.
    induction cycles as [|c cycles IH] using rev_ind.
    - simpl. split; [|reflexivity]. intros podName p H.
      rewrite (NewStorageMonitor_empty opts Hopts), lookup_empty in H. discriminate H.
    - rewrite fold_left_app. cbn [fold_left].
      destruct IH as [Howned Hns].
      destruct (collectCycle_owned _ c Howned) as [Howned' Hns'].
      split; [exact Howned' | rewrite Hns'; exact Hns]. }
  destruct Hinv as [Howned Hns]. split; [exact Hns|].
  intros podName p Hp. destruct (Howned podName p Hp) as (Hlt & Hname & Hspace & Hnet).
  split; [exact Hlt|]. split; [exact Hname|].
  split; [rewrite Hspace; exact Hns|]. split; [exact Hnet|].
  intros Hq Hd. unfold analyzeBottleneck. rewrite Hnet.
  destruct (_ && _); [discriminate|].
  destruct (_ && _); [discriminate|].
  destruct (Z.gtb_spec 0 (QueueLatency (load (fst st) p))) as [Hgt|_]; [lia|].
  simpl. destruct (_ || _); discriminate.
Qed.

Lemma collectLoop_never_network_witness :
  Forall is_monitor_option [WithNamespace "default"; WithInterval 10] /\
  namespace (snd (collectLoop twoCycles
                    ([], NewStorageMonitor [WithNamespace "default"; WithInterval 10])))
  = "default".
Proof.
  split; [exact monitorOptions_ok|].
  exact (proj1 (collectLoop_never_network [WithNamespace "default"; WithInterval 10]
                  twoCycles [] monitorOptions_ok)).
Defined.

(** X15. What was collected is what is read back: after a collection
    that fetched statistics, rates, throughputs, a queue latency and a disk
    latency for a listed pod, [GetPodLatency] returns exactly the four
    latencies fetched and no error, [GetPodIOPS] the two rates and
    [GetPodThroughput] the two throughputs fetched for it. *)
Theorem GetPodLatency_after_collectMetrics (now : Z) (data : collected) (hp : Heap)
    (sm : StorageMonitor) (podName : string)
    (stats : Ebpf.IOStatsData) (rates bytesPerSecond : gmap string Z) (queue disk : Z)
    (Howned : owned hp sm)
    (Hlisted : podName ∈ pods data)
    (Hstats : ioStatsData data !! podName = Some stats)
    (Hrates : iopsData data !! podName = Some rates)
    (Hthroughput : throughputData data !! podName = Some bytesPerSecond)
    (Hqueue : queueLatencyData data !! podName = Some queue)
    (Hdisk : diskLatencyData data !! podName = Some disk) :
  let st := snd (collectMetrics (inl (pods data)) (inl (ioStatsData data))
                   (inl (iopsData data)) (inl (throughputData data))
                   (inl (diskLatencyData data)) (inl (queueLatencyData data))
                   now (hp, sm)) in
  fst (GetPodLatency (fst st) (snd st) podName)
  = (Ebpf.ReadLatencyNs stats, Ebpf.WriteLatencyNs stats, queue, disk, None) /\
  fst (GetPodIOPS (fst st) (snd st) podName)
  = (index rates "read_iops", index rates "write_iops", None) /\
  fst (GetPodThroughput (fst st) (snd st) podName)
  = (index bytesPerSecond "read_throughput_bps",
     index bytesPerSecond "write_throughput_bps", None).
Proof.
  destruct data as [pods0 io0 iops0 tp0 disk0 queue0]. cbn [pods ioStatsData iopsData
    throughputData diskLatencyData queueLatencyData] in *. cbv zeta.
  unfold collectMetrics. cbn [fst snd].
  destruct (collectPods_effect now (mkCollected pods0 io0 iops0 tp0 disk0 queue0) hp sm
              Howned pods0)
    as (Howned' & _ & _ & _ & Hlisted' & _).
  cbv zeta in Howned', Hlisted'.
  destruct (Hlisted' podName Hlisted) as (p & Hp & Hval).
  destruct (fold_left _ pods0 (hp, sm)) as [hp' sm'].
  cbn [fst snd] in *.
  destruct (Howned' podName p Hp) as (Hlt & _).
  assert (Hcopy : load (hp' ++ [load hp' p]) (length hp') = load hp' p).
  { unfold load at 1. rewrite lookup_app_r by lia. rewrite Nat.sub_diag. reflexivity. }
  unfold GetPodLatency, GetPodIOPS, GetPodThroughput, GetPodMetrics.
  rewrite Hp. cbn [new fst snd].
  rewrite Hcopy, Hval. unfold refreshed.
  cbn [ReadLatency WriteLatency QueueLatency DiskLatency ReadIOPS WriteIOPS
       ReadThroughput WriteThroughput
       ioStatsData iopsData throughputData queueLatencyData diskLatencyData].
  rewrite Hstats, Hrates, Hthroughput, Hqueue, Hdisk. repeat split.
Qed.

Lemma GetPodLatency_after_collectMetrics_witness :
  owned monitorHeap monitorOf /\
  fst (GetPodLatency
         (fst (snd (collectMetrics (inl (pods fetched)) (inl (ioStatsData fetched))
                      (inl (iopsData fetched)) (inl (throughputData fetched))
                      (inl (diskLatencyData fetched)) (inl (queueLatencyData fetched))
                      50 (monitorHeap, monitorOf))))
         (snd (snd (collectMetrics (inl (pods fetched)) (inl (ioStatsData fetched))
                      (inl (iopsData fetched)) (inl (throughputData fetched))
                      (inl (diskLatencyData fetched)) (inl (queueLatencyData fetched))
                      50 (monitorHeap, monitorOf))))
         "a")
  = (7, 8, 3, 4, None).
Proof.
  split; [exact monitorOf_owned|].
  assert (Hin : "a" ∈ pods fetched) by (left).
  exact (proj1 (GetPodLatency_after_collectMetrics 50 fetched monitorHeap monitorOf "a"
                  (Ebpf.mkIOStats 7 8 0 0 0 0 3 4 0 0) (<["read_iops" := 11]> ∅)
                  (<["read_throughput_bps" := 512]> ∅) 3 4
                  monitorOf_owned Hin eq_refl eq_refl eq_refl eq_refl eq_refl)).
Defined.

(** X16. [GetPodMetrics] answers with the error for a pod without
    metrics and allocates nothing; for a pod with metrics it returns a new
    object equal to the stored one, and a write through the returned
    pointer leaves the stored object as it was. *)
Theorem GetPodMetrics_returns_copy (hp : Heap) (sm : StorageMonitor) (podName : string) :
  (metrics sm !! podName = None -> GetPodMetrics hp sm podName = (None, hp)) /\
  (forall p, metrics sm !! podName = Some p -> (p < length hp)%nat ->
     exists q,
       fst (GetPodMetrics hp sm podName) = Some q /\
       (length hp <= q < length (snd (GetPodMetrics hp sm podName)))%nat /\
       load (snd (GetPodMetrics hp sm podName)) q = load hp p /\
       (forall x, (x < length hp)%nat ->
          load (snd (GetPodMetrics hp sm podName)) x = load hp x) /\
       (forall v x, (x < length hp)%nat ->
          load (store (snd (GetPodMetrics hp sm podName)) q v) x = load hp x)).
Proof.
  unfold GetPodMetrics. split.
  - intros ->. reflexivity.
  - intros p -> Hp. cbn [new fst snd]. exists (length hp).
    split; [reflexivity|]. split; [rewrite length_app; simpl; lia|].
    split.
    + unfold load at 1. rewrite lookup_app_r by lia. rewrite Nat.sub_diag. reflexivity.
    + split.
      * intros x Hx. apply load_app_l. exact Hx.
      * intros v x Hx. rewrite load_store_ne by lia. apply load_app_l. exact Hx.
Qed.

End Collector.

(* ===================================================================== *)
(** * The records and statistics of the tracer *)
(* ===================================================================== *)

Section Tracer.
Import IoTracer Examples.

Lemma update_elem_lookup {V} (max_entries : Z) (m : gmap Z V) (k k' : Z) (v e : V) :
  bpf_map_update_elem max_entries m k v !! k' = Some e ->
  (k' = k /\ e = v) \/ m !! k' = Some e.
Proof.
  unfold bpf_map_update_elem. intros H.
  repeat case_decide; try (right; exact H);
    (apply lookup_insert_Some in H as [[<- <-]|[_ H]];
     [left; split; reflexivity | right; exact H]).
Qed.

Lemma update_elem_stored {V} (max_entries : Z) (m : gmap Z V) (k : Z) (v : V) :
  is_Some (m !! k) \/ Z.of_nat (size m) < max_entries ->
  bpf_map_update_elem max_entries m k v = <[k := v]> m.
Proof.
  unfold bpf_map_update_elem. intros [H|H]; repeat case_decide; try reflexivity; tauto.
Qed.

Lemma update_elem_dropped {V} (max_entries : Z) (m : gmap Z V) (k : Z) (v : V) :
  m !! k = None -> max_entries <= Z.of_nat (size m) ->
  bpf_map_update_elem max_entries m k v = m.
Proof.
  unfold bpf_map_update_elem. intros Hk Hfull.
  repeat case_decide; try reflexivity.
  - rewrite Hk in *. destruct H as [? H]. discriminate H.
  - lia.
Qed.

Lemma tid_mask (x : Z) : Z.land x 4294967295 = x mod 2 ^ 32.
Proof. change 4294967295 with (Z.ones 32). apply Z.land_ones. lia. Qed.

Lemma write_flag (x : Z) :
  (if Z.land x REQ_OP_WRITE =? 0 then 0 else 1) = x mod 2.
Proof.
  unfold REQ_OP_WRITE. change 1 with (Z.ones 1) at 1. rewrite Z.land_ones by lia.
  change (2 ^ 1) with 2.
  pose proof (Z.mod_pos_bound x 2 ltac:(lia)) as Hb.
  destruct (Z.eqb_spec (x mod 2) 0); lia.
Qed.

Lemma start_event_started (ctx : probe_ctx) (op : Z) :
  op = 0 \/ op = 1 -> started (start_event ctx op).
Proof.
  intros Hop. unfold started, start_event. simpl.
  rewrite tid_mask.
  pose proof (Z.mod_pos_bound (Z.shiftr (pid_tgid ctx) 32) (2 ^ 32) ltac:(lia)).
  pose proof (Z.mod_pos_bound (pid_tgid ctx) (2 ^ 32) ltac:(lia)).
  repeat split; try lia; exact Hop.
Qed.

Lemma pid_tid_recombine (x : Z) :
  0 <= x < 2 ^ 64 ->
  (Z.shiftr x 32 mod 2 ^ 32) * 2 ^ 32 + Z.land x 4294967295 = x.
Proof.
  intros Hx. rewrite tid_mask, Z.shiftr_div_pow2 by lia.
  rewrite (Z.mod_small (x / 2 ^ 32)).
  - pose proof (Z.div_mod x (2 ^ 32) ltac:(lia)). lia.
  - split; [apply Z.div_pos; lia|].
    apply Z.div_lt_upper_bound; [lia|]. change (2 ^ 32 * 2 ^ 32) with (2 ^ 64). lia.
Qed.

(** X17. What [trace_block_rq_issue] records.  The probe returns 0 and
    touches neither the statistics nor the emitted records nor any other
    pending request.  If the request is already pending or the table has
    room, the request is now pending with a record stamped with the
    current time as [ts] and [io_start], the caller's name, the upper and
    lower half of [pid_tgid] as [pid] and [tid], and the lowest bit of
    [cmd_flags] as operation; a start already pending for the request is
    overwritten.  If the table is full and the request is new, nothing is
    recorded. *)
Theorem trace_block_rq_issue_records (ctx : probe_ctx) (st : maps)
    (Htask : 0 <= pid_tgid ctx < 2 ^ 64) :
  let st' := snd (trace_block_rq_issue ctx st) in
  let e := start_event ctx (cmd_flags ctx mod 2) in
  fst (trace_block_rq_issue ctx st) = 0 /\
  latency_by_pid st' = latency_by_pid st /\
  events st' = events st /\
  (forall k, k <> rq ctx -> requests st' !! k = requests st !! k) /\
  (is_Some (requests st !! rq ctx) \/
   Z.of_nat (size (requests st)) < requests_max_entries ->
   requests st' !! rq ctx = Some e) /\
  (requests st !! rq ctx = None ->
   requests_max_entries <= Z.of_nat (size (requests st)) -> st' = st) /\
  ts e = ktime ctx /\ io_start e = ktime ctx /\ comm e = cur_comm ctx /\
  operation e = cmd_flags ctx mod 2 /\
  pid e * 2 ^ 32 + tid e = pid_tgid ctx /\
  started e.
Proof.
  intros st' e. unfold st', e, trace_block_rq_issue. cbn [fst snd].
  rewrite write_flag. cbn [latency_by_pid events requests].
  split; [reflexivity|]. split; [reflexivity|]. split; [reflexivity|].
  split; [intros k Hk; apply pending_update; intros Heq; apply Hk; symmetry; exact Heq|].
  split.
  { intros Hroom. rewrite update_elem_stored by exact Hroom. apply lookup_insert_eq. }
  split.
  { intros Hnone Hfull. rewrite update_elem_dropped by assumption.
    destruct st; reflexivity. }
  split; [reflexivity|]. split; [reflexivity|]. split; [reflexivity|].
  split; [reflexivity|].
  split; [apply pid_tid_recombine; exact Htask|].
  apply start_event_started.
  pose proof (Z.mod_pos_bound (cmd_flags ctx) 2 ltac:(lia)). lia.
Qed.

Lemma trace_block_rq_issue_records_witness :
  0 <= pid_tgid issueAt100 < 2 ^ 64 /\
  pid (start_event issueAt100 (cmd_flags issueAt100 mod 2)) * 2 ^ 32
  + tid (start_event issueAt100 (cmd_flags issueAt100 mod 2)) = pid_tgid issueAt100.
Proof.
  assert (H : 0 <= pid_tgid issueAt100 < 2 ^ 64) by (simpl; lia).
  split; [exact H|].
  apply (trace_block_rq_issue_records issueAt100 initial H).
Defined.

Lemma update_latency_stats_accounted (lat : gmap Z latency_info_t)
    (p duration operation : Z) (old : latency_info_t) :
  operation = 0 \/ operation = 1 ->
  lat !! p = Some old \/
  (lat !! p = None /\ Z.of_nat (size lat) < latency_max_entries /\ old = zero_latency) ->
  update_latency_stats lat p duration operation = <[p := accounted old duration operation]> lat.
Proof.
  intros Hop Hold. unfold update_latency_stats, accounted.
  destruct Hold as [Hsome | (Hnone & Hroom & ->)].
  - rewrite Hsome, Hsome. destruct Hop as [-> | ->]; reflexivity.
  - rewrite Hnone. rewrite update_elem_stored by (right; exact Hroom).
    rewrite lookup_insert_eq.
    destruct Hop as [-> | ->]; cbn [Z.eqb Pos.eqb]; rewrite insert_insert_eq; reflexivity.
Qed.

Lemma update_latency_stats_dropped (lat : gmap Z latency_info_t)
    (p duration operation : Z) :
  lat !! p = None -> latency_max_entries <= Z.of_nat (size lat) ->
  update_latency_stats lat p duration operation = lat.
Proof.
  intros Hnone Hfull. unfold update_latency_stats.
  rewrite Hnone. rewrite update_elem_dropped by assumption.
  rewrite Hnone. reflexivity.
Qed.

(** X18. A file read or write from entry to exit.  When the entry probe
    could record the start (the task is already pending or the table has
    room), the exit probe of the same task emits no record, removes the
    pending entry and accounts the time between the two probes to the
    process: to its read statistics after [vfs_read], to its write
    statistics after [vfs_write], creating the statistics if the process
    has none and that table has room, and dropping the sample if it is
    full.  Nothing of the byte count the exit probe reads is kept. *)
Theorem trace_vfs_entry_exit (op : Z) (entry exit : probe_ctx) (st : maps)
    (Hop : op = 0 \/ op = 1)
    (Htask : pid_tgid exit = pid_tgid entry)
    (Hclock : 0 <= ktime entry <= ktime exit /\ ktime exit < 2 ^ 64)
    (Hroom : is_Some (requests st !! pid_tgid entry) \/
             Z.of_nat (size (requests st)) < requests_max_entries) :
  let st1 := snd (trace_vfs_entry op entry st) in
  let st2 := snd (trace_vfs_exit exit st1) in
  let task := Z.shiftr (pid_tgid entry) 32 mod 2 ^ 32 in
  let duration := ktime exit - ktime entry in
  events st2 = events st /\
  requests st2 = delete (pid_tgid entry) (requests st) /\
  (forall other, other <> task ->
     latency_by_pid st2 !! other = latency_by_pid st !! other) /\
  (forall old, latency_by_pid st !! task = Some old ->
     latency_by_pid st2 !! task = Some (accounted old duration op)) /\
  (latency_by_pid st !! task = None ->
   latency_by_pid st2 !! task =
     if decide (Z.of_nat (size (latency_by_pid st)) < latency_max_entries)
     then Some (accounted zero_latency duration op) else None).
Proof.
  intros st1 st2 task duration. unfold st2, st1, trace_vfs_exit, trace_vfs_entry.
  cbn [fst snd requests latency_by_pid events].
  rewrite Htask. rewrite update_elem_stored by exact Hroom.
  rewrite lookup_insert_eq. cbn [fst snd requests latency_by_pid events].
  rewrite delete_insert_eq.
  assert (Hdur : duration_of (set_event (start_event entry op) (ktime exit) (retval exit))
                 = duration).
  { unfold duration_of, set_event, start_event. simpl. apply wrap64_small. unfold duration. lia. }
  rewrite Hdur. cbn [set_event start_event pid operation].
  fold task.
  split; [reflexivity|]. split; [reflexivity|].
  split.
  { intros other Hother. unfold update_latency_stats.
    destruct (latency_by_pid st !! task) as [old|] eqn:Hold.
    - rewrite Hold. destruct (op =? 0); [|destruct (op =? 1)];
        try reflexivity; apply lookup_insert_ne; congruence.
    - unfold bpf_map_update_elem. rewrite Hold.
      case_decide as Hsome; [destruct Hsome as [? Hsome]; discriminate Hsome|].
      case_decide as Hsize.
      + rewrite lookup_insert_eq.
        destruct (op =? 0); [|destruct (op =? 1)];
          rewrite ?lookup_insert_ne by congruence; try reflexivity;
          apply lookup_insert_ne; congruence.
      + rewrite Hold. reflexivity. }
  split.
  { intros old Hold.
    rewrite (update_latency_stats_accounted _ task duration op old Hop (or_introl Hold)).
    apply lookup_insert_eq. }
  intros Hnone. case_decide as Hsize.
  - rewrite (update_latency_stats_accounted _ task duration op zero_latency Hop)
      by (right; split; [exact Hnone | split; [exact Hsize | reflexivity]]).
    apply lookup_insert_eq.
  - rewrite update_latency_stats_dropped by (try exact Hnone; lia). exact Hnone.
Qed.

Lemma trace_vfs_entry_exit_witness :
  (0 = 0 \/ 0 = 1) /\
  pid_tgid readExitAt180 = pid_tgid readEntryAt100 /\
  (0 <= ktime readEntryAt100 <= ktime readExitAt180 /\ ktime readExitAt180 < 2 ^ 64) /\
  latency_by_pid
    (snd (trace_vfs_exit readExitAt180 (snd (trace_vfs_entry 0 readEntryAt100 initial))))
    !! 42 = Some (mkLatency 80 0 1 0).
Proof.
  assert (Hop : 0 = 0 \/ 0 = 1) by (left; reflexivity).
  assert (Htask : pid_tgid readExitAt180 = pid_tgid readEntryAt100) by reflexivity.
  assert (Hclock : 0 <= ktime readEntryAt100 <= ktime readExitAt180 /\
                   ktime readExitAt180 < 2 ^ 64) by (simpl; lia).
  assert (Hroom : is_Some (requests initial !! pid_tgid readEntryAt100) \/
                  Z.of_nat (size (requests initial)) < requests_max_entries).
  { right. vm_compute. reflexivity. }
  split; [exact Hop|]. split; [exact Htask|]. split; [exact Hclock|].
  pose proof (proj2 (proj2 (proj2 (proj2
    (trace_vfs_entry_exit 0 readEntryAt100 readExitAt180 initial Hop Htask Hclock Hroom)))))
    as H.
  cbv zeta in H. specialize (H eq_refl). exact H.
Defined.

Lemma run_records (signals : list (probe * probe_ctx)) :
  forall (st : maps) (t : Z),
    0 <= t ->
    (forall k e, requests st !! k = Some e -> started e /\ 0 <= io_start e <= t) ->
    Forall emitted (events st) ->
    monotone_from t signals ->
    (forall k e, requests (run signals st) !! k = Some e ->
       started e /\ 0 <= io_start e <= last_ktime t signals) /\
    Forall emitted (events (run signals st)).
Proof.
  induction signals as [|[p ctx] rest IH]; intros st t Ht Hpending Hemitted Hmono.
  - split; [exact Hpending | exact Hemitted].
  - destruct Hmono as [[Hle Hlt] Hrest]. cbn [fst snd] in Hle, Hlt, Hrest.
    unfold run, last_ktime in *. cbn [fold_left fst snd].
    assert (Hstart : forall op k e,
              (op = 0 \/ op = 1) ->
              ((k = k /\ e = start_event ctx op) \/ requests st !! k = Some e) ->
              started e /\ 0 <= io_start e <= ktime ctx).
    { intros op k e Hop [[_ ->] | Hold].
      - split; [apply start_event_started; exact Hop | simpl; lia].
      - destruct (Hpending k e Hold) as [Hs Hb]. split; [exact Hs | lia]. }
    assert (Hkeep : forall k e, requests st !! k = Some e ->
              started e /\ 0 <= io_start e <= ktime ctx).
    { intros k e Hold. destruct (Hpending k e Hold) as [Hs Hb]. split; [exact Hs | lia]. }
    assert (Hentry : forall op, op = 0 \/ op = 1 ->
              forall k e, requests (snd (trace_vfs_entry op ctx st)) !! k = Some e ->
                started e /\ 0 <= io_start e <= ktime ctx).
    { intros op Hop k e He. cbn in He.
      apply update_elem_lookup in He as [[_ ->] | Hold].
      - split; [apply start_event_started; exact Hop | simpl; lia].
      - apply (Hkeep k e Hold). }
    assert (Hexit : (forall k e, requests (snd (trace_vfs_exit ctx st)) !! k = Some e ->
                       started e /\ 0 <= io_start e <= ktime ctx) /\
                    events (snd (trace_vfs_exit ctx st)) = events st).
    { unfold trace_vfs_exit.
      destruct (requests st !! pid_tgid ctx) as [e0|]; cbn [snd requests events].
      - split; [|reflexivity]. intros k e He.
        apply lookup_delete_Some in He as [_ He]. apply (Hkeep k e He).
      - split; [exact Hkeep | reflexivity]. }
    apply (IH _ (ktime ctx)); [lia | | | exact Hrest].
    + destruct p; cbn [fire].
      * intros k e He. cbn in He.
        apply update_elem_lookup in He as [[_ ->] | Hold].
        -- split; [|simpl; lia]. apply start_event_started.
           destruct (_ =? 0); [left | right]; reflexivity.
        -- apply (Hkeep k e Hold).
      * unfold trace_block_rq_complete.
        destruct (requests st !! rq ctx) as [e0|]; cbn [snd requests].
        -- intros k e He. apply lookup_delete_Some in He as [_ He]. apply (Hkeep k e He).
        -- exact Hkeep.
      * apply Hentry. left; reflexivity.
      * apply Hexit.
      * apply Hentry. right; reflexivity.
      * apply Hexit.
    + destruct p; cbn [fire]; try exact Hemitted;
        try (rewrite (proj2 Hexit); exact Hemitted).
      unfold trace_block_rq_complete.
      destruct (requests st !! rq ctx) as [e0|] eqn:He0; cbn [snd events];
        [|exact Hemitted].
      apply Forall_app. split; [exact Hemitted|].
      constructor; [|constructor].
      destruct (Hpending _ _ He0) as [(Hts & Hend & Hbytes & Hdisk & Htype & Hop & Hpid & Htid) Hb].
      unfold emitted, set_event. simpl.
      repeat split; try assumption; try lia.
Qed.

(** X19. The records that reach user space.  On a clock that does not run
    backwards, whatever the order in which the six probes fire, every
    emitted record has [ts] equal to its start time, an end time not
    before the start, operation 0 or 1 and process and thread ids of 32
    bits; its byte count is 0, its device name empty and its I/O type 0,
    because no probe ever fills these fields in a record that is emitted.
    Every pending entry is a start record stamped not after the clock. *)
Theorem emitted_records (signals : list (probe * probe_ctx))
    (Hclock : monotone_from 0 signals) :
  let st := run signals initial in
  Forall emitted (events st) /\
  (forall k e, requests st !! k = Some e ->
     started e /\ 0 <= io_start e <= last_ktime 0 signals).
Proof.
  intros st.
  destruct (run_records signals initial 0 ltac:(lia)) as [Hpending Hemitted].
  - intros k e H. simpl in H. rewrite lookup_empty in H. discriminate H.
  - constructor.
  - exact Hclock.
  - split; [exact Hemitted | exact Hpending].
Qed.

Lemma emitted_records_witness :
  monotone_from 0 [(BlockRqIssue, issueAt100); (BlockRqComplete, completeAt250)] /\
  Forall emitted
    (events (run [(BlockRqIssue, issueAt100); (BlockRqComplete, completeAt250)] initial)).
Proof.
  assert (H : monotone_from 0 [(BlockRqIssue, issueAt100); (BlockRqComplete, completeAt250)]).
  { simpl. lia. }
  split; [exact H|].
  exact (proj1 (emitted_records _ H)).
Defined.

End Tracer.

(* ===================================================================== *)
(** * The collector and the analysis loop together *)
(* ===================================================================== *)

Section Goroutines.
Import Monitor Analyzer Main Examples.

Lemma copyEntries_grow (entries : list (string * ptr)) :
  forall (acc : gmap string ptr) (hp : Heap),
    exists extra, snd (fold_left copyEntry entries (acc, hp)) = hp ++ extra.
Proof.
  induction entries as [|kv rest IH]; intros acc hp.
  - exists []. simpl. rewrite app_nil_r. reflexivity.
  - cbn [fold_left copyEntry new].
    destruct (IH (<[fst kv := length hp]> acc) (hp ++ [load hp (snd kv)])) as [extra Hextra].
    exists ([load hp (snd kv)] ++ extra). rewrite Hextra, app_assoc. reflexivity.
Qed.

Lemma copyEntries_range (entries : list (string * ptr)) (base : nat) :
  forall (acc : gmap string ptr) (hp : Heap),
    (base <= length hp)%nat ->
    (forall k q, acc !! k = Some q -> (base <= q < length hp)%nat) ->
    forall k q, fst (fold_left copyEntry entries (acc, hp)) !! k = Some q ->
                (base <= q < length (snd (fold_left copyEntry entries (acc, hp))))%nat.
Proof.
  induction entries as [|kv rest IH]; intros acc hp Hbase Hacc k q Hq.
  - apply (Hacc k q Hq).
  - cbn [fold_left copyEntry new] in *.
    apply (IH (<[fst kv := length hp]> acc) (hp ++ [load hp (snd kv)])) with (k := k);
      [rewrite length_app; lia | | exact Hq].
    intros k' q' Hk'. rewrite length_app. simpl.
    apply lookup_insert_Some in Hk' as [[_ <-]|[_ Hk']]; [lia|].
    specialize (Hacc k' q' Hk'). lia.
Qed.

Lemma AddMetrics_grows (metrics : list (string * ptr)) :
  forall (st : Heap * StorageAnalyzer),
    (exists extra, fst (AddMetrics metrics st) = fst st ++ extra) /\
    (forall podName q, q ∈ historyOf (snd (AddMetrics metrics st)) podName ->
       q ∈ historyOf (snd st) podName \/
       (length (fst st) <= q < length (fst (AddMetrics metrics st)))%nat).
Proof.
  unfold AddMetrics.
  induction metrics as [|[k p] rest IH]; intros [hp sa].
  - simpl. split; [exists []; rewrite app_nil_r; reflexivity|].
    intros podName q Hq. left. exact Hq.
  - cbn [fold_left].
    destruct (IH (addOne (hp, sa) (k, p))) as ([extra Hextra] & Hptr).
    assert (Hheap : fst (addOne (hp, sa) (k, p)) = hp ++ [load hp p]) by reflexivity.
    rewrite Hheap in Hextra.
    split; [exists ([load hp p] ++ extra); rewrite Hextra, app_assoc; reflexivity|].
    intros podName q Hq. cbn [fst snd].
    destruct (Hptr podName q Hq) as [Hold|Hnew].
    + unfold historyOf in Hold at 1. cbn in Hold.
      destruct (decide (k = podName)) as [<-|Hne].
      * rewrite lookup_insert_eq in Hold. simpl in Hold.
        apply elem_of_appendBounded in Hold as [Hold| ->]; [left; exact Hold|].
        right. rewrite Hextra, length_app, length_app. simpl. lia.
      * rewrite lookup_insert_ne in Hold by exact Hne. left. exact Hold.
    + right. rewrite Hheap, length_app in Hnew. lia.
Qed.

Lemma collectCycle_apart (hp : Heap) (sm : StorageMonitor) (c : cycle) :
  owned hp sm ->
  (length hp <= length (fst (collectCycle (hp, sm) c)))%nat /\
  (forall k p, metrics (snd (collectCycle (hp, sm) c)) !! k = Some p ->
     metrics sm !! k = Some p \/ (length hp <= p)%nat) /\
  (forall x, (x < length hp)%nat -> (forall k, metrics sm !! k <> Some x) ->
     load (fst (collectCycle (hp, sm) c)) x = load hp x).
Proof.
  intros Howned. unfold collectCycle, collectMetrics.
  assert (Hsame : (length hp <= length hp)%nat /\
            (forall k p, metrics sm !! k = Some p ->
               metrics sm !! k = Some p \/ (length hp <= p)%nat) /\
            (forall x, (x < length hp)%nat -> (forall k, metrics sm !! k <> Some x) ->
               load hp x = load hp x)).
  { split; [lia|]. split; [intros k p H; left; exact H | reflexivity]. }
  destruct (listed c) as [pods0|]; [|exact Hsame].
  destruct (ioStats c) as [io0|]; [|exact Hsame].
  destruct (iops c) as [iops0|]; [|exact Hsame].
  destruct (throughput c) as [tp0|]; [|exact Hsame].
  destruct (diskLatency c) as [disk0|]; [|exact Hsame].
  destruct (queueLatency c) as [queue0|]; [|exact Hsame].
  cbn [fst snd].
  destruct (collectPods_effect (at_time c) (mkCollected pods0 io0 iops0 tp0 disk0 queue0)
              hp sm Howned pods0) as (_ & _ & _ & Hlen & _ & _ & _ & Horigin & Huntouched).
  split; [exact Hlen|]. split; [exact Horigin|].
  intros x Hx Hnot. apply Huntouched; [exact Hx|]. intros k _. apply Hnot.
Qed.

(** A collection leaves every object that is not the monitor's where and
    as it is. *)
Lemma collectionTick_foreign (c : cycle) (s : system) (q : ptr) :
  owned (heap s) (storageMonitor s) -> foreign s q ->
  foreign (collectionTick c s) q /\
  load (heap (collectionTick c s)) q = load (heap s) q.
Proof.
  intros Howned [Hlt Hnot]. unfold collectionTick, foreign.
  destruct (collectCycle_apart (heap s) (storageMonitor s) c Howned)
    as (Hlen & Horigin & Hkeep).
  destruct (collectCycle (heap s, storageMonitor s) c) as [hp' sm'].
  cbn [fst snd heap storageMonitor] in *.
  split; [split|].
  - lia.
  - intros k Hk. destruct (Horigin k q Hk) as [Hold|Hge]; [apply (Hnot k Hold) | lia].
  - apply Hkeep; [exact Hlt | exact Hnot].
Qed.

Lemma step_apart (s : system) (t : tick) : apart s -> apart (step s t).
Proof.
  intros (Howned & Hconf & Hhist & Hheld).
  destruct t as [c | order]; cbn [step].
  - assert (Hforeign : forall q, foreign s q -> foreign (collectionTick c s) q).
    { intros q Hq. apply (collectionTick_foreign c s q Howned Hq). }
    destruct (collectCycle_owned (heap s, storageMonitor s) c Howned) as [Howned' _].
    unfold collectionTick in *.
    destruct (collectCycle (heap s, storageMonitor s) c) as [hp' sm'].
    unfold apart. cbn [fst snd heap storageMonitor storageAnalyzer allMetrics] in *.
    split; [exact Howned'|]. split; [exact Hconf|]. split.
    + intros podName q Hq. apply Hforeign. apply (Hhist podName q Hq).
    + intros held k q Hsome Hq. apply Hforeign. apply (Hheld held k q Hsome Hq).
  - unfold analysisCall. destruct (allMetrics s) as [held|] eqn:Hlocal.
    + destruct (AddMetrics_grows (order held) (heap s, storageAnalyzer s))
        as ([extra Hextra] & Hptr).
      destruct Hconf as (Hc & Hb & Hhundred).
      destruct (AddMetrics_invariant (order held) (heap s, storageAnalyzer s) Hc Hb)
        as (Hc' & Hb' & Hm').
      destruct (AddMetrics (order held) (heap s, storageAnalyzer s)) as [hp2 sa'].
      unfold apart, foreign in *.
      cbn [fst snd heap storageMonitor storageAnalyzer allMetrics] in *. subst hp2.
      split; [|split; [|split]].
      * intros podName p Hp. destruct (Howned podName p Hp) as (Hlt & Hrest).
        split; [rewrite length_app; lia|].
        rewrite (load_app_l (heap s) _ p Hlt). exact Hrest.
      * split; [exact Hc'|]. split; [exact Hb'|]. rewrite Hm'. exact Hhundred.
      * intros podName q Hq. destruct (Hptr podName q Hq) as [Hold|Hnew].
        -- destruct (Hhist podName q Hold) as [Hlt Hnot].
           split; [rewrite length_app; lia | exact Hnot].
        -- split; [lia|]. intros k Hk. destruct (Howned k q Hk) as (Hlt & _). lia.
      * intros held' k q Hsome. discriminate Hsome.
    + unfold GetAllMetrics_in.
      destruct (copyEntries_grow (order (metrics (storageMonitor s))) ∅ (heap s))
        as [extra Hextra].
      pose proof (copyEntries_range (order (metrics (storageMonitor s))) (length (heap s))
                    ∅ (heap s) (Nat.le_refl _)) as Hrange.
      destruct (fold_left copyEntry (order (metrics (storageMonitor s))) (∅, heap s))
        as [result hp1].
      unfold apart, foreign in *.
      cbn [fst snd heap storageMonitor storageAnalyzer allMetrics] in *. subst hp1.
      split; [|split; [|split]].
      * intros podName p Hp. destruct (Howned podName p Hp) as (Hlt & Hrest).
        split; [rewrite length_app; lia|].
        rewrite (load_app_l (heap s) _ p Hlt). exact Hrest.
      * exact Hconf.
      * intros podName q Hq. destruct (Hhist podName q Hq) as [Hlt Hnot].
        split; [rewrite length_app; lia | exact Hnot].
      * intros held k q Hsome Hq. injection Hsome as <-.
        assert (Hq' : (length (heap s) <= q < length (heap s ++ extra))%nat).
        { apply (Hrange ltac:(intros k' q' H'; rewrite lookup_empty in H'; discriminate H')
                   k q Hq). }
        split; [lia|]. intros k' Hk'. destruct (Howned k' q Hk') as (Hlt & _). lia.
Qed.

Lemma boot_apart (hp0 : Heap) (ns : string) (seconds : Z) : apart (boot hp0 ns seconds).
Proof.
  split; [|split; [|split]].
  - intros podName p H. simpl in H. rewrite lookup_empty in H. discriminate H.
  - split; [split; [simpl; lia | reflexivity]|].
    split; [|reflexivity].
    intros podName. unfold boot, historyOf. simpl. rewrite lookup_empty. simpl. lia.
  - intros podName q Hq. unfold boot, historyOf in Hq. simpl in Hq.
    rewrite lookup_empty in Hq. inversion Hq.
  - intros held k q Hsome. discriminate Hsome.
Qed.

Lemma runTicks_apart (ticks : list tick) :
  forall s, apart s -> apart (runTicks ticks s).
Proof.
  unfold runTicks. induction ticks as [|t rest IH]; intros s Hs; [exact Hs|].
  simpl. apply IH. apply step_apart. exact Hs.
Qed.

(** X20. The snapshots of the analyzer and the objects of the monitor
    never meet.  In every state the two loops of [main] reach, in whatever
    order their calls come and the maps are ranged over, every snapshot in
    a history, and every copy the analysis loop holds between its two
    calls, is an object of its own, none of the monitor's; so a collection,
    which updates the monitor's objects in place, changes no stored
    snapshot and no held copy, and what the detector computes for a pod is
    the same before and after it. *)
Theorem collection_keeps_histories (ticks : list tick) (hp0 : Heap) (ns : string)
    (seconds : Z) :
  let s := runTicks ticks (boot hp0 ns seconds) in
  (forall podName q, q ∈ historyOf (storageAnalyzer s) podName -> foreign s q) /\
  (forall held k q, allMetrics s = Some held -> held !! k = Some q -> foreign s q) /\
  forall (c : cycle),
    let s' := collectionTick c s in
    storageAnalyzer s' = storageAnalyzer s /\
    allMetrics s' = allMetrics s /\
    (forall q, foreign s q -> load (heap s') q = load (heap s) q) /\
    forall podName,
      load (heap s') <$> historyOf (storageAnalyzer s') podName =
      load (heap s) <$> historyOf (storageAnalyzer s) podName /\
      detectAnomaly (heap s') (storageAnalyzer s') podName =
      detectAnomaly (heap s) (storageAnalyzer s) podName.
Proof.
  intros s.
  destruct (runTicks_apart ticks _ (boot_apart hp0 ns seconds))
    as (Howned & _ & Hhist & Hheld).
  fold s in Howned, Hhist, Hheld.
  split; [exact Hhist|]. split; [exact Hheld|].
  intros c s'.
  assert (Hkeep : forall q, foreign s q -> load (heap s') q = load (heap s) q).
  { intros q Hq. apply (collectionTick_foreign c s q Howned Hq). }
  assert (Hsa : storageAnalyzer s' = storageAnalyzer s /\ allMetrics s' = allMetrics s).
  { unfold s', collectionTick.
    destruct (collectCycle (heap s, storageMonitor s) c). split; reflexivity. }
  destruct Hsa as [Hsa Hlocal].
  split; [exact Hsa|]. split; [exact Hlocal|]. split; [exact Hkeep|].
  intros podName. rewrite Hsa. split.
  - apply load_fmap_ext. intros q Hq. apply Hkeep. apply (Hhist podName q Hq).
  - apply detectAnomaly_ext; [reflexivity | reflexivity|].
    intros q Hq. apply Hkeep. apply (Hhist podName q Hq).
Qed.

(** What an analysis tick reads: a fresh, allocated copy of every object
    of the monitor, and nothing else. *)
Lemma GetAllMetrics_in_snapshot (copyOrder : rangeOrder) (hp : Heap) (sm : StorageMonitor) :
  visitsAll copyOrder -> owned hp sm ->
  let out := GetAllMetrics_in (copyOrder (metrics sm)) hp in
  (exists extra, snd out = hp ++ extra) /\
  (forall k q, fst out !! k = Some q ->
     exists p, metrics sm !! k = Some p /\ load (snd out) q = load hp p) /\
  (forall k p, metrics sm !! k = Some p -> is_Some (fst out !! k)).
Proof.
  intros Hfair Howned out. unfold out, GetAllMetrics_in.
  assert (Hmem : forall k p, (k, p) ∈ copyOrder (metrics sm) <-> metrics sm !! k = Some p).
  { intros k p. rewrite (Hfair (metrics sm)). apply elem_of_map_to_list. }
  assert (Halloc : forall kv, kv ∈ copyOrder (metrics sm) -> (snd kv < length hp)%nat).
  { intros [k p] Hkv. apply Hmem in Hkv. apply (Howned k p Hkv). }
  pose proof (copyEntries_fresh (copyOrder (metrics sm)) hp Halloc ∅ []) as H.
  rewrite app_nil_r in H. cbv zeta in H. destruct H as (Hheap & Hfresh & Hdom).
  split; [eexists; rewrite Hheap; reflexivity|].
  split.
  - intros k q Hq.
    destruct (Hfresh k q Hq) as [Hempty | (_ & p & Hin & Hval)].
    + rewrite lookup_empty in Hempty. discriminate Hempty.
    + exists p. split; [apply Hmem; exact Hin | exact Hval].
  - intros k p Hp. apply Hdom. right.
    apply list_elem_of_fmap. exists (k, p). split; [reflexivity|]. apply Hmem. exact Hp.
Qed.

(** A call of [AddMetrics] in which [podName] occurs once: a copy of the
    object passed for it is appended to its history. *)
Lemma AddMetrics_latest (entries : list (string * ptr)) (st : Heap * StorageAnalyzer)
    (podName : string) (q : ptr) :
  NoDup entries.*1 -> (podName, q) ∈ entries ->
  (q < length (fst st))%nat -> 1 <= maxHistoryPerPod (snd st) ->
  exists q',
    historyOf (snd (AddMetrics entries st)) podName
    = appendBounded (maxHistoryPerPod (snd st)) (historyOf (snd st) podName) q' /\
    (length (fst st) <= q')%nat /\
    load (fst (AddMetrics entries st)) q' = load (fst st) q /\
    GetBottleneckType (snd (AddMetrics entries st)) podName
    = analyzeBottleneck (load (fst st) q).
Proof.
  intros Hnodup Hin Hq Hcap.
  apply list_elem_of_split in Hin as (l1 & l2 & ->).
  rewrite fmap_app, fmap_cons in Hnodup. cbn [fst] in Hnodup.
  apply NoDup_app in Hnodup as (_ & Hl1 & Hnodup2).
  apply NoDup_cons in Hnodup2 as [Hl2 _].
  assert (Hnot1 : podName ∉ l1.*1).
  { intros H1. apply (Hl1 podName H1). left. }
  unfold AddMetrics. rewrite fold_left_app. cbn [fold_left].
  fold (AddMetrics l1 st).
  destruct (AddMetrics_untouched l1 st podName Hnot1)
    as (Hhist1 & _ & _ & Hmax1 & _ & Hload1).
  destruct (AddMetrics_grows l1 st) as ([extra1 Hextra1] & _).
  destruct (AddMetrics l1 st) as [hp1 sa1] eqn:Hst1. cbn [fst snd] in *.
  assert (Hq1 : (q < length hp1)%nat) by (rewrite Hextra1, length_app; lia).
  fold (AddMetrics l2 (addOne (hp1, sa1) (podName, q))).
  destruct (AddMetrics_untouched l2 (addOne (hp1, sa1) (podName, q)) podName Hl2)
    as (Hhist2 & Hbn2 & _ & _ & _ & Hload2).
  destruct (addOne_analysis hp1 sa1 podName q Hq1) as [Hbn _]. cbv zeta in Hbn.
  exists (length hp1).
  unfold historyOf at 1. rewrite Hhist2. split.
  - cbn. rewrite lookup_insert_eq. simpl. rewrite Hmax1.
    unfold historyOf. rewrite Hhist1. reflexivity.
  - split; [rewrite Hextra1, length_app; lia|]. split.
    + rewrite Hload2 by (cbn; rewrite length_app; simpl; lia).
      cbn. unfold load at 1. rewrite lookup_app_r by lia.
      rewrite Nat.sub_diag. simpl. apply Hload1. exact Hq.
    + rewrite Hbn2, Hbn. f_equal. apply Hload1. exact Hq.
Qed.

Lemma appendBounded_lastN (max : Z) (history : list ptr) (q : ptr) :
  1 <= max -> Z.of_nat (length history) <= max ->
  appendBounded max history q = lastN (Z.to_nat max) (history ++ [q]).
Proof.
  intros Hmax Hlen. unfold appendBounded, lastN. rewrite length_app. simpl.
  destruct (Z.gtb_spec (Z.of_nat (length history + 1)) max) as [Hgt|Hle].
  - f_equal. lia.
  - replace (length history + 1 - Z.to_nat max)%nat with 0%nat by lia. reflexivity.
Qed.

Lemma fmap_lastN {A B} (f : A -> B) (n : nat) (l : list A) :
  f <$> lastN n l = lastN n (f <$> l).
Proof. unfold lastN. rewrite fmap_drop, length_fmap. reflexivity. Qed.

(** Collections, however many, leave the analyzer, the held copies and
    every object that is not the monitor's as they are. *)
Lemma collections_keep (cycles : list cycle) :
  forall s, apart s ->
    apart (runTicks (Collection <$> cycles) s) /\
    storageAnalyzer (runTicks (Collection <$> cycles) s) = storageAnalyzer s /\
    allMetrics (runTicks (Collection <$> cycles) s) = allMetrics s /\
    (forall q, foreign s q ->
       foreign (runTicks (Collection <$> cycles) s) q /\
       load (heap (runTicks (Collection <$> cycles) s)) q = load (heap s) q).
Proof.
  unfold runTicks. induction cycles as [|c rest IH]; intros s Hs.
  - simpl. split; [exact Hs|]. split; [reflexivity|]. split; [reflexivity|].
    intros q Hq. split; [exact Hq | reflexivity].
  - rewrite fmap_cons. cbn [fold_left step].
    destruct (IH (collectionTick c s) (step_apart s (Collection c) Hs))
      as (Hapart & Hsa & Hlocal & Hkeep).
    split; [exact Hapart|].
    assert (Hsame : storageAnalyzer (collectionTick c s) = storageAnalyzer s /\
                    allMetrics (collectionTick c s) = allMetrics s).
    { unfold collectionTick. destruct (collectCycle (heap s, storageMonitor s) c).
      split; reflexivity. }
    split; [rewrite Hsa; apply Hsame|]. split; [rewrite Hlocal; apply Hsame|].
    intros q Hq.
    destruct (collectionTick_foreign c s q (proj1 Hs) Hq) as [Hq' Hload].
    destruct (Hkeep q Hq') as [Hq'' Hload'].
    split; [exact Hq''|]. rewrite Hload'. exact Hload.
Qed.

Lemma mapToList_visitsAll : visitsAll map_to_list.
Proof. intros m. reflexivity. Qed.

(** X21. What an analysis tick records.  Take any state the two loops
    reach in which the analysis loop is about to start a tick, let it call
    [GetAllMetrics], let any number of collections happen, and let it call
    [AddMetrics].  Then the history of every pod the monitor knew at the
    first call has grown by one snapshot, equal to the monitor's object for
    that pod as it was at the first call, keeping the last 100; the
    bottleneck type of the pod is the classification of that object; and
    the history of a pod the monitor did not know then is unchanged,
    whatever the collections in between brought. *)
Theorem analysisTick_snapshots (ticks : list tick) (hp0 : Heap) (ns : string)
    (seconds : Z) (copyOrder addOrder : rangeOrder) (collections : list cycle)
    (Hcopy : visitsAll copyOrder) (Hadd : visitsAll addOrder)
    (Hidle : allMetrics (runTicks ticks (boot hp0 ns seconds)) = None) :
  let s := runTicks ticks (boot hp0 ns seconds) in
  let s1 := analysisCall copyOrder s in
  let s2 := runTicks (Collection <$> collections) s1 in
  let s3 := analysisCall addOrder s2 in
  allMetrics s3 = None /\
  (forall podName p, metrics (storageMonitor s) !! podName = Some p ->
     load (heap s3) <$> historyOf (storageAnalyzer s3) podName
     = lastN 100 ((load (heap s) <$> historyOf (storageAnalyzer s) podName)
                    ++ [load (heap s) p]) /\
     GetBottleneckType (storageAnalyzer s3) podName = analyzeBottleneck (load (heap s) p)) /\
  (forall podName, metrics (storageMonitor s) !! podName = None ->
     historyOf (storageAnalyzer s3) podName = historyOf (storageAnalyzer s) podName).
Proof.
  intros s s1 s2 s3.
  pose proof (runTicks_apart ticks _ (boot_apart hp0 ns seconds)) as Hs. fold s in Hs.
  pose proof (step_apart s (AnalysisCall copyOrder) Hs) as Hs1.
  cbn [step] in Hs1. fold s1 in Hs1.
  destruct Hs as (Howned & (Hconf & Hbounded & Hhundred) & Hhist & _).
  (* the first call *)
  destruct (GetAllMetrics_in_snapshot copyOrder (heap s) (storageMonitor s) Hcopy Howned)
    as ([extra1 Hextra1] & Hcopies & Hdom).
  cbv zeta in Hextra1, Hcopies, Hdom.
  assert (Hs1eq : exists result hp1,
            GetAllMetrics_in (copyOrder (metrics (storageMonitor s))) (heap s)
            = (result, hp1) /\
            s1 = mkSystem hp1 (storageMonitor s) (storageAnalyzer s) (Some result)).
  { assert (Hidle' : allMetrics s = None) by exact Hidle.
    unfold s1, analysisCall. rewrite Hidle'.
    destruct (GetAllMetrics_in (copyOrder (metrics (storageMonitor s))) (heap s))
      as [result hp1].
    exists result, hp1. split; reflexivity. }
  destruct Hs1eq as (result & hp1 & Hget & Hs1eq).
  rewrite Hget in Hextra1, Hcopies, Hdom. cbn [fst snd] in Hextra1, Hcopies, Hdom.
  (* the collections *)
  destruct (collections_keep collections s1 Hs1) as (_ & Hsa2 & Hlocal2 & Hkeep2).
  fold s2 in Hsa2, Hlocal2, Hkeep2.
  assert (Hsa1 : storageAnalyzer s1 = storageAnalyzer s) by (rewrite Hs1eq; reflexivity).
  assert (Hheap1 : heap s1 = hp1) by (rewrite Hs1eq; reflexivity).
  assert (Hlocal1 : allMetrics s1 = Some result) by (rewrite Hs1eq; reflexivity).
  rewrite Hsa1 in Hsa2. rewrite Hlocal1 in Hlocal2.
  destruct Hs1 as (_ & _ & Hhist1 & Hheld1).
  (* the second call *)
  assert (Hmem : forall k q, (k, q) ∈ addOrder result <-> result !! k = Some q).
  { intros k q. rewrite (Hadd result). apply elem_of_map_to_list. }
  assert (Hnodup : NoDup (addOrder result).*1).
  { rewrite (Hadd result). apply NoDup_fst_map_to_list. }
  destruct (AddMetrics_grows (addOrder result) (heap s2, storageAnalyzer s))
    as ([extra3 Hextra3] & _).
  pose proof (AddMetrics_latest (addOrder result) (heap s2, storageAnalyzer s)) as Hlatest.
  pose proof (AddMetrics_untouched (addOrder result) (heap s2, storageAnalyzer s))
    as Huntouched.
  assert (Hs3eq : s3 = mkSystem (fst (AddMetrics (addOrder result) (heap s2, storageAnalyzer s)))
                         (storageMonitor s2)
                         (snd (AddMetrics (addOrder result) (heap s2, storageAnalyzer s)))
                         None).
  { unfold s3, analysisCall. rewrite Hlocal2, Hsa2.
    destruct (AddMetrics (addOrder result) (heap s2, storageAnalyzer s)). reflexivity. }
  rewrite Hs3eq. cbn [heap storageAnalyzer allMetrics].
  cbn [fst snd] in Hextra3, Hlatest, Huntouched.
  split; [reflexivity|]. split.
  - intros podName p Hp.
    destruct (Hdom podName p Hp) as [q Hq].
    destruct (Hcopies podName q Hq) as (p' & Hp' & Hval).
    rewrite Hp in Hp'. injection Hp' as <-.
    destruct (Hkeep2 q (Hheld1 result podName q Hlocal1 Hq)) as [[Hq2 _] Hload2].
    rewrite Hheap1 in Hload2.
    destruct (Hlatest podName q Hnodup (proj2 (Hmem podName q) Hq) Hq2 (proj1 Hconf))
      as (q' & Hhistory & Hfresh & Hload & Hbn).
    split.
    + rewrite Hhistory, Hhundred.
      rewrite appendBounded_lastN
        by (try lia; rewrite <- Hhundred; apply Hbounded).
      rewrite fmap_lastN, fmap_app. simpl. rewrite Hload, Hload2, Hval.
      change (Z.to_nat 100) with 100%nat. f_equal. f_equal.
      apply load_fmap_ext. intros x Hx.
      assert (Hx1 : foreign s1 x) by (apply (Hhist1 podName); rewrite Hsa1; exact Hx).
      destruct (Hkeep2 x Hx1) as [[Hx2 _] Hloadx].
      rewrite Hextra3, (load_app_l _ _ x Hx2), Hloadx, Hheap1, Hextra1.
      apply load_app_l. apply (Hhist podName x Hx).
    + rewrite Hbn, Hload2, Hval. reflexivity.
  - intros podName Hnone.
    assert (Hnot : podName ∉ (addOrder result).*1).
    { intros Hin. apply list_elem_of_fmap in Hin as [[k q] [Hk Hkq]]. simpl in Hk. subst k.
      apply Hmem in Hkq. destruct (Hcopies podName q Hkq) as (p & Hp & _).
      rewrite Hnone in Hp. discriminate Hp. }
    destruct (Huntouched podName Hnot) as (Hhist' & _).
    unfold historyOf. rewrite Hhist'. reflexivity.
Qed.

Lemma analysisTick_snapshots_witness :
  visitsAll map_to_list /\
  allMetrics (runTicks someTicks (boot [] "default" 10)) = None /\
  allMetrics
    (analysisCall map_to_list
       (runTicks (Collection <$> twoCycles)
          (analysisCall map_to_list (runTicks someTicks (boot [] "default" 10)))))
  = None.
Proof.
  assert (Hidle : allMetrics (runTicks someTicks (boot [] "default" 10)) = None)
    by reflexivity.
  split; [exact mapToList_visitsAll|]. split; [exact Hidle|].
  exact (proj1 (analysisTick_snapshots someTicks [] "default" 10 map_to_list map_to_list
                  twoCycles mapToList_visitsAll mapToList_visitsAll Hidle)).
Defined.

End Goroutines.

(* ===================================================================== *)
(** * The history of a pod stays within the capacity *)
(* ===================================================================== *)

Section HistoryCapacity.
Import Monitor Analyzer Examples.

(** C7. Take any sequence of [AddMetrics] calls on a newly constructed
    analyzer and one more call, with the map [metrics].  The capacity is
    the configured one, at least 1, before and after the call, and no
    pod's history is longer than it, before or after.  For every pod in
    [metrics] the call stores a fresh copy of the object passed for it at
    the tail of the pod's history: when the history was below the
    capacity nothing is dropped, and when it was full exactly its head
    is.  The history of a pod that is not in [metrics] stays as it is. *)
Theorem AddMetrics_history_bounded
    (options : list (StorageAnalyzer -> StorageAnalyzer))
    (calls : list (list (string * ptr))) (metrics : list (string * ptr)) (hp : Heap)
    (Hoptions : Forall is_option options)
    (Hkeys : NoDup metrics.*1) :
  let st := runAddMetrics calls (hp, NewStorageAnalyzer options) in
  let st' := AddMetrics metrics st in
  let max := maxHistoryPerPod (NewStorageAnalyzer options) in
  st' = runAddMetrics (calls ++ [metrics]) (hp, NewStorageAnalyzer options) /\
  1 <= max /\ maxHistoryPerPod (snd st) = max /\ maxHistoryPerPod (snd st') = max /\
  (forall podName, Z.of_nat (length (historyOf (snd st) podName)) <= max) /\
  (forall podName, Z.of_nat (length (historyOf (snd st') podName)) <= max) /\
  (forall podName p, (podName, p) ∈ metrics -> (p < length (fst st))%nat ->
     exists q,
       (length (fst st) <= q)%nat /\
       load (fst st') q = load (fst st) p /\
       historyOf (snd st') podName =
         (if Z.of_nat (length (historyOf (snd st) podName)) <? max
          then historyOf (snd st) podName ++ [q]
          else drop 1 (historyOf (snd st) podName) ++ [q])) /\
  (forall podName, podName ∉ metrics.*1 ->
     historyOf (snd st') podName = historyOf (snd st) podName).
Proof.
  intros st st' max.
  destruct (NewStorageAnalyzer_configured options Hoptions) as [Hc Hempty].
  assert (Hb : bounded (NewStorageAnalyzer options)).
  { intros podName. unfold historyOf. rewrite Hempty, lookup_empty.
    simpl. destruct Hc. lia. }
  destruct (runAddMetrics_invariant calls (hp, NewStorageAnalyzer options) Hc Hb)
    as (Hc1 & Hb1 & Hm1).
  fold st in Hc1, Hb1, Hm1. cbn [snd] in Hm1. fold max in Hm1.
  destruct (AddMetrics_invariant metrics st Hc1 Hb1) as (Hc2 & Hb2 & Hm2).
  fold st' in Hc2, Hb2, Hm2. rewrite Hm1 in Hm2.
  assert (Hmax : 1 <= max) by (destruct Hc as [Hcap _]; exact Hcap).
  split; [unfold st', st, runAddMetrics; rewrite fold_left_app; reflexivity|].
  split; [exact Hmax|]. split; [exact Hm1|]. split; [exact Hm2|].
  split; [intros podName; rewrite <- Hm1; apply Hb1|].
  split; [intros podName; rewrite <- Hm2; apply Hb2|].
  split.
  - intros podName p Hin Hp.
    destruct (AddMetrics_latest metrics st podName p Hkeys Hin Hp)
      as (q & Hhist & Hfresh & Hload & _); [rewrite Hm1; exact Hmax|].
    exists q. split; [exact Hfresh|]. split; [exact Hload|].
    fold st' in Hhist. rewrite Hhist, Hm1.
    apply appendBounded_cases; [exact Hmax|]. rewrite <- Hm1. apply Hb1.
  - intros podName Hother.
    destruct (AddMetrics_untouched metrics st podName Hother) as (Hhist & _).
    unfold historyOf. fold st' in Hhist. rewrite Hhist. reflexivity.
Qed.

Lemma AddMetrics_history_bounded_witness :
  Forall is_option [WithMaxHistoryPerPod 2] /\
  NoDup [("a"%string, 0%nat)].*1 /\
  let st := runAddMetrics threeCalls (oneSnapshot, NewStorageAnalyzer [WithMaxHistoryPerPod 2]) in
  let st' := AddMetrics [("a"%string, 0%nat)] st in
  historyOf (snd st) "a" = [2%nat; 3%nat] /\
  Z.of_nat (length (historyOf (snd st') "a")) <= 2 /\
  exists q,
    (4 <= q)%nat /\ load (fst st') q = snapshot "a" 1 1 0 /\
    historyOf (snd st') "a" = [3%nat; q].
Proof.
  assert (H : Forall is_option [WithMaxHistoryPerPod 2]).
  { constructor; [|constructor]. left. exists 2. reflexivity. }
  assert (Hkeys : NoDup [("a"%string, 0%nat)].*1) by apply NoDup_singleton.
  split; [exact H|]. split; [exact Hkeys|].
  intros st st'.
  destruct (AddMetrics_history_bounded [WithMaxHistoryPerPod 2] threeCalls
              [("a"%string, 0%nat)] oneSnapshot H Hkeys)
    as (_ & _ & _ & _ & _ & Hlen & Hadd & _).
  split; [reflexivity|]. split; [exact (Hlen "a"%string)|].
  destruct (Hadd "a"%string 0%nat) as (q & Hfresh & Hload & Hhist).
  - apply list_elem_of_singleton. reflexivity.
  - vm_compute. lia.
  - exists q. split; [exact Hfresh|]. split; [exact Hload|]. exact Hhist.
Defined.

End HistoryCapacity.

(* ===================================================================== *)
(** * Rates *)
(* ===================================================================== *)

Section Rates.
Import Ebpf Float64 Examples.

Lemma div_one_small (z : Z) :
  0 <= z < 2 ^ 53 -> (of_Z z / 1)%float = of_Z z.
Proof.
  intros Hz. apply Prim2SF_inj. rewrite div_spec.
  destruct z as [|p|p]; [reflexivity| |lia].
  rewrite Prim2SF_of_Z_pos by lia.
  change (Prim2SF 1) with (canon 1).
  apply (SFdiv_canon 1 p). lia.
Qed.

Lemma to_uint64_of_Z (z : Z) :
  0 <= z < 2 ^ 53 -> to_uint64 (of_Z z) = Some z.
Proof.
  intros Hz. unfold to_uint64.
  destruct z as [|p|p]; [reflexivity| |lia].
  rewrite Prim2SF_of_Z_pos by lia. unfold canon.
  destruct (canon_mantissa p ltac:(lia)) as [Hm _]. cbv zeta in Hm. rewrite Hm.
  pose proof (digits2_pos_le_53 p ltac:(lia)) as Hd.
  set (d := Zpos (digits2_pos p)) in *.
  assert (Hpow : 0 < 2 ^ (53 - d)) by (apply Z.pow_pos_nonneg; lia).
  assert (Htrunc : (if 0 <=? d - 53 then Zpos p * 2 ^ (53 - d) * 2 ^ (d - 53)
                    else Zpos p * 2 ^ (53 - d) / 2 ^ (- (d - 53))) = Zpos p).
  { destruct (Z.leb_spec 0 (d - 53)) as [Hge|Hlt].
    - replace (d - 53) with 0 by lia. replace (53 - d) with 0 by lia. simpl. lia.
    - replace (- (d - 53)) with (53 - d) by lia. apply Z.div_mul. lia. }
  rewrite Htrunc.
  destruct (Z.ltb_spec (Zpos p) (2 ^ 64)) as [_|Hge]; [reflexivity | lia].
Qed.

Lemma perSecond_short (count : Z) (elapsedTime : float) :
  PrimFloat.ltb elapsedTime 0x1.0624dd2f1a9fcp-10%float = true ->
  0 <= count < 2 ^ 53 ->
  perSecond count (guarded elapsedTime) = Some count.
Proof.
  intros Hshort Hcount. unfold perSecond, guarded. rewrite Hshort.
  rewrite div_one_small by exact Hcount. apply to_uint64_of_Z. exact Hcount.
Qed.

(** X22. When less than a millisecond has passed since the statistics
    were fetched, [GetIOPS] and [GetThroughput] divide by 1 instead: the
    rates they report for a pod are the raw counts of operations and of
    bytes, and the totals their sums (counts below 2^53). *)
Theorem GetIOPS_short_interval (ioStats : gmap string IOStatsData) (elapsedTime : float)
    (podName : string) (stats : IOStatsData)
    (Hshort : PrimFloat.ltb elapsedTime 0x1.0624dd2f1a9fcp-10%float = true)
    (Hpod : ioStats !! podName = Some stats)
    (Hops : 0 <= ReadOps stats < 2 ^ 53 /\ 0 <= WriteOps stats < 2 ^ 53)
    (Hbytes : 0 <= ReadBytes stats < 2 ^ 53 /\ 0 <= WriteBytes stats < 2 ^ 53) :
  GetIOPS ioStats elapsedTime !! podName =
    Some (Some (<["read_iops" := ReadOps stats]>
                  (<["write_iops" := WriteOps stats]>
                     (<["total_iops" := ReadOps stats + WriteOps stats]> ∅)))) /\
  GetThroughput ioStats elapsedTime !! podName =
    Some (Some (<["read_throughput_bps" := ReadBytes stats]>
                  (<["write_throughput_bps" := WriteBytes stats]>
                     (<["total_throughput_bps" := ReadBytes stats + WriteBytes stats]> ∅)))).
Proof.
  unfold GetIOPS, GetThroughput. rewrite !lookup_fmap, Hpod. simpl.
  unfold iopsOf, throughputOf.
  rewrite !perSecond_short by (exact Hshort || tauto).
  rewrite !wrap64_small by lia. split; reflexivity.
Qed.

Lemma GetIOPS_short_interval_witness :
  PrimFloat.ltb 0x1p-20%float 0x1.0624dd2f1a9fcp-10%float = true /\
  GetIOPS podStats 0x1p-20%float !! "pod1" =
    Some (Some (<["read_iops" := 3000]>
                  (<["write_iops" := 2000]> (<["total_iops" := 5000]> ∅)))).
Proof.
  assert (Hshort : PrimFloat.ltb 0x1p-20%float 0x1.0624dd2f1a9fcp-10%float = true)
    by reflexivity.
  split; [exact Hshort|].
  refine (proj1 (GetIOPS_short_interval podStats 0x1p-20%float "pod1"
                   (mkIOStats 1500000 2500000 3000 2000 (5 * 1024 * 1024)
                      (3 * 1024 * 1024) 500000 1200000 0 0)
                   Hshort eq_refl _ _)); simpl; lia.
Defined.

End Rates.

(* ===================================================================== *)
(** * Instances *)
(* ===================================================================== *)

Section Instances.
Import Monitor Analyzer Spec Examples.

Lemma monitorOf_pointers :
  forall k p, metrics monitorOf !! k = Some p -> (p < length monitorHeap)%nat.
Proof. intros k p H. apply (monitorOf_owned k p H). Qed.

Lemma GetAllMetrics_returns_copies_witness :
  (forall k p, metrics monitorOf !! k = Some p -> (p < length monitorHeap)%nat) /\
  load (snd (GetAllMetrics monitorHeap monitorOf)) 1%nat = load monitorHeap 1%nat.
Proof.
  split; [exact monitorOf_pointers|].
  apply (GetAllMetrics_returns_copies monitorHeap monitorOf monitorOf_pointers).
  simpl. lia.
Defined.

Lemma GetLatencyTrend_all_in_window_witness :
  metricsHistory (snd specTrendState) !! "a" = Some (historyOf (snd specTrendState) "a") /\
  (2 <= length (historyOf (snd specTrendState) "a"))%nat /\
  - 2 ^ 63 < 300 * second < 2 ^ 63 /\
  GetLatencyTrend (fst specTrendState) (snd specTrendState) (300 * second) "a" (300 * second)
  = trendOf (load (fst specTrendState) <$> historyOf (snd specTrendState) "a")
      (300 * second) (300 * second).
Proof.
  assert (H1 : metricsHistory (snd specTrendState) !! "a"
               = Some (historyOf (snd specTrendState) "a")) by reflexivity.
  assert (H2 : (2 <= length (historyOf (snd specTrendState) "a"))%nat) by (vm_compute; lia).
  assert (H3 : - 2 ^ 63 < 300 * second < 2 ^ 63) by (vm_compute; split; reflexivity).
  split; [exact H1|]. split; [exact H2|]. split; [exact H3|].
  apply (GetLatencyTrend_all_in_window (fst specTrendState) (snd specTrendState)
           (300 * second) "a" (300 * second) (historyOf (snd specTrendState) "a") H1 H2 H3).
  intros m Hm.
  change (load (fst specTrendState) <$> historyOf (snd specTrendState) "a")
    with [snapshot "a" (10 * ms) (10 * ms) 0; snapshot "a" (15 * ms) (10 * ms) (300 * second)]
    in Hm.
  repeat (apply elem_of_cons in Hm as [->|Hm];
          [split; [vm_compute; discriminate | reflexivity]|]).
  inversion Hm.
Defined.

Lemma GetTopNSlowPods_returns_stored_witness :
  sortSliceContract (@insertionSort podLatency) /\
  GetTopNSlowPods insertionSort (fst afterOneCall) (snd afterOneCall) 1 = Some [1%nat] /\
  exists podName history,
    metricsHistory (snd afterOneCall) !! podName = Some history /\
    last history = Some 1%nat.
Proof.
  assert (Hres : GetTopNSlowPods insertionSort (fst afterOneCall) (snd afterOneCall) 1
                 = Some [1%nat]) by reflexivity.
  split; [exact insertionSort_contract|]. split; [exact Hres|].
  apply (GetTopNSlowPods_returns_stored insertionSort (fst afterOneCall) (snd afterOneCall)
           1 [1%nat] insertionSort_contract Hres 1%nat).
  left.
Defined.

End Instances.
